(** * Student management backend: a shallow embedding of [backend/server.py]

    The server is a FastAPI application over two MongoDB collections
    ([db.users], [db.students]).  Handlers are embedded as computations in a
    state-and-exception monad over a [World] that holds the two collections
    and the sources the code reads from its environment: the wall clock
    ([datetime.now]), the [uuid4] generator, the bcrypt salt generator, the
    signing secret and the [EmailStr] validator.

    Modelling conventions.
    - A MongoDB document and a Python [dict] are finite maps from field names
      to [value]s.  The [_id] field that the store adds on insertion is left
      out: every read in the source either projects it away or only tests the
      result for presence.
    - Instants are integers, microseconds since the epoch (the resolution of
      [datetime]).  The text produced by [datetime.isoformat] is represented
      by the instant it denotes ([VIsoStr]); a bcrypt digest by the salt and
      password it was computed from ([VBcrypt]); a signed token by its claims
      and the key that signed it ([Signed]).  Plain text is [VStr]: a
      [string] is the sequence of the bytes of the text in UTF-8.
    - The libraries the handlers call ([jwt], [passlib], [pydantic], the
      store's query language) are modelled to the extent the handlers use
      them; what is left out is said at the definition. *)

From stdpp Require Import gmap strings list.
From Stdlib Require Import ZArith Ascii.

Open Scope string_scope.
Open Scope Z_scope.

(** ** Values and documents *)

Inductive value : Type :=
| VNone
| VStr (s : string)
| VInt (z : Z)
| VDatetime (t : Z)
| VIsoStr (t : Z)
| VBcrypt (salt pw : string).

#[global] Instance value_eq_dec : EqDecision value.
Proof. solve_decision. Defined.

Abbreviation doc := (gmap string value).

(** [isinstance(v, str)] *)
Definition is_str (v : value) : bool :=
  match v with
  | VStr _ | VIsoStr _ | VBcrypt _ _ => true
  | _ => false
  end.

(** Truth value of a [find_one] result: [None] and the empty dict are falsy. *)
Definition truthy (o : option doc) : bool :=
  match o with
  | None => false
  | Some d => bool_decide (d ≠ ∅)
  end.

(** ** Outcomes and the handler monad *)

Inductive result (A : Type) : Type :=
| Ok (a : A)
| HTTPException (status_code : Z) (detail : string)
| Raised (exc : string)
| OutOfModel.

Arguments Ok {A} a.
Arguments HTTPException {A} status_code detail.
Arguments Raised {A} exc.
Arguments OutOfModel {A}.

(** Status line the framework sends for an outcome; an exception that no
    handler catches becomes a 500. *)
Definition status_of {A} (r : result A) : option Z :=
  match r with
  | Ok _ => Some 200
  | HTTPException c _ => Some c
  | Raised _ => Some 500
  | OutOfModel => None
  end.

(** Settings of the server (lines 28-29 of the source). *)
Definition ALGORITHM : string := "HS256".
Definition ACCESS_TOKEN_EXPIRE_MINUTES : Z := 60 * 24.

Definition microseconds_per_second : Z := 1000000.

(** The first and the last instant a [datetime] can hold: the start of the
    year 1 and the last microsecond of the year 9999. *)
Definition datetime_min : Z := -62135596800000000.
Definition datetime_max : Z := 253402300799999999.

(** The world.  [clock n] is what the [n]-th reading of the wall clock
    gives.  A reading is a [datetime], so it lies in the range of that type;
    the model moreover keeps the clock a token lifetime short of the last
    instant, so that adding the lifetime to a reading ([create_access_token])
    stays in range. *)
Record World : Type := mkWorld {
  users : list doc;
  students : list doc;
  clock : nat → Z;
  clock_range : ∀ n,
    datetime_min ≤ clock n
    ≤ datetime_max
      - ACCESS_TOKEN_EXPIRE_MINUTES * 60 * microseconds_per_second;
  ticks : nat;
  uuids : nat → string;
  uuid_count : nat;
  salts : nat → string;
  salt_count : nat;
  SECRET_KEY : string;
  EmailStr : string → option string
}.

Definition M (A : Type) : Type := World → result A * World.

Definition ret {A} (a : A) : M A := λ w, (Ok a, w).

Definition bind {A B} (m : M A) (k : A → M B) : M B :=
  λ w, match m w with
       | (Ok a, w') => k a w'
       | (HTTPException c d, w') => (HTTPException c d, w')
       | (Raised e, w') => (Raised e, w')
       | (OutOfModel, w') => (OutOfModel, w')
       end.

Definition raise_http {A} (status_code : Z) (detail : string) : M A :=
  λ w, (HTTPException status_code detail, w).

Definition raise {A} (exc : string) : M A := λ w, (Raised exc, w).

Definition out_of_model {A} : M A := λ w, (OutOfModel, w).

Declare Scope handler_scope.
Delimit Scope handler_scope with handler.
Notation "'let*' x ':=' m 'in' k" := (bind m (λ x, k))
  (at level 10, x name, m at level 100, k at level 200) : handler_scope.
Notation "m ';;' k" := (bind m (λ _, k))
  (at level 100, k at level 200, right associativity) : handler_scope.
Open Scope handler_scope.

(** ** The environment: clock, identifiers, salts *)

(** [datetime.now(timezone.utc)]: every call is a fresh reading. *)
Definition now : M Z :=
  λ w, (Ok (clock w (ticks w)),
        mkWorld (users w) (students w) (clock w) (clock_range w)
                (S (ticks w)) (uuids w) (uuid_count w) (salts w)
                (salt_count w) (SECRET_KEY w) (EmailStr w)).

(** [str(uuid.uuid4())] *)
Definition uuid4 : M string :=
  λ w, (Ok (uuids w (uuid_count w)),
        mkWorld (users w) (students w) (clock w) (clock_range w)
                (ticks w) (uuids w) (S (uuid_count w)) (salts w)
                (salt_count w) (SECRET_KEY w) (EmailStr w)).

Definition gensalt : M string :=
  λ w, (Ok (salts w (salt_count w)),
        mkWorld (users w) (students w) (clock w) (clock_range w)
                (ticks w) (uuids w) (uuid_count w) (salts w)
                (S (salt_count w)) (SECRET_KEY w) (EmailStr w)).

Definition get_secret : M string := λ w, (Ok (SECRET_KEY w), w).

Definition validate_email (s : string) : M (option string) :=
  λ w, (Ok (EmailStr w s), w).

(** ** Regular expressions of the store

    [$regex] hands the pattern to the store's PCRE engine, which works on
    characters and, under option [i], folds case by its Unicode tables.  The
    model covers ASCII text only, where a character is a byte and case
    folding is the folding of [A-Z]: a pattern is a sequence of printable
    ASCII literals and [.] (any character but a newline), and a pattern with
    another metacharacter or another byte is outside the model ([compile]
    gives [None]), and so is a pattern of more than 1000 characters, to stay
    clear of the engine's limit on the size of a pattern; so is a subject
    that is not ASCII ([regex_search] gives [None]), since there a letter
    can match a character beyond ASCII.  Matching is a search: the pattern
    may match at any offset. *)

Inductive atom : Type :=
| Lit (c : ascii)
| AnyChar.

Definition is_meta (c : ascii) : bool :=
  bool_decide (c ∈ String.list_ascii_of_string "\^$.[]|()?*+{}").

(** The printable characters of ASCII, space to tilde. *)
Definition printable (c : ascii) : bool :=
  let n := nat_of_ascii c in ((32 <=? n) && (n <=? 126))%nat.

Definition is_ascii (c : ascii) : bool := (nat_of_ascii c <? 128)%nat.

Definition ascii_text (s : string) : bool :=
  forallb is_ascii (String.list_ascii_of_string s).

Fixpoint compile_atoms (pattern : string) : option (list atom) :=
  match pattern with
  | EmptyString => Some []
  | String c rest =>
      match compile_atoms rest with
      | None => None
      | Some r =>
          if bool_decide (c = "."%char) then Some (AnyChar :: r)
          else if is_meta c || negb (printable c) then None
          else Some (Lit c :: r)
      end
  end.

Definition compile (pattern : string) : option (list atom) :=
  if (1000 <? String.length pattern)%nat then None
  else compile_atoms pattern.

Definition lower (c : ascii) : ascii :=
  let n := nat_of_ascii c in
  if ((65 <=? n) && (n <=? 90))%nat then ascii_of_nat (n + 32) else c.

Definition atom_accepts (icase : bool) (a : atom) (x : ascii) : bool :=
  match a with
  | Lit c => if icase then bool_decide (lower c = lower x)
             else bool_decide (c = x)
  | AnyChar => negb (bool_decide (x = ascii_of_nat 10))
  end.

Fixpoint match_here (icase : bool) (p : list atom) (s : string) : bool :=
  match p with
  | [] => true
  | a :: p' =>
      match s with
      | EmptyString => false
      | String x s' => atom_accepts icase a x && match_here icase p' s'
      end
  end.

Fixpoint search_from (icase : bool) (p : list atom) (s : string) : bool :=
  match_here icase p s ||
  match s with
  | EmptyString => false
  | String _ s' => search_from icase p s'
  end.

Definition has_option_i (options : string) : bool :=
  bool_decide ("i"%char ∈ String.list_ascii_of_string options).

Definition regex_search (pattern options subject : string) : option bool :=
  match compile pattern with
  | None => None
  | Some p =>
      if ascii_text subject
      then Some (search_from (has_option_i options) p subject)
      else None
  end.

(** ** The document store

    A collection is the list of its documents in the store's natural order;
    [insert_one] appends.  A query is the list of the entries of the query
    dict: a field condition, or an [$or] over field conditions.

    The driver encodes every document and every query it sends as BSON, and
    BSON integers have 8 bytes: an integer outside that range makes the
    encoder raise [OverflowError] before anything reaches the store.  The
    store accepts no document of more than 16 MiB; the model follows the
    handlers on documents that are safely below that size ([fits]) and leaves
    open what happens to a larger one. *)

Definition int64 (z : Z) : bool := (- 2 ^ 63 <=? z) && (z <? 2 ^ 63).

Definition bson_value (v : value) : bool :=
  match v with
  | VInt z => int64 z
  | _ => true
  end.

Definition bson_doc (d : doc) : bool :=
  bool_decide (map_Forall (λ _ v, bson_value v = true) d).

(** A bound on the bytes of the content of a value in BSON: the bytes of
    a text, 8 for an integer or a [datetime], 32 for the text of an instant,
    60 for a bcrypt digest. *)
Definition value_weight (v : value) : Z :=
  match v with
  | VNone => 0
  | VStr s => Z.of_nat (String.length s)
  | VInt _ | VDatetime _ => 8
  | VIsoStr _ => 32
  | VBcrypt _ _ => 60
  end.

(** A bound on the bytes of a document in BSON, short of the 22 bytes of its
    frame and of the [_id] the store adds: every entry takes its name, its
    content and at most 8 bytes more. *)
Definition doc_weight (d : doc) : Z :=
  map_fold (λ k v acc, Z.of_nat (String.length k) + value_weight v + 8 + acc)
           0 d.

Definition fits (d : doc) : bool := doc_weight d <=? 16000000.

Inductive cond : Type :=
| CEq (v : value)
| CRegex (pattern options : string).

Inductive clause : Type :=
| Field (k : string) (c : cond)
| OrClause (alts : list (string * cond)).

Abbreviation mongo_query := (list clause).

(** A condition on the value a document has under a field ([None]: the field
    is missing).  Equality with [null] also selects a missing field.  A regex
    only matches text; on text that the model keeps symbolic the answer is
    left open. *)
Definition cond_holds (c : cond) (fv : option value) : option bool :=
  match c with
  | CEq VNone => Some (bool_decide (fv = None ∨ fv = Some VNone))
  | CEq v => Some (bool_decide (fv = Some v))
  | CRegex pattern options =>
      match compile pattern with
      | None => None
      | Some _ =>
          match fv with
          | Some (VStr s) => regex_search pattern options s
          | Some (VIsoStr _) | Some (VBcrypt _ _) => None
          | _ => Some false
          end
      end
  end.

Definition and_opt (a b : option bool) : option bool :=
  match a, b with
  | Some x, Some y => Some (x && y)
  | _, _ => None
  end.

Definition or_opt (a b : option bool) : option bool :=
  match a, b with
  | Some x, Some y => Some (x || y)
  | _, _ => None
  end.

Definition clause_holds (d : doc) (cl : clause) : option bool :=
  match cl with
  | Field k c => cond_holds c (d !! k)
  | OrClause alts =>
      foldr (λ '(k, c) acc, or_opt (cond_holds c (d !! k)) acc)
            (Some false) alts
  end.

Definition matches (q : mongo_query) (d : doc) : option bool :=
  foldr (λ cl acc, and_opt (clause_holds d cl) acc) (Some true) q.

Definition cond_supported (c : cond) : bool :=
  match c with
  | CEq _ => true
  | CRegex pattern _ => bool_decide (is_Some (compile pattern))
  end.

Definition clause_supported (cl : clause) : bool :=
  match cl with
  | Field _ c => cond_supported c
  | OrClause alts => forallb (λ '(_, c), cond_supported c) alts
  end.

Fixpoint select (q : mongo_query) (coll : list doc) : option (list doc) :=
  match coll with
  | [] => Some []
  | d :: rest =>
      match matches q d, select q rest with
      | Some b, Some l => Some (if b then d :: l else l)
      | _, _ => None
      end
  end.

(** [$set]: the fields of [upd] overwrite, every other field stays. *)
Definition apply_set (upd d : doc) : doc := upd ∪ d.

Fixpoint update_first (q : mongo_query) (upd : doc) (coll : list doc)
  : option (list doc) :=
  match coll with
  | [] => Some []
  | d :: rest =>
      match matches q d with
      | None => None
      | Some true =>
          if fits (apply_set upd d) then Some (apply_set upd d :: rest)
          else None
      | Some false => cons d <$> update_first q upd rest
      end
  end.

Fixpoint delete_first (q : mongo_query) (coll : list doc)
  : option (list doc * Z) :=
  match coll with
  | [] => Some ([], 0)
  | d :: rest =>
      match matches q d with
      | None => None
      | Some true => Some (rest, 1)
      | Some false =>
          (λ '(l, n), (d :: l, n)) <$> delete_first q rest
      end
  end.

Inductive collection : Type := db_users | db_students.

Definition read (c : collection) (w : World) : list doc :=
  match c with
  | db_users => users w
  | db_students => students w
  end.

Definition write (c : collection) (l : list doc) (w : World) : World :=
  match c with
  | db_users =>
      mkWorld l (students w) (clock w) (clock_range w) (ticks w) (uuids w)
              (uuid_count w) (salts w) (salt_count w) (SECRET_KEY w)
              (EmailStr w)
  | db_students =>
      mkWorld (users w) l (clock w) (clock_range w) (ticks w) (uuids w)
              (uuid_count w) (salts w) (salt_count w) (SECRET_KEY w)
              (EmailStr w)
  end.

Definition supported (q : mongo_query) : bool := forallb clause_supported q.

Definition bson_cond (c : cond) : bool :=
  match c with
  | CEq v => bson_value v
  | CRegex _ _ => true
  end.

Definition bson_clause (cl : clause) : bool :=
  match cl with
  | Field _ c => bson_cond c
  | OrClause alts => forallb (λ '(_, c), bson_cond c) alts
  end.

Definition bson_query (q : mongo_query) : bool := forallb bson_clause q.

(** What every operation of the driver does first: encode what it sends. *)
Definition encode (encodable : bool) : M unit :=
  if encodable then ret () else raise "OverflowError".

(** [db.c.find_one(q, {"_id": 0})]: the first match in natural order. *)
Definition find_one (c : collection) (q : mongo_query) : M (option doc) :=
  encode (bson_query q);;
  λ w, if supported q then
         match select q (read c w) with
         | Some l => (Ok (head l), w)
         | None => (OutOfModel, w)
         end
       else (OutOfModel, w).

(** [db.c.find(q, {"_id": 0}).to_list(n)] *)
Definition find_to_list (c : collection) (q : mongo_query) (n : nat)
  : M (list doc) :=
  encode (bson_query q);;
  λ w, if supported q then
         match select q (read c w) with
         | Some l => (Ok (take n l), w)
         | None => (OutOfModel, w)
         end
       else (OutOfModel, w).

Definition insert_one (c : collection) (d : doc) : M unit :=
  encode (bson_doc d);;
  (if fits d then ret () else out_of_model);;
  λ w, (Ok (), write c (read c w ++ [d]) w).

(** [db.c.update_one(q, {"$set": upd})] *)
Definition update_one (c : collection) (q : mongo_query) (upd : doc) : M unit :=
  encode (bson_query q && bson_doc upd);;
  λ w, if supported q then
         match update_first q upd (read c w) with
         | Some l => (Ok (), write c l w)
         | None => (OutOfModel, w)
         end
       else (OutOfModel, w).

(** [db.c.delete_one(q)], giving [deleted_count]. *)
Definition delete_one (c : collection) (q : mongo_query) : M Z :=
  encode (bson_query q);;
  λ w, if supported q then
         match delete_first q (read c w) with
         | Some (l, n) => (Ok n, write c l w)
         | None => (OutOfModel, w)
         end
       else (OutOfModel, w).

(** ** Password hashing ([passlib], scheme bcrypt)

    A digest is kept symbolic: the salt drawn for it and the password it was
    computed from.  The library refuses a password of more than 4096
    characters ([PasswordSizeError]) and one that holds a NUL byte
    ([PasswordValueError]); bcrypt reads the first 72 bytes of a password
    and ignores the rest, so two passwords that agree on those bytes have
    the same digest under a salt. *)

Definition MAX_PASSWORD_SIZE : nat := 4096.

(** [len(s)] for a [str]: its characters.  In UTF-8 every character has one
    byte that is not a continuation byte ([10xxxxxx]). *)
Definition is_continuation (c : ascii) : bool :=
  let n := nat_of_ascii c in ((128 <=? n) && (n <? 192))%nat.

Definition len (s : string) : nat :=
  length (filter (λ c, is_continuation c = false)
                 (String.list_ascii_of_string s)).

Definition has_nul (s : string) : bool :=
  existsb (λ c, bool_decide (c = zero)) (String.list_ascii_of_string s).

(** [validate_secret]: the size check, made before anything else. *)
Definition validate_secret (secret : string) : M unit :=
  if (MAX_PASSWORD_SIZE <? len secret)%nat
  then raise "PasswordSizeError" else ret ().

(** The check made when the digest is computed. *)
Definition forbid_nul (secret : string) : M unit :=
  if has_nul secret then raise "PasswordValueError" else ret ().

(** What bcrypt reads of a password. *)
Definition bcrypt_input (secret : string) : string :=
  String.substring 0 72 secret.

(** [pwd_context.hash(password)]: the salt is drawn when the hasher is set
    up, before the digest is computed. *)
Definition get_password_hash (password : string) : M value :=
  validate_secret password;;
  let* salt := gensalt in
  forbid_nul password;;
  ret (VBcrypt salt password).

(** [pwd_context.verify(plain_password, hashed_password)]: a hash that is
    [None] verifies nothing; a hash that is no text is a [TypeError]; text
    that is no bcrypt digest cannot be identified; and against a digest the
    password goes through the same checks as in [hash]. *)
Definition verify_password (plain_password : string) (hashed_password : value)
  : M bool :=
  match hashed_password with
  | VNone => ret false
  | VBcrypt _ pw =>
      validate_secret plain_password;;
      forbid_nul plain_password;;
      ret (bool_decide (bcrypt_input plain_password = bcrypt_input pw))
  | VStr _ | VIsoStr _ => raise "UnknownHashError"
  | VInt _ | VDatetime _ => raise "TypeError"
  end.

(** ** Tokens (the [jwt] module, PyJWT)

    A token is either text that is not a signed token at all, or claims signed
    under an algorithm with a key; a signature verifies exactly under the key
    that made it. *)

Inductive token : Type :=
| Malformed (raw : string)
| Signed (alg : string) (claims : doc) (key : string).

(** The exception classes that [jwt.decode] can raise here, with their base
    classes: those of the module, and the built-in [TypeError] that [int]
    raises on [None]. *)
Inductive exc_class : Type :=
| PyJWTError
| InvalidTokenError
| DecodeError
| InvalidSignatureError
| ExpiredSignatureError
| InvalidAlgorithmError
| ImmatureSignatureError
| InvalidIssuedAtError
| InvalidAudienceError
| InvalidSubjectError
| InvalidJTIError
| TypeError.

#[global] Instance exc_class_eq_dec : EqDecision exc_class.
Proof. solve_decision. Defined.

Definition base (c : exc_class) : option exc_class :=
  match c with
  | PyJWTError => None
  | InvalidTokenError => Some PyJWTError
  | DecodeError => Some InvalidTokenError
  | InvalidSignatureError => Some DecodeError
  | ExpiredSignatureError => Some InvalidTokenError
  | InvalidAlgorithmError => Some InvalidTokenError
  | ImmatureSignatureError => Some InvalidTokenError
  | InvalidIssuedAtError => Some InvalidTokenError
  | InvalidAudienceError => Some InvalidTokenError
  | InvalidSubjectError => Some InvalidTokenError
  | InvalidJTIError => Some InvalidTokenError
  | TypeError => None
  end.

Fixpoint issubclass_fuel (n : nat) (c c' : exc_class) : bool :=
  bool_decide (c = c') ||
  match n with
  | O => false
  | S n' => match base c with
            | None => false
            | Some b => issubclass_fuel n' b c'
            end
  end.

Definition issubclass : exc_class → exc_class → bool := issubclass_fuel 4.

Definition class_name (c : exc_class) : string :=
  match c with
  | PyJWTError => "PyJWTError"
  | InvalidTokenError => "InvalidTokenError"
  | DecodeError => "DecodeError"
  | InvalidSignatureError => "InvalidSignatureError"
  | ExpiredSignatureError => "ExpiredSignatureError"
  | InvalidAlgorithmError => "InvalidAlgorithmError"
  | ImmatureSignatureError => "ImmatureSignatureError"
  | InvalidIssuedAtError => "InvalidIssuedAtError"
  | InvalidAudienceError => "InvalidAudienceError"
  | InvalidSubjectError => "InvalidSubjectError"
  | InvalidJTIError => "InvalidJTIError"
  | TypeError => "TypeError"
  end.

(** Names of the module [jwt] for the classes above; it binds more names,
    but PyJWT has no attribute [JWTError] (that name belongs to python-jose,
    whose module is [jose.jwt]), and [TypeError] is no name of the module. *)
Definition jwt_namespace : list (string * exc_class) :=
  map (λ c, (class_name c, c))
      [PyJWTError; InvalidTokenError; DecodeError; InvalidSignatureError;
       ExpiredSignatureError; InvalidAlgorithmError; ImmatureSignatureError;
       InvalidIssuedAtError; InvalidAudienceError].

(** [jwt.<name>] *)
Definition jwt_getattr (name : string) : option exc_class :=
  snd <$> List.find (λ p, bool_decide (fst p = name)) jwt_namespace.

(** [timegm(t.utctimetuple())]: whole seconds, the microseconds dropped. *)
Definition timegm (t : Z) : Z := t `div` microseconds_per_second.

(** [jwt.encode] turns a [datetime] under [exp], [iat] or [nbf] into whole
    seconds since the epoch before it signs. *)
Definition numeric_date (v : value) : value :=
  match v with
  | VDatetime t => VInt (timegm t)
  | _ => v
  end.

Definition jwt_encode (payload : doc) (key : string) (algorithm : string)
  : token :=
  let payload := alter numeric_date "exp" payload in
  let payload := alter numeric_date "iat" payload in
  let payload := alter numeric_date "nbf" payload in
  Signed algorithm payload key.

(** *** Floats

    The library compares the time claims of a token with
    [datetime.now(tz=timezone.utc).timestamp()], a [float]: the quotient of
    the microseconds since the epoch by [10**6], rounded to the nearest
    binary64 (ties to even).  A float is kept as mantissa and exponent, and
    stands for [mantissa * 2 ^ exponent]; quotients that overflow or are
    subnormal do not occur for a [datetime]. *)

Record float : Type := mkFloat {
  mantissa : Z;
  exponent : Z
}.

(** [n / d] rounded to the nearest integer, ties to even; [d] positive. *)
Definition round_half_even (n d : Z) : Z :=
  let q := n `div` d in
  let r := n `mod` d in
  if 2 * r <? d then q
  else if d <? 2 * r then q + 1
  else if Z.even q then q else q + 1.

(** The greatest [k] with [2 ^ k <= n / d], for positive [n] and [d]. *)
Definition binade (n d : Z) : Z :=
  let k := Z.log2 n - Z.log2 d in
  if (if 0 <=? k then d * 2 ^ k <=? n else d <=? n * 2 ^ (- k))
  then k else k - 1.

(** [n / d] for two [int]s, [d] positive: 53 significant bits. *)
Definition true_divide (n d : Z) : float :=
  if n =? 0 then mkFloat 0 0
  else
    let e := binade (Z.abs n) d - 52 in
    if 0 <=? e then mkFloat (round_half_even n (d * 2 ^ e)) e
    else mkFloat (round_half_even (n * 2 ^ (- e)) d) e.

(** [k <= f] for an [int] and a [float]: Python compares the two exactly. *)
Definition int_le_float (k : Z) (f : float) : bool :=
  if 0 <=? exponent f then k <=? mantissa f * 2 ^ exponent f
  else k * 2 ^ (- exponent f) <=? mantissa f.

(** [t.timestamp()] for an aware [datetime]. *)
Definition timestamp (t : Z) : float := true_divide t microseconds_per_second.

(** *** Validation of the claims

    After the signature, the library reads the clock once and examines the
    registered claims in this order: [iat], [nbf], [exp], [aud], [sub],
    [jti] (PyJWT 2.10; no issuer, audience or subject is asked for here, and
    no claim is required).  A time claim goes through [int]; what [int] makes
    of text is not modelled. *)

Inductive check : Type :=
| Pass
| Fail (e : exc_class)
| NotModelled.

Definition and_then (a b : check) : check :=
  match a with
  | Pass => b
  | _ => a
  end.

(** [int(v)], and then [k] on the integer. *)
Definition with_int (v : value) (k : Z → check) : check :=
  match v with
  | VInt z => k z
  | VNone => Fail TypeError
  | _ => NotModelled
  end.

(** [not v] is false. *)
Definition value_truthy (v : value) : bool :=
  match v with
  | VNone => false
  | VStr s => negb (bool_decide (s = ""))
  | VInt z => negb (bool_decide (z = 0))
  | _ => true
  end.

Definition validate_iat (payload : doc) (now : float) : check :=
  match payload !! "iat" with
  | None => Pass
  | Some v =>
      with_int v (λ iat, if int_le_float iat now then Pass
                         else Fail ImmatureSignatureError)
  end.

Definition validate_nbf (payload : doc) (now : float) : check :=
  match payload !! "nbf" with
  | None => Pass
  | Some v =>
      with_int v (λ nbf, if int_le_float nbf now then Pass
                         else Fail ImmatureSignatureError)
  end.

(** [exp <= now] is expired. *)
Definition validate_exp (payload : doc) (now : float) : check :=
  match payload !! "exp" with
  | None => Pass
  | Some v =>
      with_int v (λ exp, if int_le_float exp now
                         then Fail ExpiredSignatureError else Pass)
  end.

(** No audience is given to [decode]: a token that names one is refused. *)
Definition validate_aud (payload : doc) : check :=
  match payload !! "aud" with
  | None => Pass
  | Some v => if value_truthy v then Fail InvalidAudienceError else Pass
  end.

Definition validate_sub (payload : doc) : check :=
  match payload !! "sub" with
  | None => Pass
  | Some v => if is_str v then Pass else Fail InvalidSubjectError
  end.

Definition validate_jti (payload : doc) : check :=
  match payload !! "jti" with
  | None => Pass
  | Some v => if is_str v then Pass else Fail InvalidJTIError
  end.

Definition validate_claims (payload : doc) (now : float) : check :=
  and_then (validate_iat payload now)
    (and_then (validate_nbf payload now)
       (and_then (validate_exp payload now)
          (and_then (validate_aud payload)
             (and_then (validate_sub payload) (validate_jti payload))))).

(** [jwt.decode(token, key, algorithms=...)], as PyJWT 2 does it: format, then
    algorithm, then signature, then the claims of the payload against a fresh
    reading of the clock. *)
Definition jwt_decode (tok : token) (key : string) (algorithms : list string)
  : M (doc + exc_class) :=
  match tok with
  | Malformed _ => ret (inr DecodeError)
  | Signed alg claims k =>
      if negb (bool_decide (alg ∈ algorithms)) then
        ret (inr InvalidAlgorithmError)
      else if negb (bool_decide (k = key)) then
        ret (inr InvalidSignatureError)
      else
        let* t := now in
        match validate_claims claims (timestamp t) with
        | Pass => ret (inl claims)
        | Fail e => ret (inr e)
        | NotModelled => out_of_model
        end
  end.

Definition create_access_token (data : doc) : M token :=
  let to_encode := data in
  let* t := now in
  let expire :=
    t + ACCESS_TOKEN_EXPIRE_MINUTES * 60 * microseconds_per_second in
  let to_encode := <["exp" := VDatetime expire]> to_encode in
  let* key := get_secret in
  ret (jwt_encode to_encode key ALGORITHM).

(** One [except <expr>:] clause: the expression is evaluated when an exception
    reaches the clause, and the clause handles the exception when it is an
    instance of the class found. *)
Definition except_clause {A} (name : string) (e : exc_class)
    (handler otherwise : M A) : M A :=
  match jwt_getattr name with
  | None => raise "AttributeError"
  | Some c => if issubclass e c then handler else otherwise
  end.

Definition decode_token (tok : token) : M doc :=
  let* key := get_secret in
  let* r := jwt_decode tok key [ALGORITHM] in
  match r with
  | inl payload => ret payload
  | inr e =>
      except_clause "ExpiredSignatureError" e
        (raise_http 401 "Token has expired")
        (except_clause "JWTError" e
           (raise_http 401 "Invalid token")
           (raise (class_name e)))
  end.

(** ** Authentication gate *)

(** [x is None] for the result of [dict.get]. *)
Definition is_none (o : option value) : bool :=
  match o with
  | None | Some VNone => true
  | _ => false
  end.

Definition get_current_user (credentials : token) : M doc :=
  let tok := credentials in
  let* payload := decode_token tok in
  let email := payload !! "sub" in
  if is_none email then
    raise_http 401 "Invalid authentication credentials"
  else
    let* user := find_one db_users [Field "email" (CEq (default VNone email))] in
    match user with
    | None => raise_http 401 "User not found"
    | Some user => ret user
    end.

Definition require_admin (credentials : token) : M doc :=
  let* current_user := get_current_user credentials in
  if negb (bool_decide (current_user !! "role" = Some (VStr "admin"))) then
    raise_http 403 "Admin access required"
  else ret current_user.

(** ** Models ([pydantic])

    A model is a record; building one from keyword arguments checks every
    field in declaration order, calls the default factory of a field that is
    not given, and raises [ValidationError] at the end when a field was
    missing or ill-typed.  Only the expected kind of value is accepted here;
    where [pydantic] would try to convert a value of another kind, the
    construction is outside the model. *)

Inductive field (A : Type) : Type :=
| Given (a : A)
| Missing
| Invalid
| Unmodelled.

Arguments Given {A} a.
Arguments Missing {A}.
Arguments Invalid {A}.
Arguments Unmodelled {A}.

Definition str_field (o : option value) : field string :=
  match o with
  | None => Missing
  | Some (VStr s) => Given s
  | Some (VIsoStr _) | Some (VBcrypt _ _) => Unmodelled
  | Some _ => Invalid
  end.

Definition int_field (o : option value) : field Z :=
  match o with
  | None => Missing
  | Some (VInt z) => Given z
  | Some (VStr _) => Unmodelled
  | Some _ => Invalid
  end.

Definition datetime_field (o : option value) : field Z :=
  match o with
  | None => Missing
  | Some (VDatetime t) | Some (VIsoStr t) => Given t
  | Some (VInt _) | Some (VStr _) => Unmodelled
  | Some _ => Invalid
  end.

Definition email_field (o : option value) : M (field string) :=
  match str_field o with
  | Given s =>
      let* r := validate_email s in
      ret match r with
          | Some s' => Given s'
          | None => Invalid
          end
  | f => ret f
  end.

Definition with_default {A} (f : field A) (default_factory : M A)
  : M (field A) :=
  match f with
  | Missing => let* a := default_factory in ret (Given a)
  | _ => ret f
  end.

Definition field_ap {A B} (f : field (A → B)) (a : field A) : field B :=
  match f, a with
  | Given g, Given x => Given (g x)
  | Unmodelled, _ | _, Unmodelled => Unmodelled
  | _, _ => Invalid
  end.

Infix "<*>" := field_ap (at level 61, left associativity).

Definition construct {A} (f : field A) : M A :=
  match f with
  | Given a => ret a
  | Unmodelled => out_of_model
  | _ => raise "ValidationError"
  end.

Module UserRegister.
Record t : Type := mk {
  email : string;
  password : string;
  name : string;
  role : string
}.
End UserRegister.

Module UserLogin.
Record t : Type := mk {
  email : string;
  password : string
}.
End UserLogin.

Module User.
Record t : Type := mk {
  id : string;
  email : string;
  name : string;
  role : string;
  created_at : Z
}.

(** [User] built from the entries of [d] as keyword arguments; extra
    entries are ignored. *)
Definition validate (d : doc) : M t :=
  let* f_id := with_default (str_field (d !! "id")) uuid4 in
  let f_email := str_field (d !! "email") in
  let f_name := str_field (d !! "name") in
  let f_role := str_field (d !! "role") in
  let* f_created_at := with_default (datetime_field (d !! "created_at")) now in
  construct (Given mk <*> f_id <*> f_email <*> f_name <*> f_role
             <*> f_created_at).

Definition model_dump (u : t) : doc :=
  {[ "id" := VStr (id u);
     "email" := VStr (email u);
     "name" := VStr (name u);
     "role" := VStr (role u);
     "created_at" := VDatetime (created_at u) ]}.
End User.

Module Token.
Record t : Type := mk {
  access_token : token;
  token_type : string;
  user : User.t
}.
End Token.

Module Student.
Record t : Type := mk {
  id : string;
  nim : string;
  nama : string;
  email : string;
  program_studi : string;
  angkatan : Z;
  created_at : Z;
  updated_at : Z
}.

(** [Student] built from the entries of [d] as keyword arguments; extra
    entries are ignored. *)
Definition validate (d : doc) : M t :=
  let* f_id := with_default (str_field (d !! "id")) uuid4 in
  let f_nim := str_field (d !! "nim") in
  let f_nama := str_field (d !! "nama") in
  let* f_email := email_field (d !! "email") in
  let f_program_studi := str_field (d !! "program_studi") in
  let f_angkatan := int_field (d !! "angkatan") in
  let* f_created_at := with_default (datetime_field (d !! "created_at")) now in
  let* f_updated_at := with_default (datetime_field (d !! "updated_at")) now in
  construct (Given mk <*> f_id <*> f_nim <*> f_nama <*> f_email
             <*> f_program_studi <*> f_angkatan <*> f_created_at
             <*> f_updated_at).

Definition model_dump (s : t) : doc :=
  {[ "id" := VStr (id s);
     "nim" := VStr (nim s);
     "nama" := VStr (nama s);
     "email" := VStr (email s);
     "program_studi" := VStr (program_studi s);
     "angkatan" := VInt (angkatan s);
     "created_at" := VDatetime (created_at s);
     "updated_at" := VDatetime (updated_at s) ]}.
End Student.

Module StudentCreate.
Record t : Type := mk {
  nim : string;
  nama : string;
  email : string;
  program_studi : string;
  angkatan : Z
}.

Definition model_dump (s : t) : doc :=
  {[ "nim" := VStr (nim s);
     "nama" := VStr (nama s);
     "email" := VStr (email s);
     "program_studi" := VStr (program_studi s);
     "angkatan" := VInt (angkatan s) ]}.
End StudentCreate.

Module StudentUpdate.
Record t : Type := mk {
  nim : option string;
  nama : option string;
  email : option string;
  program_studi : option string;
  angkatan : option Z
}.

Definition dump {A} (f : A → value) (o : option A) : value :=
  match o with
  | None => VNone
  | Some a => f a
  end.

Definition model_dump (s : t) : doc :=
  {[ "nim" := dump VStr (nim s);
     "nama" := dump VStr (nama s);
     "email" := dump VStr (email s);
     "program_studi" := dump VStr (program_studi s);
     "angkatan" := dump VInt (angkatan s) ]}.
End StudentUpdate.

(** ** Small pieces of Python the handlers use *)

(** [d[k]] *)
Definition getitem (d : doc) (k : string) : M value :=
  match d !! k with
  | Some v => ret v
  | None => raise "KeyError"
  end.

(** [v.isoformat()] *)
Definition isoformat (v : value) : M value :=
  match v with
  | VDatetime t => ret (VIsoStr t)
  | _ => raise "AttributeError"
  end.

(** [datetime.fromisoformat(v)] for a [v] that is a [str].  Plain text is not
    parsed by this model. *)
Definition fromisoformat (v : value) : M value :=
  match v with
  | VIsoStr t => ret (VDatetime t)
  | VStr _ => out_of_model
  | _ => raise "ValueError"
  end.

(** [if isinstance(d[k], str): d[k] = datetime.fromisoformat(d[k])] *)
Definition parse_datetime_at (k : string) (d : doc) : M doc :=
  let* v := getitem d k in
  if is_str v then
    let* t := fromisoformat v in
    ret (<[k := t]> d)
  else ret d.

Fixpoint mapM {A B} (f : A → M B) (l : list A) : M (list B) :=
  match l with
  | [] => ret []
  | a :: rest =>
      let* b := f a in
      let* bs := mapM f rest in
      ret (b :: bs)
  end.

(** The request body as the framework deals with it.  The framework first
    reads the body: bytes sent as JSON that are no JSON document are answered
    with 422 ([Unparseable]), and any other error while reading them with
    400 ([Unreadable]), both before a dependency runs.  A body that was
    read then either validates against the model of the route ([Valid]) or
    does not ([Rejected]); dependencies ([Depends(...)]) are resolved before
    a body that failed validation is reported.  So a handler reads its body,
    then resolves its dependencies, then asks for the validated body. *)
Inductive body (A : Type) : Type :=
| Valid (a : A)
| Rejected
| Unparseable
| Unreadable.

Arguments Valid {A} a.
Arguments Rejected {A}.
Arguments Unparseable {A}.
Arguments Unreadable {A}.

Definition read_body {A} (b : body A) : M unit :=
  match b with
  | Unparseable => raise_http 422 "Unprocessable Entity"
  | Unreadable => raise_http 400 "There was an error parsing the body"
  | _ => ret ()
  end.

Definition validated {A} (b : body A) : M A :=
  match b with
  | Valid a => ret a
  | _ => raise_http 422 "Unprocessable Entity"
  end.

(** ** Auth routes *)

Definition register (user_data : UserRegister.t) : M User.t :=
  let* existing_user :=
    find_one db_users
      [Field "email" (CEq (VStr (UserRegister.email user_data)))] in
  if truthy existing_user then
    raise_http 400 "Email already registered"
  else
    let* user_obj :=
      User.validate
        {[ "email" := VStr (UserRegister.email user_data);
           "name" := VStr (UserRegister.name user_data);
           "role" := VStr (UserRegister.role user_data) ]} in
    let user_dict := User.model_dump user_obj in
    let* h := get_password_hash (UserRegister.password user_data) in
    let user_dict := <["password_hash" := h]> user_dict in
    let* created := getitem user_dict "created_at" in
    let* iso := isoformat created in
    let user_dict := <["created_at" := iso]> user_dict in
    insert_one db_users user_dict;;
    ret user_obj.

(** [{k: v for k, v in d.items() if k != "password_hash"}] *)
Definition without_password_hash (d : doc) : doc :=
  filter (λ kv, kv.1 ≠ "password_hash") d.

Definition login (user_data : UserLogin.t) : M Token.t :=
  let* user :=
    find_one db_users
      [Field "email" (CEq (VStr (UserLogin.email user_data)))] in
  if negb (truthy user) then
    raise_http 401 "Invalid email or password"
  else
    let user := default ∅ user in
    let* hashed := getitem user "password_hash" in
    let* ok := verify_password (UserLogin.password user_data) hashed in
    if negb ok then
      raise_http 401 "Invalid email or password"
    else
      let* sub := getitem user "email" in
      let* access_token := create_access_token {[ "sub" := sub ]} in
      let* user := parse_datetime_at "created_at" user in
      let* user_obj := User.validate (without_password_hash user) in
      ret (Token.mk access_token "bearer" user_obj).

Definition get_me (credentials : token) : M User.t :=
  let* current_user := get_current_user credentials in
  let* current_user := parse_datetime_at "created_at" current_user in
  User.validate (without_password_hash current_user).

(** ** Student routes *)

Definition create_student (student_data : body StudentCreate.t)
    (credentials : token) : M Student.t :=
  read_body student_data;;
  let* current_user := require_admin credentials in
  let* student_data := validated student_data in
  let* existing :=
    find_one db_students
      [Field "nim" (CEq (VStr (StudentCreate.nim student_data)))] in
  if truthy existing then
    raise_http 400 "NIM already exists"
  else
    let* student_obj :=
      Student.validate (StudentCreate.model_dump student_data) in
    let student_dict := Student.model_dump student_obj in
    let* created := getitem student_dict "created_at" in
    let* iso := isoformat created in
    let student_dict := <["created_at" := iso]> student_dict in
    let* updated := getitem student_dict "updated_at" in
    let* iso := isoformat updated in
    let student_dict := <["updated_at" := iso]> student_dict in
    insert_one db_students student_dict;;
    ret student_obj.

(** Truth value of an optional text or number: [None], the empty text and
    zero are falsy. *)
Definition nonempty (o : option string) : option string :=
  match o with
  | Some s => if bool_decide (s = "") then None else Some s
  | None => None
  end.

Definition nonzero (o : option Z) : option Z :=
  match o with
  | Some z => if bool_decide (z = 0) then None else Some z
  | None => None
  end.

Definition students_query (search program_studi : option string)
    (angkatan : option Z) : mongo_query :=
  let query : mongo_query := [] in
  let query :=
    match nonempty search with
    | Some search =>
        (query ++ [OrClause [("nama", CRegex search "i");
                             ("nim", CRegex search "i");
                             ("email", CRegex search "i")]])%list
    | None => query
    end in
  let query :=
    match nonempty program_studi with
    | Some program_studi =>
        (query ++ [Field "program_studi" (CRegex program_studi "i")])%list
    | None => query
    end in
  let query :=
    match nonzero angkatan with
    | Some angkatan =>
        (query ++ [Field "angkatan" (CEq (VInt angkatan))])%list
    | None => query
    end in
  query.

Definition parse_timestamps (student : doc) : M doc :=
  let* student := parse_datetime_at "created_at" student in
  parse_datetime_at "updated_at" student.

Definition get_students (search program_studi : option string)
    (angkatan : option Z) (credentials : token) : M (list doc) :=
  let* current_user := get_current_user credentials in
  let query := students_query search program_studi angkatan in
  let* students := find_to_list db_students query 1000 in
  mapM parse_timestamps students.

(** The route declares [response_model=List[Student]]: what the handler
    returns is validated into that shape before it is sent. *)
Definition get_students_response (search program_studi : option string)
    (angkatan : option Z) (credentials : token) : M (list Student.t) :=
  let* students := get_students search program_studi angkatan credentials in
  mapM Student.validate students.

Definition get_student (student_id : string) (credentials : token)
  : M Student.t :=
  let* current_user := get_current_user credentials in
  let* student :=
    find_one db_students [Field "id" (CEq (VStr student_id))] in
  if negb (truthy student) then
    raise_http 404 "Student not found"
  else
    let* student := parse_timestamps (default ∅ student) in
    Student.validate student.

(** [{k: v for k, v in student_data.model_dump().items() if v is not None}] *)
Definition provided (student_data : StudentUpdate.t) : doc :=
  filter (λ kv, kv.2 ≠ VNone) (StudentUpdate.model_dump student_data).

Definition update_student (student_id : string)
    (student_data : body StudentUpdate.t) (credentials : token)
  : M Student.t :=
  read_body student_data;;
  let* current_user := require_admin credentials in
  let* student_data := validated student_data in
  let* student :=
    find_one db_students [Field "id" (CEq (VStr student_id))] in
  if negb (truthy student) then
    raise_http 404 "Student not found"
  else
    let update_data := provided student_data in
    (if bool_decide (update_data ≠ ∅) then
       let* t := now in
       let* iso := isoformat (VDatetime t) in
       let update_data := <["updated_at" := iso]> update_data in
       update_one db_students [Field "id" (CEq (VStr student_id))] update_data
     else ret ());;
    let* updated_student :=
      find_one db_students [Field "id" (CEq (VStr student_id))] in
    match updated_student with
    | None => raise "TypeError"
    | Some updated_student =>
        let* updated_student := parse_timestamps updated_student in
        Student.validate updated_student
    end.

Definition delete_student (student_id : string) (credentials : token)
  : M string :=
  let* current_user := require_admin credentials in
  let* deleted_count :=
    delete_one db_students [Field "id" (CEq (VStr student_id))] in
  if bool_decide (deleted_count = 0) then
    raise_http 404 "Student not found"
  else ret "Student deleted successfully".

(** * Properties *)

(** ** The store on equality queries *)

Abbreviation has_field k v := (λ d : doc, d !! k = Some v).

Section store_facts.
Context (k : string) (v : value) (Hv : v ≠ VNone).
Context (Hb : bson_value v = true).

#[local] Abbreviation P := (has_field k v).

Lemma matches_eq d :
  matches [Field k (CEq v)] d = Some (bool_decide (P d)).
Proof using Hv Hb.
  unfold matches; simpl.
  destruct v; try done; simpl; by rewrite andb_true_r.
Qed.

Lemma supported_eq : supported [Field k (CEq v)] = true.
Proof. done. Qed.

Lemma select_eq l :
  select [Field k (CEq v)] l = Some (filter P l).
Proof using Hv Hb.
  induction l as [|d l IH]; [done|].
  cbn [select]. rewrite matches_eq, IH, filter_cons.
  by case_bool_decide; case_decide.
Qed.

Lemma head_filter_find l :
  head (filter P l) = snd <$> list_find P l.
Proof.
  induction l as [|d l IH]; [done|].
  rewrite filter_cons. cbn [list_find]. case_decide; [done|].
  rewrite IH. by destruct (list_find P l) as [[??]|].
Qed.

Lemma bson_query_eq : bson_query [Field k (CEq v)] = true.
Proof using Hb. cbn. by rewrite Hb. Qed.

Lemma find_one_eq c w :
  find_one c [Field k (CEq v)] w
  = (Ok (snd <$> list_find P (read c w)), w).
Proof using Hv Hb.
  unfold find_one. rewrite bson_query_eq. unfold bind, encode, ret.
  rewrite supported_eq, select_eq.
  by rewrite head_filter_find.
Qed.

Lemma update_first_eq upd l :
  update_first [Field k (CEq v)] upd l
  = match list_find P l with
    | Some (i, d) =>
        if fits (apply_set upd d) then Some (<[i := apply_set upd d]> l)
        else None
    | None => Some l
    end.
Proof using Hv Hb.
  induction l as [|d l IH]; [done|].
  cbn [update_first list_find]. rewrite matches_eq.
  case_bool_decide; case_decide; try done.
  rewrite IH. destruct (list_find P l) as [[??]|]; [|done].
  cbn. by destruct (fits _).
Qed.

Lemma delete_first_eq l :
  delete_first [Field k (CEq v)] l
  = Some match list_find P l with
         | Some (i, _) => (delete i l, 1)
         | None => (l, 0)
         end.
Proof using Hv Hb.
  induction l as [|d l IH]; [done|].
  cbn [delete_first list_find]. rewrite matches_eq.
  case_bool_decide; case_decide; try done.
  rewrite IH. by destruct (list_find P l) as [[??]|].
Qed.

Lemma delete_one_eq c w :
  delete_one c [Field k (CEq v)] w
  = match list_find P (read c w) with
    | Some (i, _) => (Ok 1, write c (delete i (read c w)) w)
    | None => (Ok 0, write c (read c w) w)
    end.
Proof using Hv Hb.
  unfold delete_one. rewrite bson_query_eq. unfold bind, encode, ret.
  rewrite supported_eq, delete_first_eq.
  by destruct (list_find P (read c w)) as [[??]|].
Qed.

Lemma update_one_eq c upd w :
  bson_doc upd = true →
  update_one c [Field k (CEq v)] upd w
  = match list_find P (read c w) with
    | Some (i, d) =>
        if fits (apply_set upd d)
        then (Ok (), write c (<[i := apply_set upd d]> (read c w)) w)
        else (OutOfModel, w)
    | None => (Ok (), write c (read c w) w)
    end.
Proof using Hv Hb.
  intros Hu. unfold update_one. rewrite bson_query_eq, Hu.
  unfold bind, encode, ret. cbn [andb].
  rewrite supported_eq, update_first_eq.
  destruct (list_find P (read c w)) as [[??]|]; [|done].
  by destruct (fits _).
Qed.

Lemma update_one_overflow c upd w :
  bson_doc upd = false →
  update_one c [Field k (CEq v)] upd w = (Raised "OverflowError", w).
Proof using Hb.
  intros Hu. unfold update_one. rewrite bson_query_eq, Hu. reflexivity.
Qed.

(** A document selected by an equality query has the queried field, so it
    is not the empty dict. *)
Lemma found_truthy l :
  truthy (snd <$> list_find P l) = bool_decide (is_Some (list_find P l)).
Proof.
  destruct (list_find P l) as [[i d]|] eqn:E; [|done].
  apply list_find_Some in E as (_ & Hd & _).
  transitivity true; [|done].
  apply bool_decide_eq_true_2.
  simpl. intros E. rewrite E in Hd. by rewrite lookup_empty in Hd.
Qed.
End store_facts.

(** ** The handler monad *)

Lemma bind_ok {A B} (m : M A) (k : A → M B) w a w' :
  m w = (Ok a, w') → bind m k w = k a w'.
Proof. unfold bind. by intros ->. Qed.

Lemma bind_http {A B} (m : M A) (k : A → M B) w c d w' :
  m w = (HTTPException c d, w') → bind m k w = (HTTPException c d, w').
Proof. unfold bind. by intros ->. Qed.

Lemma bind_raised {A B} (m : M A) (k : A → M B) w e w' :
  m w = (Raised e, w') → bind m k w = (Raised e, w').
Proof. unfold bind. by intros ->. Qed.

(** The world after one reading of the clock. *)
Definition tick (w : World) : World := (now w).2.

Lemma now_eq w : now w = (Ok (clock w (ticks w)), tick w).
Proof. done. Qed.

(** ** Floats: the timestamp a time claim is compared with *)

Lemma round_half_even_bounds n d :
  0 < d → n `div` d ≤ round_half_even n d ≤ n `div` d + 1.
Proof.
  intros Hd. unfold round_half_even.
  repeat case_match; lia.
Qed.

Lemma round_half_even_ge n d c :
  0 < d → c * d ≤ n → c ≤ round_half_even n d.
Proof.
  intros Hd Hc. pose proof (round_half_even_bounds n d Hd).
  assert (c ≤ n `div` d); [|lia].
  apply Z.div_le_lower_bound; lia.
Qed.

Lemma round_half_even_le n d c :
  0 < d → n ≤ c * d → round_half_even n d ≤ c.
Proof.
  intros Hd Hc. unfold round_half_even.
  pose proof (Z.div_mod n d ltac:(lia)) as E.
  pose proof (Z.mod_pos_bound n d Hd) as Hr.
  assert (n `div` d ≤ c) as Hq.
  { apply Z.div_le_upper_bound; lia. }
  destruct (decide (n `div` d = c)) as [Heq|Hne].
  - assert (n `mod` d = 0) as -> by nia.
    destruct (Z.ltb_spec (2 * 0) d); lia.
  - repeat case_match; lia.
Qed.

Lemma binade_lt n d m :
  0 < n → 0 < d → 0 ≤ m → n < d * 2 ^ m → binade n d < m.
Proof.
  intros Hn Hd Hm Hlt. unfold binade.
  pose proof (Z.log2_spec n Hn) as [Hn1 Hn2].
  pose proof (Z.log2_spec d Hd) as [Hd1 Hd2].
  pose proof (Z.log2_nonneg n). pose proof (Z.log2_nonneg d).
  assert (Z.log2 n - Z.log2 d ≤ m) as Hk.
  { destruct (Z_le_gt_dec (Z.log2 n - Z.log2 d) m) as [|Hgt]; [assumption|].
    exfalso.
    assert (2 ^ (Z.succ (Z.log2 d) + m) ≤ 2 ^ Z.log2 n) as Hp.
    { apply Z.pow_le_mono_r; lia. }
    rewrite Z.pow_add_r in Hp by lia.
    assert (0 < 2 ^ m) by (apply Z.pow_pos_nonneg; lia).
    nia. }
  destruct (Z.leb_spec 0 (Z.log2 n - Z.log2 d)) as [Hs|Hs].
  - destruct (Z.leb_spec (d * 2 ^ (Z.log2 n - Z.log2 d)) n) as [Ht|Ht];
      [|lia].
    destruct (decide (Z.log2 n - Z.log2 d = m)) as [E|E]; [|lia].
    rewrite E in Ht. lia.
  - case_match; lia.
Qed.

(** Within the range of [datetime] a timestamp has a negative exponent: the
    floats around it are finer than the integers. *)
Lemma timestamp_exponent t :
  datetime_min ≤ t ≤ datetime_max → t ≠ 0 →
  timestamp t
  = mkFloat (round_half_even
               (t * 2 ^ (52 - binade (Z.abs t) microseconds_per_second))
               microseconds_per_second)
            (binade (Z.abs t) microseconds_per_second - 52) ∧
  binade (Z.abs t) microseconds_per_second - 52 < 0.
Proof.
  intros Ht H0.
  assert (binade (Z.abs t) microseconds_per_second < 52) as Hb.
  { apply binade_lt; [lia|reflexivity|lia|].
    unfold datetime_min, datetime_max, microseconds_per_second in *. lia. }
  split; [|lia]. unfold timestamp, true_divide.
  destruct (Z.eqb_spec t 0) as [|_]; [contradiction|].
  destruct (Z.leb_spec 0 (binade (Z.abs t) microseconds_per_second - 52));
    [lia|].
  replace (- (binade (Z.abs t) microseconds_per_second - 52))
    with (52 - binade (Z.abs t) microseconds_per_second) by lia.
  reflexivity.
Qed.

(** An integer number of seconds that the instant has reached is below or
    at its timestamp, and one that is a second or more ahead is above it:
    rounding never crosses a whole second. *)
Lemma int_le_timestamp_reached k t :
  datetime_min ≤ t ≤ datetime_max →
  k * microseconds_per_second ≤ t →
  int_le_float k (timestamp t) = true.
Proof.
  intros Ht Hk. destruct (decide (t = 0)) as [->|H0].
  { apply Z.leb_le. unfold microseconds_per_second in Hk. cbn. lia. }
  destruct (timestamp_exponent t Ht H0) as [-> He].
  unfold int_le_float. cbn [exponent mantissa].
  destruct (Z.leb_spec 0 (binade (Z.abs t) microseconds_per_second - 52));
    [lia|].
  apply Z.leb_le. apply round_half_even_ge; [reflexivity|].
  replace (- (binade (Z.abs t) microseconds_per_second - 52))
    with (52 - binade (Z.abs t) microseconds_per_second) by lia.
  assert (0 < 2 ^ (52 - binade (Z.abs t) microseconds_per_second))
    by (apply Z.pow_pos_nonneg; lia).
  nia.
Qed.

Lemma int_le_timestamp_ahead k t :
  datetime_min ≤ t ≤ datetime_max →
  t ≤ (k - 1) * microseconds_per_second →
  int_le_float k (timestamp t) = false.
Proof.
  intros Ht Hk. destruct (decide (t = 0)) as [->|H0].
  { apply Z.leb_gt. unfold microseconds_per_second in Hk. cbn. lia. }
  destruct (timestamp_exponent t Ht H0) as [-> He].
  unfold int_le_float. cbn [exponent mantissa].
  destruct (Z.leb_spec 0 (binade (Z.abs t) microseconds_per_second - 52));
    [lia|].
  apply Z.leb_gt.
  replace (- (binade (Z.abs t) microseconds_per_second - 52))
    with (52 - binade (Z.abs t) microseconds_per_second) by lia.
  assert (0 < 2 ^ (52 - binade (Z.abs t) microseconds_per_second)) as HN
    by (apply Z.pow_pos_nonneg; lia).
  pose proof (round_half_even_le
    (t * 2 ^ (52 - binade (Z.abs t) microseconds_per_second))
    microseconds_per_second
    ((k - 1) * 2 ^ (52 - binade (Z.abs t) microseconds_per_second))
    eq_refl) as Hr.
  assert (t * 2 ^ (52 - binade (Z.abs t) microseconds_per_second)
          ≤ (k - 1) * 2 ^ (52 - binade (Z.abs t) microseconds_per_second)
            * microseconds_per_second) as Hle by nia.
  specialize (Hr Hle). nia.
Qed.

Lemma clock_in_range w n : datetime_min ≤ clock w n ≤ datetime_max.
Proof.
  pose proof (clock_range w n) as H.
  unfold ACCESS_TOKEN_EXPIRE_MINUTES, microseconds_per_second in H. lia.
Qed.

(** ** Credential service *)

(** Claims that carry nothing the library examines besides an expiry: no
    [iat], [nbf], [aud] or [jti], and a subject, if there is one, that is
    text.  The tokens that [login] issues are of this kind. *)
Definition plain_claims (claims : doc) : Prop :=
  claims !! "iat" = None ∧ claims !! "nbf" = None ∧
  claims !! "aud" = None ∧ claims !! "jti" = None ∧
  ∀ v, claims !! "sub" = Some v → is_str v = true.

Lemma validate_claims_plain claims exp now :
  plain_claims claims →
  claims !! "exp" = Some (VInt exp) →
  validate_claims claims now
  = if int_le_float exp now then Fail ExpiredSignatureError else Pass.
Proof.
  intros (Hi & Hn & Ha & Hj & Hs) He.
  unfold validate_claims, validate_iat, validate_nbf, validate_exp,
    validate_aud, validate_sub, validate_jti.
  rewrite Hi, Hn, Ha, Hj, He. cbn [and_then with_int].
  destruct (int_le_float exp now); [reflexivity|]. cbn [and_then].
  destruct (claims !! "sub") as [v|]; [|reflexivity].
  by rewrite (Hs v eq_refl).
Qed.

(** A token under the server's algorithm and key passes the checks of
    format, algorithm and signature; the clock is read once, and the claims
    decide. *)
Lemma jwt_decode_signed claims w :
  jwt_decode (Signed ALGORITHM claims (SECRET_KEY w)) (SECRET_KEY w)
    [ALGORITHM] w
  = match validate_claims claims (timestamp (clock w (ticks w))) with
    | Pass => (Ok (inl claims), tick w)
    | Fail e => (Ok (inr e), tick w)
    | NotModelled => (OutOfModel, tick w)
    end.
Proof.
  unfold jwt_decode.
  rewrite bool_decide_eq_true_2 by set_solver.
  rewrite bool_decide_eq_true_2 by reflexivity. cbn [negb].
  rewrite (bind_ok _ _ _ _ _ (now_eq w)).
  by destruct (validate_claims _ _).
Qed.

Lemma decode_token_fresh claims w exp :
  plain_claims claims →
  claims !! "exp" = Some (VInt exp) →
  clock w (ticks w) ≤ (exp - 1) * microseconds_per_second →
  decode_token (Signed ALGORITHM claims (SECRET_KEY w)) w
  = (Ok claims, tick w).
Proof.
  intros Hp Hexp Hlt. unfold decode_token.
  rewrite (bind_ok get_secret _ w (SECRET_KEY w) w eq_refl). cbv beta.
  unfold bind at 1. rewrite jwt_decode_signed.
  rewrite (validate_claims_plain _ _ _ Hp Hexp).
  by rewrite (int_le_timestamp_ahead _ _ (clock_in_range w _) Hlt).
Qed.

Lemma decode_token_stale claims w exp :
  plain_claims claims →
  claims !! "exp" = Some (VInt exp) →
  exp * microseconds_per_second ≤ clock w (ticks w) →
  decode_token (Signed ALGORITHM claims (SECRET_KEY w)) w
  = (HTTPException 401 "Token has expired", tick w).
Proof.
  intros Hp Hexp Hle. unfold decode_token.
  rewrite (bind_ok get_secret _ w (SECRET_KEY w) w eq_refl). cbv beta.
  unfold bind at 1. rewrite jwt_decode_signed.
  rewrite (validate_claims_plain _ _ _ Hp Hexp).
  by rewrite (int_le_timestamp_reached _ _ (clock_in_range w _) Hle).
Qed.

Lemma timegm_bounds t :
  t - 999999 ≤ timegm t * microseconds_per_second ≤ t.
Proof.
  unfold timegm, microseconds_per_second.
  pose proof (Z.mod_pos_bound t 1000000 eq_refl).
  pose proof (Z.div_mod t 1000000). lia.
Qed.

(** What [create_access_token] issues: the given claims, with [exp] set to
    whole seconds, 24 hours after the reading of the clock. *)
Definition issued_exp (t : Z) : Z :=
  timegm (t + ACCESS_TOKEN_EXPIRE_MINUTES * 60 * microseconds_per_second).

Lemma create_access_token_exp data w :
  ∃ claims,
    create_access_token data w
    = (Ok (Signed ALGORITHM claims (SECRET_KEY w)), tick w) ∧
    claims !! "exp" = Some (VInt (issued_exp (clock w (ticks w)))) ∧
    claims !! "sub" = data !! "sub".
Proof.
  eexists. split.
  { unfold create_access_token, jwt_encode, bind, get_secret, ret, now, tick.
    reflexivity. }
  unfold issued_exp. split.
  - rewrite !lookup_alter_ne by done.
    rewrite lookup_alter_eq, lookup_insert_eq. done.
  - rewrite !lookup_alter_ne by done. by rewrite lookup_insert_ne.
Qed.

(** The token [login] issues for an e-mail address at instant [t]. *)
Definition issued_token (key email : string) (t : Z) : token :=
  Signed ALGORITHM {[ "sub" := VStr email; "exp" := VInt (issued_exp t) ]}
         key.

Lemma create_access_token_sub email w :
  create_access_token {[ "sub" := VStr email ]} w
  = (Ok (issued_token (SECRET_KEY w) email (clock w (ticks w))), tick w).
Proof. reflexivity. Qed.

Lemma issued_claims_plain email exp :
  plain_claims {[ "sub" := VStr email; "exp" := VInt exp ]}.
Proof.
  split_and!; try reflexivity.
  intros v. rewrite lookup_insert_eq. by intros [= <-].
Qed.

(** A token issued for a login at [T] is accepted one second later, and is
    rejected as expired at any reading of the clock after [T] plus 24
    hours. *)
Lemma issued_token_lifetime email w tok w1 w2 :
  create_access_token {[ "sub" := VStr email ]} w = (Ok tok, w1) →
  SECRET_KEY w2 = SECRET_KEY w →
  let T := clock w (ticks w) in
  let t := clock w2 (ticks w2) in
  (t = T + 1 * microseconds_per_second →
   ∃ claims, decode_token tok w2 = (Ok claims, tick w2) ∧
             claims !! "sub" = Some (VStr email)) ∧
  (T + 24 * 60 * 60 * microseconds_per_second < t →
   decode_token tok w2 = (HTTPException 401 "Token has expired", tick w2)).
Proof.
  intros Hc Hk T t. subst T t.
  rewrite create_access_token_sub in Hc. injection Hc as <- <-.
  unfold issued_token. rewrite <- Hk.
  pose proof (timegm_bounds
    (clock w (ticks w)
     + ACCESS_TOKEN_EXPIRE_MINUTES * 60 * microseconds_per_second)) as Hb.
  fold (issued_exp (clock w (ticks w))) in Hb.
  unfold ACCESS_TOKEN_EXPIRE_MINUTES, microseconds_per_second in Hb.
  split; intros Ht.
  - exists {[ "sub" := VStr email;
              "exp" := VInt (issued_exp (clock w (ticks w))) ]}.
    split; [|reflexivity].
    apply (decode_token_fresh _ _ _ (issued_claims_plain _ _) eq_refl).
    unfold microseconds_per_second in *. lia.
  - apply (decode_token_stale _ _ _ (issued_claims_plain _ _) eq_refl).
    unfold microseconds_per_second in *. lia.
Qed.

(** ** Sample data *)

Definition sample_admin : doc :=
  {[ "id" := VStr "u-1";
     "email" := VStr "root@campus.id";
     "name" := VStr "Root";
     "role" := VStr "admin";
     "created_at" := VIsoStr 1690000000000000;
     "password_hash" := VBcrypt "salt-1" "hunter2" ]}.

Definition sample_staff : doc :=
  {[ "id" := VStr "u-2";
     "email" := VStr "staff@campus.id";
     "name" := VStr "Staff";
     "role" := VStr "user";
     "created_at" := VIsoStr 1690000000000001;
     "password_hash" := VBcrypt "salt-2" "letmein" ]}.

Definition sample_alice : doc :=
  {[ "id" := VStr "s-1";
     "nim" := VStr "A1";
     "nama" := VStr "Alice";
     "email" := VStr "alice@campus.id";
     "program_studi" := VStr "Informatika";
     "angkatan" := VInt 2021;
     "created_at" := VIsoStr 1695000000000000;
     "updated_at" := VIsoStr 1695000000000000 ]}.

Definition sample_bob : doc :=
  {[ "id" := VStr "s-2";
     "nim" := VStr "B2";
     "nama" := VStr "Bob";
     "email" := VStr "bob@campus.id";
     "program_studi" := VStr "Fisika";
     "angkatan" := VInt 2020;
     "created_at" := VIsoStr 1696000000000000;
     "updated_at" := VIsoStr 1696000000000000 ]}.

Definition sample_name (prefix : string) (n : nat) : string :=
  prefix ++ String (ascii_of_nat (97 + n)) "".

(** A clock that starts at [start] and advances by a microsecond per
    reading, for its first thousand readings. *)
Definition sample_clock (start : Z) (n : nat) : Z :=
  start + Z.of_nat (n `min` 1000).

Lemma sample_clock_range start :
  1600000000000000 ≤ start ≤ 1800000000000000 →
  ∀ n, datetime_min ≤ sample_clock start n
       ≤ datetime_max
         - ACCESS_TOKEN_EXPIRE_MINUTES * 60 * microseconds_per_second.
Proof.
  intros Hs n. unfold sample_clock, datetime_min, datetime_max,
    ACCESS_TOKEN_EXPIRE_MINUTES, microseconds_per_second. lia.
Qed.

Lemma sample_start : 1600000000000000 ≤ 1700000000000000 ≤ 1800000000000000.
Proof. lia. Qed.

Definition sample_world : World :=
  mkWorld [sample_admin; sample_staff] [sample_alice; sample_bob]
          (sample_clock 1700000000000000)
          (sample_clock_range 1700000000000000 sample_start) 0
          (sample_name "id-") 0 (sample_name "salt-") 0
          "secret" Some.

Definition sample_token (email : string) : token :=
  Signed ALGORITHM {[ "sub" := VStr email; "exp" := VInt 1700003600 ]}
         "secret".

(** ** C2: tokens that fail validation *)

(** C2.  [decode_token] maps an expired token to 401, but a token that fails
    for any other reason (format, algorithm, signature) is not mapped to
    401 [Invalid token]: evaluating the clause [except jwt.JWTError] looks up
    a name the module does not have, so [AttributeError] escapes and the
    request ends as a 500. *)
Theorem decode_token_invalid_escapes tok w e w' :
  jwt_decode tok (SECRET_KEY w) [ALGORITHM] w = (Ok (inr e), w') →
  e ≠ ExpiredSignatureError →
  decode_token tok w = (Raised "AttributeError", w') ∧
  status_of (decode_token tok w).1 = Some 500.
Proof.
  intros Hd He.
  assert (decode_token tok w = (Raised "AttributeError", w')) as ->; [|done].
  unfold decode_token, bind, get_secret. rewrite Hd.
  by destruct e.
Qed.

Lemma decode_token_invalid_escapes_witness :
  decode_token (Malformed "not-a-token") sample_world
  = (Raised "AttributeError", sample_world) ∧
  status_of (decode_token (Malformed "not-a-token") sample_world).1
  = Some 500.
Proof.
  apply (decode_token_invalid_escapes _ _ DecodeError); [reflexivity|done].
Defined.

(** ** C6: the admin gate *)

(** A body that the framework could read, so that it reaches validation. *)
Definition readable {A} (b : body A) : bool :=
  match b with
  | Valid _ | Rejected => true
  | _ => false
  end.

Lemma read_body_readable {A} (b : body A) w :
  readable b = true → read_body b w = (Ok (), w).
Proof. by destruct b. Qed.

Lemma read_body_unreadable {A} (b : body A) w :
  readable b = false →
  ∃ status detail,
    read_body b w = (HTTPException status detail, w) ∧
    (status = 422 ∨ status = 400).
Proof.
  destruct b; try discriminate; intros _; eexists _, _; split;
    try reflexivity; auto.
Qed.

(** C6, as the claim states it, fails: a caller who is no admin and sends a
    body that is no JSON document gets 422, not 403. *)
Lemma non_admin_unparseable_body :
  get_current_user (sample_token "staff@campus.id") sample_world
  = (Ok sample_staff, tick sample_world) ∧
  sample_staff !! "role" ≠ Some (VStr "admin") ∧
  create_student Unparseable (sample_token "staff@campus.id") sample_world
  = (HTTPException 422 "Unprocessable Entity", sample_world) ∧
  update_student "s-1" Unparseable (sample_token "staff@campus.id")
    sample_world
  = (HTTPException 422 "Unprocessable Entity", sample_world).
Proof. split_and!; [reflexivity|discriminate|reflexivity|reflexivity]. Qed.

(** C6, amended.  When the authenticated identity does not have role
    [admin], the three write routes answer 403 whatever the id and whatever
    the body that the framework could read, valid against the model of the
    route or not; a body that it could not read is answered with 422 or 400
    before the gate runs, and nothing changes.  When the identity has the
    role, the gate returns the identity it was given, unchanged. *)
Theorem non_admin_forbidden tok w user w1 :
  get_current_user tok w = (Ok user, w1) →
  (user !! "role" ≠ Some (VStr "admin") →
   (∀ b, readable b = true →
         create_student b tok w
         = (HTTPException 403 "Admin access required", w1)) ∧
   (∀ sid b, readable b = true →
             update_student sid b tok w
             = (HTTPException 403 "Admin access required", w1)) ∧
   (∀ sid, delete_student sid tok w
           = (HTTPException 403 "Admin access required", w1))) ∧
  (∀ sid (b : body StudentCreate.t) (b' : body StudentUpdate.t),
     readable b = false → readable b' = false →
     ∃ status detail status' detail',
       create_student b tok w = (HTTPException status detail, w) ∧
       update_student sid b' tok w = (HTTPException status' detail', w) ∧
       (status = 422 ∨ status = 400) ∧
       (status' = 422 ∨ status' = 400)) ∧
  (user !! "role" = Some (VStr "admin") →
   require_admin tok w = (Ok user, w1)).
Proof.
  intros Hu. split_and!.
  - intros Hr.
    assert (require_admin tok w
            = (HTTPException 403 "Admin access required", w1)) as Hg.
    { unfold require_admin. rewrite (bind_ok _ _ _ _ _ Hu).
      by rewrite bool_decide_eq_false_2. }
    split_and!.
    + intros b Hb. unfold create_student.
      rewrite (bind_ok _ _ _ _ _ (read_body_readable b w Hb)).
      by apply bind_http.
    + intros sid b Hb. unfold update_student.
      rewrite (bind_ok _ _ _ _ _ (read_body_readable b w Hb)).
      by apply bind_http.
    + intros sid. by apply bind_http.
  - intros sid b b' Hb Hb'.
    destruct (read_body_unreadable b w Hb) as (c & d & E & Hc).
    destruct (read_body_unreadable b' w Hb') as (c' & d' & E' & Hc').
    exists c, d, c', d'. split_and!; [| |exact Hc|exact Hc'].
    + exact (bind_http _ _ _ _ _ _ E).
    + exact (bind_http _ _ _ _ _ _ E').
  - intros Hr. unfold require_admin. rewrite (bind_ok _ _ _ _ _ Hu).
    by rewrite bool_decide_eq_true_2.
Qed.

Lemma non_admin_forbidden_witness :
  create_student Rejected (sample_token "staff@campus.id") sample_world
  = (HTTPException 403 "Admin access required", tick sample_world) ∧
  require_admin (sample_token "root@campus.id") sample_world
  = (Ok sample_admin, tick sample_world).
Proof.
  split.
  - refine (proj1 (proj1 (non_admin_forbidden
             (sample_token "staff@campus.id") sample_world
             sample_staff (tick sample_world) eq_refl) _) Rejected eq_refl).
    discriminate.
  - apply (non_admin_forbidden (sample_token "root@campus.id") sample_world
             sample_admin (tick sample_world)); reflexivity.
Defined.

(** ** Well-formed documents

    A stored document is well formed when it has every field of its model,
    each of the expected kind; these partial functions read it. *)

Definition as_str (o : option value) : option string :=
  match o with
  | Some (VStr s) => Some s
  | _ => None
  end.

Definition as_int (o : option value) : option Z :=
  match o with
  | Some (VInt z) => Some z
  | _ => None
  end.

Definition as_instant (o : option value) : option Z :=
  match o with
  | Some (VDatetime t) | Some (VIsoStr t) => Some t
  | _ => None
  end.

Definition student_of (ev : string → option string) (d : doc)
  : option Student.t :=
  i ← as_str (d !! "id");
  n ← as_str (d !! "nim");
  a ← as_str (d !! "nama");
  e ← as_str (d !! "email");
  e' ← ev e;
  p ← as_str (d !! "program_studi");
  y ← as_int (d !! "angkatan");
  c ← as_instant (d !! "created_at");
  u ← as_instant (d !! "updated_at");
  Some (Student.mk i n a e' p y c u).

Definition user_of (d : doc) : option User.t :=
  i ← as_str (d !! "id");
  e ← as_str (d !! "email");
  n ← as_str (d !! "name");
  r ← as_str (d !! "role");
  c ← as_instant (d !! "created_at");
  Some (User.mk i e n r c).

Lemma as_str_field o s : as_str o = Some s → str_field o = Given s.
Proof. destruct o as [[]|]; naive_solver. Qed.

Lemma as_int_field o z : as_int o = Some z → int_field o = Given z.
Proof. destruct o as [[]|]; naive_solver. Qed.

Lemma as_instant_field o t :
  as_instant o = Some t → datetime_field o = Given t.
Proof. destruct o as [[]|]; naive_solver. Qed.

Lemma student_validate_ok w d s :
  student_of (EmailStr w) d = Some s → Student.validate d w = (Ok s, w).
Proof.
  unfold student_of. intros H. simplify_option_eq.
  unfold Student.validate, email_field, bind, validate_email.
  repeat match goal with
         | H : as_str _ = Some _ |- _ => rewrite (as_str_field _ _ H); clear H
         | H : as_int _ = Some _ |- _ => rewrite (as_int_field _ _ H); clear H
         | H : as_instant _ = Some _ |- _ =>
             rewrite (as_instant_field _ _ H); clear H
         end.
  simpl.
  match goal with H : EmailStr _ _ = Some _ |- _ => rewrite H end.
  done.
Qed.

Lemma user_validate_ok w d u :
  user_of d = Some u → User.validate d w = (Ok u, w).
Proof.
  unfold user_of. intros H. simplify_option_eq.
  unfold User.validate, bind.
  repeat match goal with
         | H : as_str _ = Some _ |- _ => rewrite (as_str_field _ _ H); clear H
         | H : as_instant _ = Some _ |- _ =>
             rewrite (as_instant_field _ _ H); clear H
         end.
  done.
Qed.

Lemma parse_datetime_at_ok k d t w :
  as_instant (d !! k) = Some t →
  ∃ d', parse_datetime_at k d w = (Ok d', w) ∧
        as_instant (d' !! k) = Some t ∧
        ∀ k', k' ≠ k → d' !! k' = d !! k'.
Proof.
  intros H. unfold parse_datetime_at, getitem, bind.
  destruct (d !! k) as [[]|] eqn:E; simplify_eq/=.
  - exists d. by rewrite E.
  - eexists. split; [done|]. rewrite lookup_insert_eq. split; [done|].
    intros k' ?. by rewrite lookup_insert_ne.
Qed.

Lemma student_of_Some ev d s :
  student_of ev d = Some s ↔
  ∃ e, as_str (d !! "id") = Some (Student.id s) ∧
       as_str (d !! "nim") = Some (Student.nim s) ∧
       as_str (d !! "nama") = Some (Student.nama s) ∧
       as_str (d !! "email") = Some e ∧
       ev e = Some (Student.email s) ∧
       as_str (d !! "program_studi") = Some (Student.program_studi s) ∧
       as_int (d !! "angkatan") = Some (Student.angkatan s) ∧
       as_instant (d !! "created_at") = Some (Student.created_at s) ∧
       as_instant (d !! "updated_at") = Some (Student.updated_at s).
Proof.
  unfold student_of. split.
  - intros H. simplify_option_eq. eexists. by split_and!.
  - intros (e & -> & -> & -> & -> & He & -> & -> & -> & ->). simpl.
    rewrite He. simpl. by destruct s.
Qed.

Lemma parse_timestamps_ok ev w d s :
  student_of ev d = Some s →
  ∃ d', parse_timestamps d w = (Ok d', w) ∧ student_of ev d' = Some s.
Proof.
  intros (e & Hi & Hn & Ha & He & Hv & Hp & Hy & Hc & Hu)%student_of_Some.
  destruct (parse_datetime_at_ok "created_at" d _ w Hc)
    as (d1 & E1 & Hc1 & Hf1).
  rewrite <- (Hf1 "updated_at") in Hu by done.
  destruct (parse_datetime_at_ok "updated_at" d1 _ w Hu)
    as (d2 & E2 & Hc2 & Hf2).
  exists d2. split.
  { unfold parse_timestamps. by rewrite (bind_ok _ _ _ _ _ E1). }
  apply student_of_Some. exists e.
  rewrite Hc2, !Hf2, Hc1, !Hf1 by done. by split_and!.
Qed.

(** ** The gate leaves the store alone *)

(** Everything of the world but the counters of the clock, of the
    identifiers and of the salts. *)
Definition same_store (w w' : World) : Prop :=
  users w' = users w ∧ students w' = students w ∧
  clock w' = clock w ∧ SECRET_KEY w' = SECRET_KEY w ∧
  EmailStr w' = EmailStr w.

Lemma same_store_refl w : same_store w w.
Proof. done. Qed.

Lemma same_store_tick w : same_store w (tick w).
Proof. done. Qed.

Lemma except_clauses_world e (w : World) (r : result doc) w' :
  except_clause "ExpiredSignatureError" e
    (raise_http 401 "Token has expired")
    (except_clause "JWTError" e (raise_http 401 "Invalid token")
       (raise (class_name e))) w = (r, w') →
  w' = w.
Proof. destruct e; cbv; by intros [= <- <-]. Qed.

Lemma jwt_decode_same_store tok key algs w r w' :
  jwt_decode tok key algs w = (r, w') → same_store w w'.
Proof.
  unfold jwt_decode. destruct tok as [raw|alg claims k].
  { by intros [= _ <-]. }
  repeat case_match; try by intros [= _ <-].
  unfold bind. rewrite now_eq.
  destruct (validate_claims _ _); by intros [= _ <-].
Qed.

Lemma decode_token_same_store tok w r w' :
  decode_token tok w = (r, w') → same_store w w'.
Proof.
  unfold decode_token, bind, get_secret.
  destruct (jwt_decode tok (SECRET_KEY w) [ALGORITHM] w)
    as [[[payload|e]| | |] w1] eqn:E;
    apply jwt_decode_same_store in E;
    try (by intros [= _ <-]).
  by intros ->%except_clauses_world.
Qed.

Ltac outcome :=
  cbv beta delta [raise_http raise ret out_of_model];
  intros ?; simplify_eq; done.

Lemma find_one_world c q w r w' : find_one c q w = (r, w') → w' = w.
Proof.
  unfold find_one, bind, encode.
  destruct (bson_query q); cbn; repeat case_match; by intros [= _ <-].
Qed.

Lemma get_current_user_same_store tok w r w' :
  get_current_user tok w = (r, w') → same_store w w'.
Proof.
  unfold get_current_user, bind.
  destruct (decode_token tok w) as [[payload| | |] w1] eqn:E;
    apply decode_token_same_store in E; try outcome.
  destruct (is_none (payload !! "sub")); [outcome|].
  destruct (find_one _ _ w1) as [[[user|]| | |] w2] eqn:F;
    apply find_one_world in F as ->; outcome.
Qed.

Lemma require_admin_same_store tok w r w' :
  require_admin tok w = (r, w') → same_store w w'.
Proof.
  unfold require_admin, bind.
  destruct (get_current_user tok w) as [[u| | |] w1] eqn:E;
    apply get_current_user_same_store in E; try outcome.
  case_match; outcome.
Qed.

(** ** Partial updates *)

(** The value a partial update gives for a field, as the payload states it:
    a field of the payload that is present gives its value; an absent one,
    and any name that is not a field of the payload, gives nothing. *)
Definition field_update (p : StudentUpdate.t) (k : string) : option value :=
  if decide (k = "nim") then VStr <$> StudentUpdate.nim p
  else if decide (k = "nama") then VStr <$> StudentUpdate.nama p
  else if decide (k = "email") then VStr <$> StudentUpdate.email p
  else if decide (k = "program_studi")
       then VStr <$> StudentUpdate.program_studi p
  else if decide (k = "angkatan") then VInt <$> StudentUpdate.angkatan p
  else None.

Lemma provided_lookup p k : provided p !! k = field_update p k.
Proof.
  unfold provided, field_update, StudentUpdate.model_dump.
  rewrite map_lookup_filter.
  destruct p as [n a e ps y]; simpl.
  repeat (rewrite lookup_insert; case_decide; simplify_eq/=).
  all: rewrite ?lookup_singleton.
  all: repeat case_decide; simplify_eq/=; try done.
  all: repeat match goal with o : option _ |- _ => destruct o end;
       simpl; try done.
Qed.

Lemma provided_empty p :
  provided p = ∅ ↔ ∀ k, field_update p k = None.
Proof.
  rewrite map_empty. by setoid_rewrite provided_lookup.
Qed.

Lemma list_find_replace (P : doc → Prop) `{!∀ d, Decision (P d)}
    (l : list doc) i d d' :
  list_find P l = Some (i, d) → P d' →
  list_find P (<[i := d']> l) = Some (i, d').
Proof.
  intros (Hi & _ & Hlt)%list_find_Some HP.
  apply list_find_insert_Some. right; left.
  split_and!; eauto using lookup_lt_Some.
Qed.

Lemma find_one_hit c k s w i d :
  list_find (has_field k (VStr s)) (read c w) = Some (i, d) →
  find_one c [Field k (CEq (VStr s))] w = (Ok (Some d), w) ∧
  truthy (Some d) = true.
Proof.
  intros H. rewrite find_one_eq by done. rewrite H. split; [done|].
  pose proof (found_truthy k (VStr s) (read c w)) as Ht.
  rewrite H in Ht. exact Ht.
Qed.

Lemma find_one_miss c k s w :
  list_find (has_field k (VStr s)) (read c w) = None →
  find_one c [Field k (CEq (VStr s))] w = (Ok None, w).
Proof. intros H. rewrite find_one_eq by done. by rewrite H. Qed.

(** A payload that the driver can encode: its year, if present, fits the
    8 bytes of a BSON integer. *)
Definition storable (p : StudentUpdate.t) : bool :=
  match StudentUpdate.angkatan p with
  | Some y => int64 y
  | None => true
  end.

Lemma field_update_fields p :
  field_update p "nim" = VStr <$> StudentUpdate.nim p ∧
  field_update p "nama" = VStr <$> StudentUpdate.nama p ∧
  field_update p "email" = VStr <$> StudentUpdate.email p ∧
  field_update p "program_studi" = VStr <$> StudentUpdate.program_studi p ∧
  field_update p "angkatan" = VInt <$> StudentUpdate.angkatan p ∧
  field_update p "id" = None ∧
  field_update p "created_at" = None ∧
  field_update p "updated_at" = None.
Proof. by split_and!. Qed.

Lemma int64_range y : - 2 ^ 63 ≤ y < 2 ^ 63 → int64 y = true.
Proof.
  intros [H1 H2]. unfold int64.
  apply andb_true_intro. split; [by apply Z.leb_le|by apply Z.ltb_lt].
Qed.

Lemma storable_int64 p :
  (∀ y, StudentUpdate.angkatan p = Some y → - 2 ^ 63 ≤ y < 2 ^ 63) →
  storable p = true.
Proof.
  intros Hy. unfold storable.
  destruct (StudentUpdate.angkatan p) as [y|]; [|reflexivity].
  exact (int64_range y (Hy y eq_refl)).
Qed.

Lemma field_update_Some p k v :
  field_update p k = Some v →
  (∃ s, v = VStr s) ∨
  (k = "angkatan" ∧ ∃ y, StudentUpdate.angkatan p = Some y ∧ v = VInt y).
Proof.
  unfold field_update.
  repeat case_decide; intros Hv; try discriminate Hv;
    apply fmap_Some in Hv as (x & Hx & ->); eauto.
Qed.

Lemma bson_doc_update p t :
  bson_doc (<["updated_at" := VIsoStr t]> (provided p)) = storable p.
Proof.
  unfold bson_doc, storable.
  assert ((∀ y, StudentUpdate.angkatan p = Some y → int64 y = true) →
          map_Forall (λ _ v, bson_value v = true)
            (<["updated_at" := VIsoStr t]> (provided p))) as Hall.
  { intros Hy k v Hk.
    rewrite lookup_insert in Hk. case_decide; [by simplify_eq|].
    rewrite provided_lookup in Hk.
    apply field_update_Some in Hk as [[s ->]|(_ & y & Ey & ->)];
      [reflexivity|exact (Hy y Ey)]. }
  destruct (StudentUpdate.angkatan p) as [y|] eqn:Ey.
  2:{ apply bool_decide_eq_true_2, Hall. intros y Ey'. discriminate Ey'. }
  destruct (int64 y) eqn:E64.
  { apply bool_decide_eq_true_2, Hall. by intros y' [= <-]. }
  apply bool_decide_eq_false_2. intros Hf.
  specialize (Hf "angkatan" (VInt y)). cbn [bson_value] in Hf.
  rewrite E64 in Hf. enough (false = true) by discriminate. apply Hf.
  rewrite lookup_insert_ne by discriminate.
  rewrite provided_lookup.
  destruct (field_update_fields p) as (_ & _ & _ & _ & -> & _).
  by rewrite Ey.
Qed.

(** What [update_student] computes once the gate has passed and the id
    is found: with an empty payload it only reads; otherwise it reads the
    clock and hands the provided fields and the fresh [updated_at] to the
    driver, which either refuses to encode them or writes them into the
    first document with that id; the handler then reads that document
    back. *)
Lemma update_student_found tok w u w1 sid i d p :
  require_admin tok w = (Ok u, w1) →
  list_find (has_field "id" (VStr sid)) (students w) = Some (i, d) →
  update_student sid (Valid p) tok w
  = if decide (provided p = ∅) then
      (let* d1 := parse_timestamps d in Student.validate d1) w1
    else if storable p then
      let d' := apply_set (<["updated_at" := VIsoStr (clock w1 (ticks w1))]>
                             (provided p)) d in
      if fits d' then
        (let* d1 := parse_timestamps d' in Student.validate d1)
          (write db_students (<[i := d']> (students w)) (tick w1))
      else (OutOfModel, tick w1)
    else (Raised "OverflowError", tick w1).
Proof.
  intros Hg Hf.
  destruct (require_admin_same_store _ _ _ _ Hg) as (_ & Hs & _).
  unfold update_student.
  rewrite (bind_ok (read_body (Valid p)) _ w () w) by reflexivity.
  rewrite (bind_ok _ _ _ _ _ Hg). cbv beta.
  rewrite (bind_ok (validated (Valid p)) _ w1 p w1) by reflexivity. cbv beta.
  assert (list_find (has_field "id" (VStr sid)) (read db_students w1)
          = Some (i, d)) as Hf1.
  { cbn [read]. rewrite Hs. exact Hf. }
  destruct (find_one_hit _ _ _ _ _ _ Hf1) as [E Ht].
  rewrite (bind_ok _ _ _ _ _ E). cbv beta.
  rewrite Ht. cbn [negb].
  case_decide as Hp.
  - rewrite bool_decide_eq_false_2 by (intros Hn; exact (Hn Hp)).
    rewrite (bind_ok (ret ()) _ w1 () w1) by reflexivity. cbv beta.
    rewrite (bind_ok _ _ _ _ _ E). reflexivity.
  - rewrite bool_decide_eq_true_2 by exact Hp.
    set (upd := <["updated_at":=VIsoStr (clock w1 (ticks w1))]> (provided p)).
    pose proof (bson_doc_update p (clock w1 (ticks w1))) as Hb.
    fold upd in Hb.
    destruct (storable p).
    2:{ assert ((let* t := now in
                 let* iso := isoformat (VDatetime t) in
                 update_one db_students [Field "id" (CEq (VStr sid))]
                   (<["updated_at":=iso]> (provided p))) w1
                = (Raised "OverflowError", tick w1)) as Ew.
        { rewrite (bind_ok now _ w1 _ _ (now_eq w1)). cbv beta.
          rewrite (bind_ok (isoformat _) _ (tick w1)
                     (VIsoStr (clock w1 (ticks w1))) (tick w1))
            by reflexivity.
          by apply update_one_overflow. }
        exact (bind_raised _ _ _ _ _ Ew). }
    pose proof (update_one_eq "id" (VStr sid) ltac:(discriminate) eq_refl
                  db_students upd (tick w1) Hb) as Eu.
    change (read db_students (tick w1)) with (students w1) in Eu.
    rewrite Hs, Hf in Eu. cbv zeta.
    destruct (fits (apply_set upd d)).
    2:{ assert ((let* t := now in
                 let* iso := isoformat (VDatetime t) in
                 update_one db_students [Field "id" (CEq (VStr sid))]
                   (<["updated_at":=iso]> (provided p))) w1
                = (OutOfModel, tick w1)) as Ew.
        { rewrite (bind_ok now _ w1 _ _ (now_eq w1)). cbv beta.
          rewrite (bind_ok (isoformat _) _ (tick w1)
                     (VIsoStr (clock w1 (ticks w1))) (tick w1))
            by reflexivity.
          exact Eu. }
        unfold bind at 1. rewrite Ew. reflexivity. }
    set (w2 := write db_students (<[i:=apply_set upd d]> (students w))
                 (tick w1)).
    assert (find_one db_students [Field "id" (CEq (VStr sid))] w2
            = (Ok (Some (apply_set upd d)), w2)) as E2.
    { refine (proj1 (find_one_hit db_students "id" sid w2 i _ _)).
      change (read db_students w2) with (<[i:=apply_set upd d]> (students w)).
      apply (list_find_replace _ _ _ d); [exact Hf|].
      apply list_find_Some in Hf as (_ & Hid & _).
      unfold apply_set, upd. apply lookup_union_Some_raw. right.
      split; [|exact Hid].
      rewrite lookup_insert_ne by discriminate.
      rewrite provided_lookup. reflexivity. }
    assert ((let* t := now in
             let* iso := isoformat (VDatetime t) in
             update_one db_students [Field "id" (CEq (VStr sid))]
               (<["updated_at":=iso]> (provided p))) w1 = (Ok (), w2)) as Ew.
    { rewrite (bind_ok now _ w1 _ _ (now_eq w1)). cbv beta.
      rewrite (bind_ok (isoformat _) _ (tick w1) (VIsoStr (clock w1 (ticks w1)))
                 (tick w1)) by reflexivity.
      exact Eu. }
    rewrite (bind_ok _ _ _ _ _ Ew). cbv beta.
    rewrite (bind_ok _ _ _ _ _ E2). reflexivity.
Qed.

Lemma updated_lookup p t d k :
  apply_set (<["updated_at" := VIsoStr t]> (provided p)) d !! k
  = match field_update p k with
    | Some v => Some v
    | None => if decide (k = "updated_at") then Some (VIsoStr t) else d !! k
    end.
Proof.
  unfold apply_set. rewrite lookup_union.
  destruct (decide (k = "updated_at")) as [->|Hk].
  - rewrite lookup_insert_eq. simpl. by destruct (d !! "updated_at").
  - rewrite lookup_insert_ne by done. rewrite provided_lookup.
    destruct (field_update p k), (d !! k); done.
Qed.

(** The record a partial update leads to, in the words of the payload: each
    field that is present replaces the old one (an e-mail address after
    validation), [updated_at] becomes the instant of the update, and the id
    and [created_at] stay. *)
Definition patched (ev : string → option string) (p : StudentUpdate.t)
    (t : Z) (s : Student.t) : option Student.t :=
  e ← match StudentUpdate.email p with
      | Some e => ev e
      | None => Some (Student.email s)
      end;
  Some (Student.mk (Student.id s)
          (default (Student.nim s) (StudentUpdate.nim p))
          (default (Student.nama s) (StudentUpdate.nama p))
          e
          (default (Student.program_studi s) (StudentUpdate.program_studi p))
          (default (Student.angkatan s) (StudentUpdate.angkatan p))
          (Student.created_at s)
          t).

Lemma student_of_patched ev p t d s :
  student_of ev d = Some s →
  student_of ev (apply_set (<["updated_at" := VIsoStr t]> (provided p)) d)
  = patched ev p t s.
Proof.
  intros (e & Hi & Hn & Ha & He & Hv & Hp & Hy & Hc & Hu)%student_of_Some.
  destruct (field_update_fields p) as (F1 & F2 & F3 & F4 & F5 & F6 & F7 & F8).
  unfold student_of, patched. rewrite !updated_lookup.
  rewrite F1, F2, F3, F4, F5, F6, F7, F8.
  rewrite (decide_False (P := "id" = "updated_at")) by discriminate.
  rewrite (decide_False (P := "nim" = "updated_at")) by discriminate.
  rewrite (decide_False (P := "nama" = "updated_at")) by discriminate.
  rewrite (decide_False (P := "email" = "updated_at")) by discriminate.
  rewrite (decide_False (P := "program_studi" = "updated_at")) by discriminate.
  rewrite (decide_False (P := "angkatan" = "updated_at")) by discriminate.
  rewrite (decide_False (P := "created_at" = "updated_at")) by discriminate.
  rewrite (decide_True (P := "updated_at" = "updated_at")) by reflexivity.
  rewrite Hi, Hc. cbn.
  destruct p as [n a m ps y]; cbn.
  destruct n, a, m, ps, y; cbn;
    rewrite ?Hn, ?Ha, ?He, ?Hp, ?Hy; cbn; rewrite ?Hv; cbn;
    try (destruct (ev _); reflexivity); destruct s; reflexivity.
Qed.

Lemma read_then_validate ev w d s :
  EmailStr w = ev →
  student_of ev d = Some s →
  (let* d1 := parse_timestamps d in Student.validate d1) w = (Ok s, w).
Proof.
  intros <- Hs.
  destruct (parse_timestamps_ok _ w _ _ Hs) as (d' & E & Hs').
  rewrite (bind_ok _ _ _ _ _ E). by apply student_validate_ok.
Qed.

Lemma update_student_valid tok w u w1 sid i d s p :
  require_admin tok w = (Ok u, w1) →
  list_find (has_field "id" (VStr sid)) (students w) = Some (i, d) →
  student_of (EmailStr w) d = Some s →
  (provided p = ∅ → update_student sid (Valid p) tok w = (Ok s, w1)) ∧
  (provided p ≠ ∅ → storable p = true →
   fits (apply_set (<["updated_at" := VIsoStr (clock w1 (ticks w1))]>
                      (provided p)) d) = true →
   ∀ s', patched (EmailStr w) p (clock w1 (ticks w1)) s = Some s' →
     update_student sid (Valid p) tok w
     = (Ok s',
        write db_students
          (<[i := apply_set (<["updated_at" := VIsoStr (clock w1 (ticks w1))]>
                               (provided p)) d]> (students w))
          (tick w1))) ∧
  (provided p ≠ ∅ → storable p = false →
   update_student sid (Valid p) tok w = (Raised "OverflowError", tick w1)).
Proof.
  intros Hg Hf Hs.
  destruct (require_admin_same_store _ _ _ _ Hg) as (_ & _ & _ & _ & He).
  rewrite (update_student_found _ _ _ _ _ _ _ p Hg Hf).
  split_and!; intros Hp; case_decide; try contradiction.
  - by apply (read_then_validate (EmailStr w)).
  - intros -> Hfit s' Hs'. cbv zeta. rewrite Hfit.
    apply (read_then_validate (EmailStr w)); [exact He|].
    by rewrite (student_of_patched _ _ _ _ s).
  - by intros ->.
Qed.

(** ** C4: partial update *)

Definition sample_alice_record : Student.t :=
  Student.mk "s-1" "A1" "Alice" "alice@campus.id" "Informatika" 2021
             1695000000000000 1695000000000000.

Definition no_change : StudentUpdate.t :=
  StudentUpdate.mk None None None None None.

Definition rename_to_New : StudentUpdate.t :=
  StudentUpdate.mk None (Some "New") None None None.

Definition enrol_in_year_2_63 : StudentUpdate.t :=
  StudentUpdate.mk None None None None (Some (2 ^ 63)).

Lemma patched_is_Some ev p t s :
  (∀ e, StudentUpdate.email p = Some e → is_Some (ev e)) →
  is_Some (patched ev p t s).
Proof.
  intros He. unfold patched.
  destruct (StudentUpdate.email p) as [e|]; simpl; [|by eexists].
  destruct (He e eq_refl) as [e' ->]. by eexists.
Qed.

(** C4, as the claim states it, fails: a year that does not fit the 8 bytes
    of an integer of the store is a valid payload, but the driver refuses to
    encode it; the field that was provided is not applied, and the request
    ends as a 500. *)
Lemma update_student_year_overflow :
  list_find (has_field "id" (VStr "s-1")) (students sample_world)
  = Some (0%nat, sample_alice) ∧
  ∃ w',
    update_student "s-1" (Valid enrol_in_year_2_63)
      (sample_token "root@campus.id") sample_world
    = (Raised "OverflowError", w') ∧
    students w' = students sample_world ∧
    sample_alice !! "angkatan" = Some (VInt 2021).
Proof.
  split; [reflexivity|]. exists (tick (tick sample_world)).
  split_and!; reflexivity.
Qed.

(** C4, amended.  For an admin, an id that exists and a payload that passed
    validation, whose year, if present, fits a signed 64-bit integer and
    with which the document stays below the size the store accepts: with no
    field present nothing is written and the stored record comes
    back as it is; with at least one field present the first document with
    that id gets exactly the present fields and a fresh [updated_at], every
    other field of that document and every other document stay, and the
    record read back is returned. *)
Theorem update_student_applies_provided tok w u w1 sid i d s p :
  require_admin tok w = (Ok u, w1) →
  list_find (has_field "id" (VStr sid)) (students w) = Some (i, d) →
  student_of (EmailStr w) d = Some s →
  (∀ e, StudentUpdate.email p = Some e → is_Some (EmailStr w e)) →
  (∀ y, StudentUpdate.angkatan p = Some y → - 2 ^ 63 ≤ y < 2 ^ 63) →
  (∀ t, fits (apply_set (<["updated_at" := VIsoStr t]> (provided p)) d)
        = true) →
  ((∀ k, field_update p k = None) →
   update_student sid (Valid p) tok w = (Ok s, w1) ∧
   students w1 = students w) ∧
  ((∃ k, is_Some (field_update p k)) →
   ∃ d' s' w2,
     update_student sid (Valid p) tok w = (Ok s', w2) ∧
     students w2 = <[i := d']> (students w) ∧
     users w2 = users w ∧
     (∀ k, d' !! k
           = match field_update p k with
             | Some v => Some v
             | None => if decide (k = "updated_at")
                       then Some (VIsoStr (clock w1 (ticks w1)))
                       else d !! k
             end) ∧
     patched (EmailStr w) p (clock w1 (ticks w1)) s = Some s').
Proof.
  intros Hg Hf Hs He Hy Hfit.
  destruct (require_admin_same_store _ _ _ _ Hg) as (Hu & Hst & _).
  destruct (update_student_valid _ _ _ _ _ _ _ _ p Hg Hf Hs) as (H0 & H1 & _).
  split.
  - intros Hn. split; [|exact Hst]. apply H0. apply provided_empty.
    exact Hn.
  - intros [k Hk].
    destruct (patched_is_Some (EmailStr w) p (clock w1 (ticks w1)) s He)
      as [s' Hs'].
    assert (provided p ≠ ∅) as Hne.
    { intros Hn. rewrite (proj1 (provided_empty p) Hn k) in Hk.
      destruct Hk as [? Hk]. discriminate Hk. }
    eexists _, s', _.
    split; [exact (H1 Hne (storable_int64 p Hy) (Hfit _) s' Hs')|].
    split; [reflexivity|]. split; [exact Hu|]. split; [|exact Hs'].
    intros k'. apply updated_lookup.
Qed.

Lemma update_student_applies_provided_witness :
  update_student "s-1" (Valid no_change) (sample_token "root@campus.id")
    sample_world
  = (Ok sample_alice_record, tick sample_world) ∧
  ∃ d' s' w2,
    update_student "s-1" (Valid rename_to_New)
      (sample_token "root@campus.id") sample_world = (Ok s', w2) ∧
    students w2 = [d'; sample_bob] ∧
    d' !! "nama" = Some (VStr "New") ∧
    d' !! "updated_at" = Some (VIsoStr 1700000000000001) ∧
    d' !! "nim" = Some (VStr "A1") ∧
    s' = Student.mk "s-1" "A1" "New" "alice@campus.id" "Informatika" 2021
                    1695000000000000 1700000000000001.
Proof.
  split.
  - refine (proj1 (proj1 (update_student_applies_provided
      (sample_token "root@campus.id") sample_world sample_admin
      (tick sample_world) "s-1" 0%nat sample_alice sample_alice_record
      no_change _ _ _ _ _ _) _)).
    + reflexivity.
    + reflexivity.
    + reflexivity.
    + intros e H. discriminate H.
    + intros y H. discriminate H.
    + intros t. reflexivity.
    + intros k. unfold field_update. by repeat case_decide.
  - destruct (proj2 (update_student_applies_provided
      (sample_token "root@campus.id") sample_world sample_admin
      (tick sample_world) "s-1" 0%nat sample_alice sample_alice_record
      rename_to_New eq_refl eq_refl eq_refl
      (λ e H, ltac:(discriminate H)) (λ y H, ltac:(discriminate H))
      (λ t, eq_refl))
      (ex_intro _ "nama" (ex_intro _ (VStr "New") eq_refl)))
      as (d' & s' & w2 & Hr & Hst & _ & Hk & Hp).
    exists d', s', w2. split; [exact Hr|]. split; [exact Hst|].
    rewrite !Hk. split_and!; try reflexivity.
    injection Hp as <-. reflexivity.
Defined.

(** ** C10: update does not keep student numbers unique *)

(** No two documents of the collection carry the same [nim]. *)
Definition nim_unique (l : list doc) : Prop :=
  ∀ (i j : nat) d1 d2 n,
    l !! i = Some d1 → l !! j = Some d2 →
    d1 !! "nim" = Some n → d2 !! "nim" = Some n → i = j.

Definition renumber_to_B2 : StudentUpdate.t :=
  StudentUpdate.mk (Some "B2") None None None None.

Definition renumber_to_B2_in_year_2_63 : StudentUpdate.t :=
  StudentUpdate.mk (Some "B2") None None None (Some (2 ^ 63)).

Lemma create_student_taken tok w u w1 c (j : nat) d2 :
  require_admin tok w = (Ok u, w1) →
  students w !! j = Some d2 →
  d2 !! "nim" = Some (VStr (StudentCreate.nim c)) →
  create_student (Valid c) tok w
  = (HTTPException 400 "NIM already exists", w1).
Proof.
  intros Hg Hj Hn.
  destruct (require_admin_same_store _ _ _ _ Hg) as (_ & Hst & _).
  unfold create_student.
  rewrite (bind_ok (read_body (Valid c)) _ w () w) by reflexivity.
  rewrite (bind_ok _ _ _ _ _ Hg). cbv beta.
  rewrite (bind_ok (validated (Valid c)) _ w1 c w1) by reflexivity. cbv beta.
  destruct (list_find_elem_of
              (has_field "nim" (VStr (StudentCreate.nim c)))
              (students w) d2) as [[k dk] Hk].
  { by eapply list_elem_of_lookup_2. }
  { exact Hn. }
  assert (list_find (has_field "nim" (VStr (StudentCreate.nim c)))
            (read db_students w1) = Some (k, dk)) as Hk1.
  { cbn [read]. rewrite Hst. exact Hk. }
  destruct (find_one_hit _ _ _ _ _ _ Hk1) as [E Ht].
  rewrite (bind_ok _ _ _ _ _ E). cbv beta. rewrite Ht. reflexivity.
Qed.

Lemma sample_nim_unique : nim_unique (students sample_world).
Proof.
  intros [|[|i]] [|[|j]] d1 d2 n H1 H2 Hn1 Hn2; simplify_eq/=;
    try reflexivity; vm_compute in Hn1; vm_compute in Hn2; congruence.
Qed.

(** C10, as the claim states it, fails: a payload that carries the student
    number of another record and a year that does not fit the 8 bytes of an
    integer of the store is refused by the driver; the update does not
    succeed and no duplicate is persisted. *)
Lemma update_student_duplicate_not_persisted :
  sample_bob !! "nim" = Some (VStr "B2") ∧
  ∃ w',
    update_student "s-1" (Valid renumber_to_B2_in_year_2_63)
      (sample_token "root@campus.id") sample_world
    = (Raised "OverflowError", w') ∧
    students w' = students sample_world ∧
    nim_unique (students w').
Proof.
  split; [reflexivity|]. exists (tick (tick sample_world)).
  split_and!; [reflexivity|reflexivity|exact sample_nim_unique].
Qed.

(** C10, amended.  [update_student] does not look for the new [nim] among
    the other documents: when the payload carries a [nim] that another
    document already has (and a year, if any, that fits a signed 64-bit
    integer, and leaves the document below the size the store accepts), the
    update succeeds, the updated document and the other one
    both carry that [nim] afterwards, and the collection no longer has
    unique student numbers -- whereas creating a student with that [nim] is
    refused. *)
Theorem update_student_duplicates_nim tok w u w1 sid i d s (j : nat) d2 n p :
  require_admin tok w = (Ok u, w1) →
  list_find (has_field "id" (VStr sid)) (students w) = Some (i, d) →
  student_of (EmailStr w) d = Some s →
  (∀ e, StudentUpdate.email p = Some e → is_Some (EmailStr w e)) →
  (∀ y, StudentUpdate.angkatan p = Some y → - 2 ^ 63 ≤ y < 2 ^ 63) →
  (∀ t, fits (apply_set (<["updated_at" := VIsoStr t]> (provided p)) d)
        = true) →
  StudentUpdate.nim p = Some n →
  students w !! j = Some d2 → j ≠ i → d2 !! "nim" = Some (VStr n) →
  (∃ s' w2,
     update_student sid (Valid p) tok w = (Ok s', w2) ∧
     Student.nim s' = n ∧
     (∃ d', students w2 !! i = Some d' ∧ d' !! "nim" = Some (VStr n)) ∧
     students w2 !! j = Some d2 ∧
     ¬ nim_unique (students w2)) ∧
  (∀ c, StudentCreate.nim c = n →
        create_student (Valid c) tok w
        = (HTTPException 400 "NIM already exists", w1)).
Proof.
  intros Hg Hf Hs He Hy Hfit Hn Hj Hji Hd2. split.
  - destruct (update_student_valid _ _ _ _ _ _ _ _ p Hg Hf Hs)
      as (_ & H1 & _).
    destruct (patched_is_Some (EmailStr w) p (clock w1 (ticks w1)) s He)
      as [s' Hs'].
    assert (field_update p "nim" = Some (VStr n)) as Hfu.
    { destruct (field_update_fields p) as (-> & _). by rewrite Hn. }
    assert (provided p ≠ ∅) as Hne.
    { intros Hp. rewrite (proj1 (provided_empty p) Hp "nim") in Hfu.
      discriminate Hfu. }
    set (d' := apply_set (<["updated_at" := VIsoStr (clock w1 (ticks w1))]>
                            (provided p)) d) in *.
    assert (d' !! "nim" = Some (VStr n)) as Hd'.
    { unfold d'. rewrite updated_lookup, Hfu. reflexivity. }
    assert (i < length (students w))%nat as Hi.
    { apply list_find_Some in Hf as (Hf & _). by eapply lookup_lt_Some. }
    exists s', (write db_students (<[i := d']> (students w)) (tick w1)).
    split; [exact (H1 Hne (storable_int64 p Hy) (Hfit _) s' Hs')|].
    split.
    { unfold patched in Hs'. rewrite Hn in Hs'.
      destruct (match StudentUpdate.email p with
                | Some e => EmailStr w e
                | None => Some (Student.email s)
                end); [|discriminate Hs'].
      simpl in Hs'. injection Hs' as <-. reflexivity. }
    cbn [write students].
    split; [exists d'; split; [by apply list_lookup_insert_eq|exact Hd']|].
    split; [rewrite list_lookup_insert_ne by congruence; exact Hj|].
    intros Hu.
    apply Hji. symmetry.
    eapply (Hu i j d' d2 (VStr n)); try eassumption.
    + by apply list_lookup_insert_eq.
    + rewrite list_lookup_insert_ne by congruence. exact Hj.
  - intros c <-. by eapply create_student_taken.
Qed.

Lemma update_student_duplicates_nim_witness :
  nim_unique (students sample_world) ∧
  ∃ s' w2,
    update_student "s-1" (Valid renumber_to_B2)
      (sample_token "root@campus.id") sample_world = (Ok s', w2) ∧
    Student.nim s' = "B2" ∧
    students w2 !! 1%nat = Some sample_bob ∧
    ¬ nim_unique (students w2).
Proof.
  split; [exact sample_nim_unique|].
  destruct (proj1 (update_student_duplicates_nim
      (sample_token "root@campus.id") sample_world sample_admin
      (tick sample_world) "s-1" 0%nat sample_alice sample_alice_record
      1%nat sample_bob "B2" renumber_to_B2
      eq_refl eq_refl eq_refl (λ e H, ltac:(discriminate H))
      (λ y H, ltac:(discriminate H)) (λ t, eq_refl)
      eq_refl eq_refl ltac:(discriminate) eq_refl))
      as (s' & w2 & Hr & Hn & _ & Hj & Hu).
  exists s', w2. split_and!; assumption.
Defined.

(** ** Registration and login *)

(** The document [register] stores for a request, given the identifier, the
    salt and the instant it drew. *)
Definition registered_doc (user_data : UserRegister.t) (id salt : string)
    (t : Z) : doc :=
  {[ "id" := VStr id;
     "email" := VStr (UserRegister.email user_data);
     "name" := VStr (UserRegister.name user_data);
     "role" := VStr (UserRegister.role user_data);
     "created_at" := VIsoStr t;
     "password_hash" := VBcrypt salt (UserRegister.password user_data) ]}.

Definition registered_user (user_data : UserRegister.t) (id : string)
    (t : Z) : User.t :=
  User.mk id (UserRegister.email user_data) (UserRegister.name user_data)
          (UserRegister.role user_data) t.

(** The world after a successful [register]: one more user, and one
    identifier, one reading of the clock and one salt consumed. *)
Definition after_register (user_data : UserRegister.t) (w : World) : World :=
  mkWorld (users w ++
             [registered_doc user_data (uuids w (uuid_count w))
                (salts w (salt_count w)) (clock w (ticks w))])
          (students w) (clock w) (clock_range w) (S (ticks w)) (uuids w)
          (S (uuid_count w)) (salts w) (S (salt_count w)) (SECRET_KEY w)
          (EmailStr w).

(** A password the library accepts: at most 4096 characters, none of them
    NUL. *)
Definition hashable (password : string) : bool :=
  negb (MAX_PASSWORD_SIZE <? len password)%nat
  && negb (has_nul password).

Lemma get_password_hash_ok password w :
  hashable password = true →
  get_password_hash password w
  = (Ok (VBcrypt (salts w (salt_count w)) password), (gensalt w).2).
Proof.
  intros [Hs Hn]%andb_prop. apply negb_true_iff in Hs, Hn.
  unfold get_password_hash, validate_secret, forbid_nul, bind.
  rewrite Hs. cbn. rewrite Hn. reflexivity.
Qed.

(** A password that the library refuses: the error it raises, and whether
    a salt was drawn before. *)
Lemma get_password_hash_refused password w :
  hashable password = false →
  get_password_hash password w
  = if (MAX_PASSWORD_SIZE <? len password)%nat
    then (Raised "PasswordSizeError", w)
    else (Raised "PasswordValueError", (gensalt w).2).
Proof.
  intros Hh. unfold hashable in Hh.
  unfold get_password_hash, validate_secret, forbid_nul, bind.
  destruct (MAX_PASSWORD_SIZE <? len password)%nat; [reflexivity|].
  cbn in *. apply negb_false_iff in Hh. rewrite Hh. reflexivity.
Qed.

Lemma bson_doc_insert k v (d : doc) :
  bson_value v = true → bson_doc d = true → bson_doc (<[k := v]> d) = true.
Proof.
  unfold bson_doc. intros Hv Hd%bool_decide_eq_true_1.
  apply bool_decide_eq_true_2. by apply map_Forall_insert_2.
Qed.

Lemma bson_doc_singleton k v :
  bson_value v = true → bson_doc {[ k := v ]} = true.
Proof.
  intros Hv. apply bool_decide_eq_true_2. by apply map_Forall_singleton.
Qed.

Lemma insert_one_ok c d w :
  bson_doc d = true → fits d = true →
  insert_one c d w = (Ok (), write c (read c w ++ [d]) w).
Proof. intros Hd Hfit. unfold insert_one. by rewrite Hd, Hfit. Qed.

Lemma insert_one_overflow c d w :
  bson_doc d = false → insert_one c d w = (Raised "OverflowError", w).
Proof. intros Hd. unfold insert_one. by rewrite Hd. Qed.

Lemma insert_one_open c d w :
  bson_doc d = true → fits d = false → insert_one c d w = (OutOfModel, w).
Proof. intros Hd Hfit. unfold insert_one. by rewrite Hd, Hfit. Qed.

(** Building the [User] of a registration: the id and the creation instant
    come from their default factories, in that order. *)
Lemma user_validate_new user_data w :
  User.validate
    {[ "email" := VStr (UserRegister.email user_data);
       "name" := VStr (UserRegister.name user_data);
       "role" := VStr (UserRegister.role user_data) ]} w
  = (Ok (registered_user user_data (uuids w (uuid_count w))
           (clock w (ticks w))),
     tick (uuid4 w).2).
Proof. reflexivity. Qed.

Lemma registered_doc_bson user_data id salt t :
  bson_doc (registered_doc user_data id salt t) = true.
Proof.
  unfold registered_doc.
  repeat (apply bson_doc_insert; [reflexivity|]).
  apply bool_decide_eq_true_2, map_Forall_empty.
Qed.

(** What [register] does with a request whose e-mail address is free and
    whose password the library accepts: it stores the document, unless the
    document is so large that the model leaves the outcome open. *)
Lemma register_free user_data w :
  list_find (has_field "email" (VStr (UserRegister.email user_data)))
            (users w) = None →
  hashable (UserRegister.password user_data) = true →
  register user_data w
  = if fits (registered_doc user_data (uuids w (uuid_count w))
               (salts w (salt_count w)) (clock w (ticks w)))
    then (Ok (registered_user user_data (uuids w (uuid_count w))
                (clock w (ticks w))),
          after_register user_data w)
    else (OutOfModel, (gensalt (tick (uuid4 w).2)).2).
Proof.
  intros Hf Hh. unfold register.
  rewrite (bind_ok _ _ _ _ _ (find_one_miss db_users _ _ w Hf)). cbv beta.
  cbn [truthy].
  rewrite (bind_ok _ _ _ _ _ (user_validate_new user_data w)).
  cbv beta.
  rewrite (bind_ok _ _ _ _ _ (get_password_hash_ok _ _ Hh)). cbv beta.
  change (?lhs = ?rhs)
    with ((insert_one db_users
             (registered_doc user_data (uuids w (uuid_count w))
                (salts w (salt_count w)) (clock w (ticks w)));;
           ret (registered_user user_data (uuids w (uuid_count w))
                  (clock w (ticks w))))
            (gensalt (tick (uuid4 w).2)).2 = rhs).
  destruct (fits _) eqn:Hfit.
  - rewrite (bind_ok _ _ _ _ _
               (insert_one_ok _ _ _ (registered_doc_bson _ _ _ _) Hfit)).
    reflexivity.
  - unfold bind at 1.
    by rewrite (insert_one_open _ _ _ (registered_doc_bson _ _ _ _) Hfit).
Qed.

Lemma register_fresh user_data w :
  list_find (has_field "email" (VStr (UserRegister.email user_data)))
            (users w) = None →
  hashable (UserRegister.password user_data) = true →
  fits (registered_doc user_data (uuids w (uuid_count w))
          (salts w (salt_count w)) (clock w (ticks w))) = true →
  register user_data w
  = (Ok (registered_user user_data (uuids w (uuid_count w))
           (clock w (ticks w))),
     after_register user_data w).
Proof. intros Hf Hh Hfit. by rewrite (register_free _ _ Hf Hh), Hfit. Qed.

(** With a password that the library refuses, [register] raises and stores
    nothing. *)
Lemma register_refused user_data w :
  list_find (has_field "email" (VStr (UserRegister.email user_data)))
            (users w) = None →
  hashable (UserRegister.password user_data) = false →
  ∃ exc w',
    register user_data w = (Raised exc, w') ∧
    (exc = "PasswordSizeError" ∨ exc = "PasswordValueError") ∧
    users w' = users w.
Proof.
  intros Hf Hh. unfold register.
  rewrite (bind_ok _ _ _ _ _ (find_one_miss db_users _ _ w Hf)). cbv beta.
  cbn [truthy].
  rewrite (bind_ok _ _ _ _ _ (user_validate_new user_data w)).
  cbv beta.
  pose proof (get_password_hash_refused _ (tick (uuid4 w).2) Hh) as E.
  destruct (MAX_PASSWORD_SIZE <? _)%nat;
    rewrite (bind_raised _ _ _ _ _ E); eexists _, _;
    (split; [reflexivity|split; [auto|reflexivity]]).
Qed.

Lemma register_taken user_data w i d :
  list_find (has_field "email" (VStr (UserRegister.email user_data)))
            (users w) = Some (i, d) →
  register user_data w = (HTTPException 400 "Email already registered", w).
Proof.
  intros Hf. unfold register.
  destruct (find_one_hit db_users _ _ w _ _ Hf) as [E Ht].
  rewrite (bind_ok _ _ _ _ _ E). cbv beta. rewrite Ht. reflexivity.
Qed.

Lemma register_Ok_inv user_data w u w' :
  register user_data w = (Ok u, w') →
  list_find (has_field "email" (VStr (UserRegister.email user_data)))
            (users w) = None ∧
  hashable (UserRegister.password user_data) = true ∧
  fits (registered_doc user_data (uuids w (uuid_count w))
          (salts w (salt_count w)) (clock w (ticks w))) = true ∧
  w' = after_register user_data w.
Proof.
  intros H.
  destruct (list_find
              (has_field "email" (VStr (UserRegister.email user_data)))
              (users w)) as [[i d]|] eqn:Hf.
  { rewrite (register_taken _ _ _ _ Hf) in H. discriminate H. }
  destruct (hashable (UserRegister.password user_data)) eqn:Hh.
  - rewrite (register_free _ _ Hf Hh) in H.
    destruct (fits _); [|discriminate H]. by injection H as _ <-.
  - destruct (register_refused _ _ Hf Hh) as (exc & w'' & E & _).
    rewrite E in H. discriminate H.
Qed.

Lemma list_find_is_Some (P : doc → Prop) `{!∀ d, Decision (P d)}
    (l : list doc) (i : nat) d :
  l !! i = Some d → P d → ∃ k dk, list_find P l = Some (k, dk).
Proof.
  intros Hi HP.
  destruct (list_find_elem_of P l d) as [[k dk] Hk]; [|exact HP|by eauto].
  by eapply list_elem_of_lookup_2.
Qed.

Lemma users_after_register user_data w :
  ∃ k dk,
    list_find (has_field "email" (VStr (UserRegister.email user_data)))
              (users (after_register user_data w)) = Some (k, dk).
Proof.
  eapply (list_find_is_Some _ _ (length (users w))).
  - cbn [after_register users]. rewrite lookup_app_r by reflexivity.
    rewrite Nat.sub_diag. reflexivity.
  - reflexivity.
Qed.

(** ** C9: registering a taken e-mail address *)

Definition sample_newcomer : UserRegister.t :=
  UserRegister.mk "new@campus.id" "s3cret" "Newcomer" "admin".

Definition sample_newcomer_again : UserRegister.t :=
  UserRegister.mk "new@campus.id" "other" "Impostor" "user".

(** C9.  When a user document with the e-mail address of the request exists,
    [register] answers 400 and leaves the world as it was: nothing is
    inserted.  In particular, after a successful registration a second one
    with the same address, whatever its other fields, is refused and the
    collection stays as the first one left it. *)
Theorem register_conflict w first second :
  UserRegister.email second = UserRegister.email first →
  (∀ (i : nat) d,
     users w !! i = Some d →
     d !! "email" = Some (VStr (UserRegister.email first)) →
     register second w
     = (HTTPException 400 "Email already registered", w)) ∧
  (∀ u w1,
     register first w = (Ok u, w1) →
     register second w1
     = (HTTPException 400 "Email already registered", w1)).
Proof.
  intros Hsame. split.
  - intros i d Hi Hd.
    destruct (list_find_is_Some
                (has_field "email" (VStr (UserRegister.email second)))
                (users w) i d Hi) as (k & dk & Hk).
    { rewrite Hsame. exact Hd. }
    exact (register_taken _ _ _ _ Hk).
  - intros u w1 Hr.
    destruct (register_Ok_inv _ _ _ _ Hr) as (_ & _ & _ & ->).
    destruct (users_after_register first w) as (k & dk & Hk).
    rewrite <- Hsame in Hk.
    exact (register_taken _ _ _ _ Hk).
Qed.

Lemma register_conflict_witness :
  register sample_newcomer_again (after_register sample_newcomer sample_world)
  = (HTTPException 400 "Email already registered",
     after_register sample_newcomer sample_world) ∧
  length (users (after_register sample_newcomer sample_world)) = 3%nat.
Proof.
  split; [|reflexivity].
  refine (proj2 (register_conflict sample_world sample_newcomer
                   sample_newcomer_again eq_refl)
                (registered_user sample_newcomer "id-a" 1700000000000000)
                _ _).
  reflexivity.
Defined.

(** ** C7: failed logins *)

Lemma login_unknown_email user_data w :
  list_find (has_field "email" (VStr (UserLogin.email user_data)))
            (users w) = None →
  login user_data w = (HTTPException 401 "Invalid email or password", w).
Proof.
  intros Hf. unfold login.
  rewrite (bind_ok _ _ _ _ _ (find_one_miss db_users _ _ w Hf)).
  reflexivity.
Qed.

Lemma verify_password_digest plain salt pw w :
  hashable plain = true →
  verify_password plain (VBcrypt salt pw) w
  = (Ok (bool_decide (bcrypt_input plain = bcrypt_input pw)), w).
Proof.
  intros [Hs Hn]%andb_prop. apply negb_true_iff in Hs, Hn.
  unfold verify_password, validate_secret, forbid_nul, bind.
  rewrite Hs. cbn. rewrite Hn. reflexivity.
Qed.

(** The error [verify] raises on a password that the library refuses. *)
Definition refusal (password : string) : string :=
  if (MAX_PASSWORD_SIZE <? len password)%nat
  then "PasswordSizeError" else "PasswordValueError".

Lemma verify_password_refused plain salt pw w :
  hashable plain = false →
  verify_password plain (VBcrypt salt pw) w = (Raised (refusal plain), w).
Proof.
  intros Hh. unfold hashable in Hh.
  unfold verify_password, validate_secret, forbid_nul, bind, refusal.
  destruct (MAX_PASSWORD_SIZE <? len plain)%nat; [reflexivity|].
  cbn in *. apply negb_false_iff in Hh. rewrite Hh. reflexivity.
Qed.

(** [login] up to the verification of the password, for an e-mail address
    that a user with a digest has. *)
Lemma login_known_email user_data w i d salt pw :
  list_find (has_field "email" (VStr (UserLogin.email user_data)))
            (users w) = Some (i, d) →
  d !! "password_hash" = Some (VBcrypt salt pw) →
  login user_data w
  = (let* ok := verify_password (UserLogin.password user_data)
                  (VBcrypt salt pw) in
     if negb ok then
       raise_http 401 "Invalid email or password"
     else
       let* sub := getitem d "email" in
       let* access_token := create_access_token {[ "sub" := sub ]} in
       let* user := parse_datetime_at "created_at" d in
       let* user_obj := User.validate (without_password_hash user) in
       ret (Token.mk access_token "bearer" user_obj)) w.
Proof.
  intros Hf Hh. unfold login.
  destruct (find_one_hit db_users _ _ w _ _ Hf) as [E Ht].
  rewrite (bind_ok _ _ _ _ _ E). cbv beta. rewrite Ht. cbn [negb].
  change (default ∅ (Some d)) with d.
  unfold getitem at 1. rewrite Hh.
  rewrite (bind_ok (ret _) _ w (VBcrypt salt pw) w) by reflexivity.
  reflexivity.
Qed.

Lemma login_wrong_password user_data w i d salt pw :
  list_find (has_field "email" (VStr (UserLogin.email user_data)))
            (users w) = Some (i, d) →
  d !! "password_hash" = Some (VBcrypt salt pw) →
  hashable (UserLogin.password user_data) = true →
  bcrypt_input (UserLogin.password user_data) ≠ bcrypt_input pw →
  login user_data w = (HTTPException 401 "Invalid email or password", w).
Proof.
  intros Hf Hh Hok Hpw. rewrite (login_known_email _ _ _ _ _ _ Hf Hh).
  rewrite (bind_ok _ _ _ _ _ (verify_password_digest _ _ _ _ Hok)).
  by rewrite bool_decide_eq_false_2.
Qed.

Lemma login_refused_password user_data w i d salt pw :
  list_find (has_field "email" (VStr (UserLogin.email user_data)))
            (users w) = Some (i, d) →
  d !! "password_hash" = Some (VBcrypt salt pw) →
  hashable (UserLogin.password user_data) = false →
  login user_data w = (Raised (refusal (UserLogin.password user_data)), w).
Proof.
  intros Hf Hh Hno. rewrite (login_known_email _ _ _ _ _ _ Hf Hh).
  exact (bind_raised _ _ _ _ _ (verify_password_refused _ _ _ _ Hno)).
Qed.

(** C7.  A login that fails because no user has the e-mail address and a
    login that fails because the password does not verify against the
    stored digest are meant to look alike: where the handler decides, both
    give status 401 with the same message and neither changes the world.
    But a password that the library refuses (a NUL byte, or more than 4096
    characters) makes the verification raise instead of answering, and the
    handler does not catch that: the request ends as a 500 when the e-mail
    address has an account and as the 401 when it has none, so the two
    failures can be told apart. *)
Theorem login_refused_password_reveals_account a w1 b w2 i d salt pw :
  list_find (has_field "email" (VStr (UserLogin.email a))) (users w1)
  = None →
  list_find (has_field "email" (VStr (UserLogin.email b))) (users w2)
  = Some (i, d) →
  d !! "password_hash" = Some (VBcrypt salt pw) →
  login a w1 = (HTTPException 401 "Invalid email or password", w1) ∧
  (hashable (UserLogin.password b) = true →
   bcrypt_input (UserLogin.password b) ≠ bcrypt_input pw →
   login b w2 = (HTTPException 401 "Invalid email or password", w2)) ∧
  (hashable (UserLogin.password b) = false →
   login b w2 = (Raised (refusal (UserLogin.password b)), w2) ∧
   status_of (login b w2).1 = Some 500 ∧
   status_of (login a w1).1 = Some 401 ∧
   (login b w2).1 ≠ (login a w1).1).
Proof.
  intros Ha Hb Hh.
  rewrite (login_unknown_email _ _ Ha).
  split; [reflexivity|]. split.
  - exact (login_wrong_password _ _ _ _ _ _ Hb Hh).
  - intros Hno. rewrite (login_refused_password _ _ _ _ _ _ Hb Hh Hno).
    split_and!; [reflexivity|reflexivity|reflexivity|discriminate].
Qed.

(** A password with a NUL byte. *)
Definition password_with_nul : string := String "p" (String zero "").

Lemma login_refused_password_reveals_account_witness :
  login (UserLogin.mk "nobody@campus.id" password_with_nul) sample_world
  = (HTTPException 401 "Invalid email or password", sample_world) ∧
  login (UserLogin.mk "root@campus.id" password_with_nul) sample_world
  = (Raised "PasswordValueError", sample_world) ∧
  login (UserLogin.mk "root@campus.id" "wrong") sample_world
  = (HTTPException 401 "Invalid email or password", sample_world).
Proof.
  destruct (login_refused_password_reveals_account
              (UserLogin.mk "nobody@campus.id" password_with_nul)
              sample_world
              (UserLogin.mk "root@campus.id" password_with_nul) sample_world
              0%nat sample_admin "salt-1" "hunter2"
              eq_refl eq_refl eq_refl)
    as (H1 & _ & H2).
  destruct (login_refused_password_reveals_account
              (UserLogin.mk "nobody@campus.id" password_with_nul)
              sample_world
              (UserLogin.mk "root@campus.id" "wrong") sample_world
              0%nat sample_admin "salt-1" "hunter2"
              eq_refl eq_refl eq_refl)
    as (_ & H3 & _).
  split; [exact H1|]. split; [exact (proj1 (H2 eq_refl))|].
  apply H3; [reflexivity|discriminate].
Defined.

(** ** Successful login and the identities that leave the server *)

Lemma user_of_Some d u :
  user_of d = Some u ↔
  as_str (d !! "id") = Some (User.id u) ∧
  as_str (d !! "email") = Some (User.email u) ∧
  as_str (d !! "name") = Some (User.name u) ∧
  as_str (d !! "role") = Some (User.role u) ∧
  as_instant (d !! "created_at") = Some (User.created_at u).
Proof.
  unfold user_of. split.
  - intros H. simplify_option_eq. by split_and!.
  - intros (-> & -> & -> & -> & ->). simpl. by destruct u.
Qed.

Lemma without_password_hash_lookup d k :
  without_password_hash d !! k
  = if decide (k = "password_hash") then None else d !! k.
Proof.
  unfold without_password_hash. rewrite map_lookup_filter.
  destruct (d !! k) as [v|]; simpl; case_decide; try reflexivity.
  - rewrite option_guard_False; [reflexivity|]. simpl. by intros [].
  - rewrite option_guard_True; [reflexivity|]. exact H.
Qed.

(** What [login] and [get_me] do to a stored document before they answer:
    parse [created_at], drop [password_hash], build the [User]. *)
Lemma public_identity d u w :
  user_of d = Some u →
  (let* d1 := parse_datetime_at "created_at" d in
   User.validate (without_password_hash d1)) w = (Ok u, w).
Proof.
  intros (Hi & He & Hn & Hr & Hc)%user_of_Some.
  destruct (parse_datetime_at_ok "created_at" d _ w Hc)
    as (d1 & E1 & Hc1 & Hf1).
  rewrite (bind_ok _ _ _ _ _ E1). apply user_validate_ok.
  apply user_of_Some. rewrite !without_password_hash_lookup.
  rewrite !decide_False by discriminate.
  rewrite Hc1, !Hf1 by discriminate. by split_and!.
Qed.

Lemma login_success user_data w i d salt pw u :
  list_find (has_field "email" (VStr (UserLogin.email user_data)))
            (users w) = Some (i, d) →
  d !! "password_hash" = Some (VBcrypt salt pw) →
  hashable (UserLogin.password user_data) = true →
  bcrypt_input (UserLogin.password user_data) = bcrypt_input pw →
  user_of d = Some u →
  login user_data w
  = (Ok (Token.mk (issued_token (SECRET_KEY w) (UserLogin.email user_data)
                     (clock w (ticks w)))
                  "bearer" u),
     tick w).
Proof.
  intros Hf Hh Hok Hpw Hu. rewrite (login_known_email _ _ _ _ _ _ Hf Hh).
  rewrite (bind_ok _ _ _ _ _ (verify_password_digest _ _ _ _ Hok)).
  rewrite bool_decide_eq_true_2 by exact Hpw. cbn [negb].
  apply list_find_Some in Hf as (_ & He & _).
  unfold getitem at 1. rewrite He.
  rewrite (bind_ok (ret _) _ w _ w eq_refl). cbv beta.
  rewrite (bind_ok _ _ _ _ _ (create_access_token_sub _ w)). cbv beta.
  pose proof (public_identity d u (tick w) Hu) as Hp.
  unfold bind at 1 in Hp. unfold bind at 1.
  destruct (parse_datetime_at "created_at" d (tick w)) as [[d1| | |] w'];
    try discriminate Hp.
  unfold bind at 1. rewrite Hp. reflexivity.
Qed.

Lemma get_current_user_ok claims exp email w i d :
  plain_claims claims →
  claims !! "sub" = Some (VStr email) →
  claims !! "exp" = Some (VInt exp) →
  clock w (ticks w) ≤ (exp - 1) * microseconds_per_second →
  list_find (has_field "email" (VStr email)) (users w) = Some (i, d) →
  get_current_user (Signed ALGORITHM claims (SECRET_KEY w)) w
  = (Ok d, tick w).
Proof.
  intros Hp Hsub Hexp Hlt Hf. unfold get_current_user.
  rewrite (bind_ok _ _ _ _ _ (decode_token_fresh _ _ _ Hp Hexp Hlt)).
  cbv beta.
  rewrite Hsub. cbn [is_none default].
  assert (list_find (has_field "email" (VStr email))
            (read db_users (tick w)) = Some (i, d)) as Hf1 by exact Hf.
  rewrite (bind_ok _ _ _ _ _ (proj1 (find_one_hit _ _ _ _ _ _ Hf1))).
  reflexivity.
Qed.

(** The token of a login resolves to the user it was issued for, as long as
    the clock has not come within an hour of its expiry. *)
Lemma issued_token_resolves email t w i d :
  clock w (ticks w) - t ≤ 23 * 3600 * microseconds_per_second →
  list_find (has_field "email" (VStr email)) (users w) = Some (i, d) →
  get_current_user (issued_token (SECRET_KEY w) email t) w = (Ok d, tick w).
Proof.
  intros Hsoon Hf.
  apply (get_current_user_ok _ (issued_exp t) email w i d
           (issued_claims_plain _ _) eq_refl eq_refl); [|exact Hf].
  pose proof (timegm_bounds
    (t + ACCESS_TOKEN_EXPIRE_MINUTES * 60 * microseconds_per_second)) as Hb.
  fold (issued_exp t) in Hb.
  unfold ACCESS_TOKEN_EXPIRE_MINUTES, microseconds_per_second in *. lia.
Qed.

Lemma list_find_appended (P : doc → Prop) `{!∀ d, Decision (P d)}
    (l : list doc) d :
  list_find P l = None → P d →
  list_find P (l ++ [d]) = Some (length l, d).
Proof.
  intros Hn HP. apply list_find_Some. split_and!.
  - rewrite lookup_app_r by reflexivity. by rewrite Nat.sub_diag.
  - exact HP.
  - intros j y Hj Hlt. rewrite lookup_app_l in Hj by exact Hlt.
    apply list_find_None in Hn.
    exact (proj1 (Forall_lookup _ _) Hn j y Hj).
Qed.

(** ** C1: the role of a registration is taken as it comes *)

(** C1.  For a request whose e-mail address is free, whose password the
    hashing library accepts (at most 4096 characters, none of them NUL) and
    whose document stays below the size the store accepts, [register] stores a
    user whose role is the string of the request, whatever it is, and
    returns that role.  When the string is [admin],
    logging in with the password of the request gives a token with which,
    within 23 hours of its issue, the admin gate returns the stored user: the
    caller passes the check that guards the write routes. *)
Theorem register_accepts_any_role user_data w :
  list_find (has_field "email" (VStr (UserRegister.email user_data)))
            (users w) = None →
  hashable (UserRegister.password user_data) = true →
  let d := registered_doc user_data (uuids w (uuid_count w))
             (salts w (salt_count w)) (clock w (ticks w)) in
  let w1 := after_register user_data w in
  fits d = true →
  (∃ u, register user_data w = (Ok u, w1) ∧
        User.role u = UserRegister.role user_data) ∧
  users w1 = (users w ++ [d])%list ∧
  d !! "role" = Some (VStr (UserRegister.role user_data)) ∧
  (UserRegister.role user_data = "admin" →
   ∃ tk,
     login (UserLogin.mk (UserRegister.email user_data)
              (UserRegister.password user_data)) w1
     = (Ok tk, tick w1) ∧
     (clock w (S (S (ticks w))) - clock w (S (ticks w))
      ≤ 23 * 3600 * microseconds_per_second →
      require_admin (Token.access_token tk) (tick w1)
      = (Ok d, tick (tick w1)))).
Proof.
  intros Hf Hh d w1 Hfit.
  split; [|split; [reflexivity|split; [reflexivity|]]].
  { eexists. split; [exact (register_fresh _ _ Hf Hh Hfit)|reflexivity]. }
  intros Hadmin.
  assert (list_find (has_field "email" (VStr (UserRegister.email user_data)))
            (users w1) = Some (length (users w), d)) as Hf1.
  { apply list_find_appended; [exact Hf|reflexivity]. }
  eexists. split.
  { apply (login_success
             (UserLogin.mk (UserRegister.email user_data)
                (UserRegister.password user_data))
             w1 (length (users w)) d (salts w (salt_count w))
             (UserRegister.password user_data)
             (registered_user user_data (uuids w (uuid_count w))
                (clock w (ticks w))));
      [exact Hf1|reflexivity|exact Hh|reflexivity|reflexivity]. }
  intros Hsoon. cbn [Token.access_token].
  assert (get_current_user
            (issued_token (SECRET_KEY w1) (UserRegister.email user_data)
               (clock w1 (ticks w1))) (tick w1) = (Ok d, tick (tick w1)))
    as Hg.
  { apply (issued_token_resolves (UserRegister.email user_data)
             (clock w1 (ticks w1)) (tick w1) (length (users w)) d);
      [exact Hsoon|exact Hf1]. }
  unfold require_admin.
  change (UserLogin.email _) with (UserRegister.email user_data).
  rewrite (bind_ok _ _ _ _ _ Hg). cbv beta.
  rewrite bool_decide_eq_true_2; [reflexivity|].
  rewrite <- Hadmin. reflexivity.
Qed.

Lemma register_accepts_any_role_witness :
  (∃ u, register sample_newcomer sample_world
        = (Ok u, after_register sample_newcomer sample_world) ∧
        User.role u = "admin") ∧
  ∃ tk d,
    login (UserLogin.mk "new@campus.id" "s3cret")
          (after_register sample_newcomer sample_world)
    = (Ok tk, tick (after_register sample_newcomer sample_world)) ∧
    require_admin (Token.access_token tk)
      (tick (after_register sample_newcomer sample_world))
    = (Ok d, tick (tick (after_register sample_newcomer sample_world))) ∧
    d !! "role" = Some (VStr "admin").
Proof.
  destruct (register_accepts_any_role sample_newcomer sample_world eq_refl
              eq_refl eq_refl)
    as (Hreg & _ & Hrole & Hadm).
  split; [exact Hreg|].
  destruct (Hadm eq_refl) as (tk & Hlogin & Hgate).
  eexists tk, _. split; [exact Hlogin|]. split; [|exact Hrole].
  apply Hgate. vm_compute. discriminate.
Defined.

(** ** C8: the password digest never leaves the server *)

Lemma bind_Ok_inv {A B} (m : M A) (k : A → M B) w b w' :
  bind m k w = (Ok b, w') →
  ∃ a w1, m w = (Ok a, w1) ∧ k a w1 = (Ok b, w').
Proof.
  unfold bind. destruct (m w) as [[a| | |] w1]; try discriminate.
  intros H. by exists a, w1.
Qed.

(** A body exposes the digest when it has the field [password_hash], or
    when a digest sits under any of its fields. *)
Definition exposes_hash (body : doc) : Prop :=
  is_Some (body !! "password_hash") ∨
  ∃ k salt pw, body !! k = Some (VBcrypt salt pw).

Lemma user_model_dump_lookup u k v :
  User.model_dump u !! k = Some v →
  k ≠ "password_hash" ∧ ∀ salt pw, v ≠ VBcrypt salt pw.
Proof.
  unfold User.model_dump.
  repeat (rewrite lookup_insert; case_decide;
          [intros [= <-]; subst k; split; [discriminate|discriminate]|]).
  rewrite lookup_singleton. case_decide; [|discriminate].
  intros [= <-]; subst k. split; discriminate.
Qed.

Lemma user_model_dump_hides u : ¬ exposes_hash (User.model_dump u).
Proof.
  intros [[v Hv]|(k & salt & pw & Hk)].
  - by destruct (user_model_dump_lookup _ _ _ Hv) as [? _].
  - destruct (user_model_dump_lookup _ _ _ Hk) as [_ Hn]. by eapply Hn.
Qed.

Lemma issued_token_hides key email t claims alg key' :
  issued_token key email t = Signed alg claims key' →
  ¬ exposes_hash claims.
Proof.
  intros [= _ <- _].
  assert (∀ k v, ({[ "sub" := VStr email; "exp" := VInt (issued_exp t) ]}
                    : doc) !! k = Some v →
                 k ≠ "password_hash" ∧ ∀ salt pw, v ≠ VBcrypt salt pw) as H.
  { intros k v. rewrite lookup_insert. case_decide.
    - intros [= <-]; subst k. split; discriminate.
    - rewrite lookup_singleton. case_decide; [|discriminate].
      intros [= <-]; subst k. split; discriminate. }
  intros [[v Hv]|(k & salt & pw & Hk)].
  - by destruct (H _ _ Hv) as [? _].
  - destruct (H _ _ Hk) as [_ Hn]. by eapply Hn.
Qed.

Lemma login_Ok_inv user_data w tk w' :
  login user_data w = (Ok tk, w') →
  ∃ (i : nat) d salt pw,
    list_find (has_field "email" (VStr (UserLogin.email user_data)))
              (users w) = Some (i, d) ∧
    d !! "password_hash" = Some (VBcrypt salt pw) ∧
    hashable (UserLogin.password user_data) = true ∧
    bcrypt_input (UserLogin.password user_data) = bcrypt_input pw ∧
    Token.access_token tk
    = issued_token (SECRET_KEY w) (UserLogin.email user_data)
        (clock w (ticks w)) ∧
    Token.token_type tk = "bearer".
Proof.
  intros H. unfold login in H.
  destruct (list_find
              (has_field "email" (VStr (UserLogin.email user_data)))
              (users w)) as [[i d]|] eqn:Hf.
  2:{ rewrite (bind_ok _ _ _ _ _ (find_one_miss db_users _ _ w Hf)) in H.
      discriminate H. }
  destruct (find_one_hit db_users _ _ w _ _ Hf) as [E Ht].
  rewrite (bind_ok _ _ _ _ _ E) in H. cbv beta in H. rewrite Ht in H.
  cbn [negb] in H. change (default ∅ (Some d)) with d in H.
  apply bind_Ok_inv in H as (h & w1 & Hh & H).
  unfold getitem in Hh.
  destruct (d !! "password_hash") as [h'|] eqn:Hd; [|discriminate Hh].
  injection Hh as <- <-.
  apply bind_Ok_inv in H as (ok & w2 & Hv & H).
  destruct h' as [| | | | |salt pw]; try discriminate Hv.
  { injection Hv as <- <-. discriminate H. }
  destruct (hashable (UserLogin.password user_data)) eqn:Hok.
  2:{ rewrite (verify_password_refused _ _ _ _ Hok) in Hv. discriminate Hv. }
  rewrite (verify_password_digest _ _ _ _ Hok) in Hv.
  injection Hv as <- <-.
  case_bool_decide as Hpw; [|discriminate H]. cbn [negb] in H.
  exists i, d, salt, pw. split; [reflexivity|]. split; [exact Hd|].
  split; [reflexivity|]. split; [exact Hpw|].
  apply list_find_Some in Hf as (_ & He & _).
  unfold getitem at 1 in H. rewrite He in H.
  rewrite (bind_ok (ret _) _ w _ w eq_refl) in H. cbv beta in H.
  rewrite (bind_ok _ _ _ _ _ (create_access_token_sub _ w)) in H.
  cbv beta in H.
  apply bind_Ok_inv in H as (d1 & w3 & _ & H).
  apply bind_Ok_inv in H as (u & w4 & _ & H).
  injection H as <- _. split; reflexivity.
Qed.

(** C8.  The identity that [register], [login] and [get_me] return has no
    field [password_hash] and carries no digest under any field, and the
    token [login] issues carries none in its claims; yet the document that
    [register] stores, and the one [login] checked the password against,
    do hold the digest. *)
Theorem responses_hide_password_hash :
  (∀ user_data w u w',
     register user_data w = (Ok u, w') →
     ¬ exposes_hash (User.model_dump u) ∧
     ∃ d salt,
       last (users w') = Some d ∧
       d !! "password_hash"
       = Some (VBcrypt salt (UserRegister.password user_data))) ∧
  (∀ user_data w tk w',
     login user_data w = (Ok tk, w') →
     ¬ exposes_hash (User.model_dump (Token.user tk)) ∧
     (∀ alg claims key,
        Token.access_token tk = Signed alg claims key →
        ¬ exposes_hash claims) ∧
     ∃ (i : nat) d,
       users w !! i = Some d ∧
       d !! "email" = Some (VStr (UserLogin.email user_data)) ∧
       exposes_hash d) ∧
  (∀ credentials w u w',
     get_me credentials w = (Ok u, w') →
     ¬ exposes_hash (User.model_dump u)).
Proof.
  split_and!.
  - intros user_data w u w' (_ & _ & _ & ->)%register_Ok_inv.
    split; [apply user_model_dump_hides|].
    eexists _, _. split; [apply last_snoc|reflexivity].
  - intros user_data w tk w'
      (i & d & salt & pw & Hf & Hh & _ & _ & Ht & _)%login_Ok_inv.
    split; [apply user_model_dump_hides|]. split.
    + intros alg claims key Hk. rewrite Ht in Hk.
      exact (issued_token_hides _ _ _ _ _ _ Hk).
    + apply list_find_Some in Hf as (Hi & He & _).
      exists i, d. split; [exact Hi|]. split; [exact He|].
      left. rewrite Hh. by eexists.
  - intros credentials w u w' _. apply user_model_dump_hides.
Qed.

Lemma responses_hide_password_hash_witness :
  ¬ exposes_hash
      (User.model_dump
         (registered_user sample_newcomer "id-a" 1700000000000000)) ∧
  ∃ (i : nat) d,
    users sample_world !! i = Some d ∧
    d !! "email" = Some (VStr "root@campus.id") ∧
    exposes_hash d.
Proof.
  destruct responses_hide_password_hash as (Hreg & Hlogin & _).
  split.
  - refine (proj1 (Hreg sample_newcomer sample_world _
                     (after_register sample_newcomer sample_world) _)).
    reflexivity.
  - refine (proj2 (proj2 (Hlogin (UserLogin.mk "root@campus.id" "hunter2")
                            sample_world _ _ _))).
    exact (login_success (UserLogin.mk "root@campus.id" "hunter2")
             sample_world 0%nat sample_admin "salt-1" "hunter2"
             (User.mk "u-1" "root@campus.id" "Root" "admin"
                1690000000000000) eq_refl eq_refl eq_refl eq_refl eq_refl).
Defined.

(** ** C5: the two timestamps of a new student *)

Definition created_doc (c : StudentCreate.t) (id email : string)
    (t_created t_updated : Z) : doc :=
  {[ "id" := VStr id;
     "nim" := VStr (StudentCreate.nim c);
     "nama" := VStr (StudentCreate.nama c);
     "email" := VStr email;
     "program_studi" := VStr (StudentCreate.program_studi c);
     "angkatan" := VInt (StudentCreate.angkatan c);
     "created_at" := VIsoStr t_created;
     "updated_at" := VIsoStr t_updated ]}.

Definition created_record (c : StudentCreate.t) (id email : string)
    (t_created t_updated : Z) : Student.t :=
  Student.mk id (StudentCreate.nim c) (StudentCreate.nama c) email
             (StudentCreate.program_studi c) (StudentCreate.angkatan c)
             t_created t_updated.

(** The world after a successful [create_student], counted from the world
    [w1] in which the gate has passed: one more student, and one identifier
    and two readings of the clock consumed. *)
Definition after_create (c : StudentCreate.t) (email : string) (w1 : World)
  : World :=
  mkWorld (users w1)
          (students w1 ++
             [created_doc c (uuids w1 (uuid_count w1)) email
                (clock w1 (ticks w1)) (clock w1 (S (ticks w1)))])
          (clock w1) (clock_range w1) (S (S (ticks w1))) (uuids w1)
          (S (uuid_count w1)) (salts w1) (salt_count w1) (SECRET_KEY w1)
          (EmailStr w1).

Definition two_ticks (w1 : World) : World :=
  mkWorld (users w1) (students w1) (clock w1) (clock_range w1)
          (S (S (ticks w1))) (uuids w1) (S (uuid_count w1)) (salts w1)
          (salt_count w1) (SECRET_KEY w1) (EmailStr w1).

(** Building a [Student] from the fields of a creation request: the id and
    the two timestamps come from their default factories, in that order, and
    the e-mail address goes through the validator once more. *)
Lemma validate_new_student c w1 :
  Student.validate (StudentCreate.model_dump c) w1
  = match EmailStr w1 (StudentCreate.email c) with
    | Some email =>
        (Ok (created_record c (uuids w1 (uuid_count w1)) email
               (clock w1 (ticks w1)) (clock w1 (S (ticks w1)))),
         two_ticks w1)
    | None => (Raised "ValidationError", two_ticks w1)
    end.
Proof.
  unfold Student.validate.
  change (StudentCreate.model_dump c !! "id") with (@None value).
  change (StudentCreate.model_dump c !! "created_at") with (@None value).
  change (StudentCreate.model_dump c !! "updated_at") with (@None value).
  change (StudentCreate.model_dump c !! "nim")
    with (Some (VStr (StudentCreate.nim c))).
  change (StudentCreate.model_dump c !! "nama")
    with (Some (VStr (StudentCreate.nama c))).
  change (StudentCreate.model_dump c !! "email")
    with (Some (VStr (StudentCreate.email c))).
  change (StudentCreate.model_dump c !! "program_studi")
    with (Some (VStr (StudentCreate.program_studi c))).
  change (StudentCreate.model_dump c !! "angkatan")
    with (Some (VInt (StudentCreate.angkatan c))).
  unfold email_field, validate_email, bind. cbn.
  destruct (EmailStr w1 (StudentCreate.email c)); reflexivity.
Qed.

Lemma created_doc_bson c id email t0 t1 :
  bson_doc (created_doc c id email t0 t1) = int64 (StudentCreate.angkatan c).
Proof.
  destruct (int64 (StudentCreate.angkatan c)) eqn:E.
  - unfold created_doc.
    repeat (apply bson_doc_insert; [reflexivity || exact E|]).
    apply bool_decide_eq_true_2, map_Forall_empty.
  - apply bool_decide_eq_false_2. intros Hall.
    specialize (Hall "angkatan" (VInt (StudentCreate.angkatan c)) eq_refl).
    cbn [bson_value] in Hall. congruence.
Qed.

(** [create_student] past the gate, for a [nim] that is free: the record is
    built, and the driver either stores its document or refuses to encode
    it. *)
Lemma create_student_free tok w u w1 c :
  require_admin tok w = (Ok u, w1) →
  list_find (has_field "nim" (VStr (StudentCreate.nim c))) (students w)
  = None →
  create_student (Valid c) tok w
  = match EmailStr w (StudentCreate.email c) with
    | Some email =>
        if int64 (StudentCreate.angkatan c) then
          if fits (created_doc c (uuids w1 (uuid_count w1)) email
                     (clock w1 (ticks w1)) (clock w1 (S (ticks w1)))) then
            (Ok (created_record c (uuids w1 (uuid_count w1)) email
                   (clock w1 (ticks w1)) (clock w1 (S (ticks w1)))),
             after_create c email w1)
          else (OutOfModel, two_ticks w1)
        else (Raised "OverflowError", two_ticks w1)
    | None => (Raised "ValidationError", two_ticks w1)
    end.
Proof.
  intros Hg Hf.
  destruct (require_admin_same_store _ _ _ _ Hg) as (_ & Hst & _ & _ & Hev).
  unfold create_student.
  rewrite (bind_ok (read_body (Valid c)) _ w () w) by reflexivity.
  rewrite (bind_ok _ _ _ _ _ Hg). cbv beta.
  rewrite (bind_ok (validated (Valid c)) _ w1 c w1 eq_refl). cbv beta.
  assert (list_find (has_field "nim" (VStr (StudentCreate.nim c)))
            (read db_students w1) = None) as Hf1.
  { cbn [read]. rewrite Hst. exact Hf. }
  rewrite (bind_ok _ _ _ _ _ (find_one_miss db_students _ _ w1 Hf1)).
  cbv beta. cbn [truthy].
  pose proof (validate_new_student c w1) as Hv. rewrite Hev in Hv.
  destruct (EmailStr w (StudentCreate.email c)) as [email|].
  2:{ rewrite (bind_raised _ _ _ _ _ Hv). reflexivity. }
  rewrite (bind_ok _ _ _ _ _ Hv). cbv beta.
  set (s := created_record c (uuids w1 (uuid_count w1)) email
              (clock w1 (ticks w1)) (clock w1 (S (ticks w1)))).
  set (d := created_doc c (uuids w1 (uuid_count w1)) email
              (clock w1 (ticks w1)) (clock w1 (S (ticks w1)))).
  change (?lhs = ?rhs)
    with ((insert_one db_students d;; ret s) (two_ticks w1) = rhs).
  pose proof (created_doc_bson c (uuids w1 (uuid_count w1)) email
                (clock w1 (ticks w1)) (clock w1 (S (ticks w1)))) as Hb.
  fold d in Hb.
  destruct (int64 (StudentCreate.angkatan c)).
  - destruct (fits d) eqn:Hfit.
    + rewrite (bind_ok _ _ _ _ _ (insert_one_ok _ _ _ Hb Hfit)). reflexivity.
    + unfold bind at 1. by rewrite (insert_one_open _ _ _ Hb Hfit).
  - exact (bind_raised _ _ _ _ _ (insert_one_overflow _ _ _ Hb)).
Qed.

Definition sample_carol : StudentCreate.t :=
  StudentCreate.mk "C3" "Carol" "carol@campus.id" "Kimia" 2022.

(** C5, as the claim states it, fails: the two timestamps of the record
    that this call creates differ. *)
Lemma create_student_timestamps_differ :
  ∃ s w',
    create_student (Valid sample_carol) (sample_token "root@campus.id")
      sample_world = (Ok s, w') ∧
    Student.created_at s ≠ Student.updated_at s.
Proof.
  exists (created_record sample_carol "id-a" "carol@campus.id"
            1700000000000001 1700000000000002),
         (after_create sample_carol "carol@campus.id" (tick sample_world)).
  split; [reflexivity|discriminate].
Qed.

(** C5, amended.  The record a successful [create_student] returns has
    [created_at] set from one reading of the clock and [updated_at] from
    the next one, both taken while the record is built; the stored document
    holds the text of the same two instants.  The two fields are equal
    exactly when the clock did not move between the two readings. *)
Theorem create_student_timestamps tok w u w1 c s w2 :
  require_admin tok w = (Ok u, w1) →
  create_student (Valid c) tok w = (Ok s, w2) →
  Student.created_at s = clock w1 (ticks w1) ∧
  Student.updated_at s = clock w1 (S (ticks w1)) ∧
  (∃ d, last (students w2) = Some d ∧
        d !! "created_at" = Some (VIsoStr (Student.created_at s)) ∧
        d !! "updated_at" = Some (VIsoStr (Student.updated_at s))) ∧
  (Student.created_at s = Student.updated_at s ↔
   clock w1 (ticks w1) = clock w1 (S (ticks w1))).
Proof.
  intros Hg Hc.
  destruct (list_find (has_field "nim" (VStr (StudentCreate.nim c)))
              (students w)) as [[j d2]|] eqn:Hf.
  { apply list_find_Some in Hf as (Hj & Hn & _).
    rewrite (create_student_taken _ _ _ _ _ _ _ Hg Hj Hn) in Hc.
    discriminate Hc. }
  rewrite (create_student_free _ _ _ _ _ Hg Hf) in Hc.
  destruct (EmailStr w (StudentCreate.email c)) as [email|];
    [|discriminate Hc].
  destruct (int64 (StudentCreate.angkatan c)); [|discriminate Hc].
  destruct (fits _); [|discriminate Hc].
  injection Hc as <- <-. cbn [created_record Student.created_at
                                Student.updated_at].
  split; [reflexivity|]. split; [reflexivity|]. split; [|reflexivity].
  eexists. split; [apply last_snoc|]. split; reflexivity.
Qed.

Lemma create_student_timestamps_witness :
  ∃ s w2,
    create_student (Valid sample_carol) (sample_token "root@campus.id")
      sample_world = (Ok s, w2) ∧
    Student.created_at s = 1700000000000001 ∧
    Student.updated_at s = 1700000000000002.
Proof.
  exists (created_record sample_carol "id-a" "carol@campus.id"
            1700000000000001 1700000000000002),
         (after_create sample_carol "carol@campus.id" (tick sample_world)).
  split; [reflexivity|].
  destruct (create_student_timestamps (sample_token "root@campus.id")
              sample_world sample_admin (tick sample_world) sample_carol
              (created_record sample_carol "id-a" "carol@campus.id"
                 1700000000000001 1700000000000002)
              (after_create sample_carol "carol@campus.id"
                 (tick sample_world))
              eq_refl eq_refl) as (Hc & Hu & _).
  split; [exact Hc|exact Hu].
Defined.

(** ** C3: the filters of the student list *)



















(** A stored document that reads as a student. *)
Definition valid_student (ev : string → option string) (d : doc) : Prop :=
  is_Some (student_of ev d).









(** * Further properties of the routes *)

(** ** Reading one student *)

(** [get_student]: for an authenticated caller, an id that no document has
    gives 404; an id that a well-formed document has gives the record of the
    first such document.  Either way the collections stay as they are. *)
Theorem get_student_by_id tok w u w1 student_id :
  get_current_user tok w = (Ok u, w1) →
  (list_find (has_field "id" (VStr student_id)) (students w) = None →
   get_student student_id tok w
   = (HTTPException 404 "Student not found", w1)) ∧
  (∀ (i : nat) d s,
     list_find (has_field "id" (VStr student_id)) (students w)
     = Some (i, d) →
     student_of (EmailStr w) d = Some s →
     get_student student_id tok w = (Ok s, w1)) ∧
  students w1 = students w ∧ users w1 = users w.
Proof.
  intros Hg.
  destruct (get_current_user_same_store _ _ _ _ Hg)
    as (Hu & Hst & _ & _ & Hev).
  split_and!; [| |exact Hst|exact Hu].
  - intros Hf. unfold get_student.
    rewrite (bind_ok _ _ _ _ _ Hg). cbv beta.
    assert (list_find (has_field "id" (VStr student_id))
              (read db_students w1) = None) as Hf1.
    { cbn [read]. rewrite Hst. exact Hf. }
    rewrite (bind_ok _ _ _ _ _ (find_one_miss db_students _ _ w1 Hf1)).
    reflexivity.
  - intros i d s Hf Hs. unfold get_student.
    rewrite (bind_ok _ _ _ _ _ Hg). cbv beta.
    assert (list_find (has_field "id" (VStr student_id))
              (read db_students w1) = Some (i, d)) as Hf1.
    { cbn [read]. rewrite Hst. exact Hf. }
    destruct (find_one_hit _ _ _ _ _ _ Hf1) as [E Ht].
    rewrite (bind_ok _ _ _ _ _ E). cbv beta. rewrite Ht. cbn [negb].
    change (default ∅ (Some d)) with d.
    exact (read_then_validate (EmailStr w) w1 d s Hev Hs).
Qed.

Lemma get_student_by_id_witness :
  get_student "s-9" (sample_token "staff@campus.id") sample_world
  = (HTTPException 404 "Student not found", tick sample_world) ∧
  get_student "s-2" (sample_token "staff@campus.id") sample_world
  = (Ok (Student.mk "s-2" "B2" "Bob" "bob@campus.id" "Fisika" 2020
           1696000000000000 1696000000000000),
     tick sample_world).
Proof.
  destruct (get_student_by_id (sample_token "staff@campus.id") sample_world
              sample_staff (tick sample_world) "s-9" eq_refl)
    as (H404 & _ & _).
  destruct (get_student_by_id (sample_token "staff@campus.id") sample_world
              sample_staff (tick sample_world) "s-2" eq_refl)
    as (_ & Hok & _).
  split; [exact (H404 eq_refl)|].
  exact (Hok 1%nat sample_bob _ eq_refl eq_refl).
Defined.

(** ** Deleting a student *)

Lemma write_same c w : write c (read c w) w = w.
Proof. by destruct c, w. Qed.

Lemma delete_student_missing tok w u w1 student_id :
  require_admin tok w = (Ok u, w1) →
  list_find (has_field "id" (VStr student_id)) (students w) = None →
  delete_student student_id tok w
  = (HTTPException 404 "Student not found", w1).
Proof.
  intros Hg Hf.
  destruct (require_admin_same_store _ _ _ _ Hg) as (_ & Hst & _).
  unfold delete_student. rewrite (bind_ok _ _ _ _ _ Hg). cbv beta.
  assert (delete_one db_students [Field "id" (CEq (VStr student_id))] w1
          = (Ok 0, w1)) as Ed.
  { rewrite delete_one_eq by done.
    cbn [read]. rewrite Hst, Hf, <- Hst.
    change (students w1) with (read db_students w1).
    by rewrite write_same. }
  rewrite (bind_ok _ _ _ _ _ Ed). reflexivity.
Qed.

Lemma list_find_deleted (P : doc → Prop) `{!∀ d, Decision (P d)}
    (l : list doc) (i : nat) :
  (∀ (j : nat) d, l !! j = Some d → P d → j = i) →
  list_find P (delete i l) = None.
Proof.
  intros Huniq. apply list_find_None, Forall_lookup. intros j d Hj HP.
  destruct (decide (j < i)%nat) as [Hlt|Hge].
  - rewrite list_lookup_delete_lt in Hj by exact Hlt.
    specialize (Huniq j d Hj HP). lia.
  - rewrite list_lookup_delete_ge in Hj by lia.
    specialize (Huniq (S j) d Hj HP). lia.
Qed.

(** [delete_student], for an admin: an id that no document has gives 404
    and changes nothing; otherwise the first document with that id, and
    only that one, is removed.  When no other document had the id, the id
    is gone: a second deletion gives 404. *)
Theorem delete_student_removes_one tok w u w1 student_id :
  require_admin tok w = (Ok u, w1) →
  (list_find (has_field "id" (VStr student_id)) (students w) = None →
   delete_student student_id tok w
   = (HTTPException 404 "Student not found", w1)) ∧
  (∀ (i : nat) d,
     list_find (has_field "id" (VStr student_id)) (students w)
     = Some (i, d) →
     ∃ w2,
       delete_student student_id tok w
       = (Ok "Student deleted successfully", w2) ∧
       students w2 = delete i (students w) ∧ users w2 = users w ∧
       ((∀ (j : nat) d', students w !! j = Some d' →
                         d' !! "id" = Some (VStr student_id) → j = i) →
        ∀ tok' u' w3,
          require_admin tok' w2 = (Ok u', w3) →
          delete_student student_id tok' w2
          = (HTTPException 404 "Student not found", w3))).
Proof.
  intros Hg. split; [exact (delete_student_missing _ _ _ _ _ Hg)|].
  intros i d Hf.
  destruct (require_admin_same_store _ _ _ _ Hg) as (Hu & Hst & _).
  exists (write db_students (delete i (students w)) w1).
  split_and!; [|reflexivity|exact Hu|].
  - unfold delete_student. rewrite (bind_ok _ _ _ _ _ Hg). cbv beta.
    assert (delete_one db_students [Field "id" (CEq (VStr student_id))] w1
            = (Ok 1, write db_students (delete i (students w)) w1)) as Ed.
    { rewrite delete_one_eq by done.
      cbn [read]. rewrite Hst, Hf. reflexivity. }
    rewrite (bind_ok _ _ _ _ _ Ed). reflexivity.
  - intros Huniq tok' u' w3 Hg'.
    apply (delete_student_missing _ _ _ _ _ Hg').
    exact (list_find_deleted _ _ _ Huniq).
Qed.

Lemma delete_student_removes_one_witness :
  ∃ w2,
    delete_student "s-1" (sample_token "root@campus.id") sample_world
    = (Ok "Student deleted successfully", w2) ∧
    students w2 = [sample_bob] ∧
    delete_student "s-1" (sample_token "root@campus.id") w2
    = (HTTPException 404 "Student not found", tick w2).
Proof.
  destruct (proj2 (delete_student_removes_one
                     (sample_token "root@campus.id") sample_world
                     sample_admin (tick sample_world) "s-1" eq_refl)
              0%nat sample_alice eq_refl)
    as (w2 & Hd & Hst & Hu & Hagain).
  exists w2. split; [exact Hd|]. split; [exact Hst|].
  apply (λ H, Hagain H (sample_token "root@campus.id") sample_admin).
  - intros [|[|j]] d' Hj Hid; [reflexivity| |discriminate Hj].
    injection Hj as <-. vm_compute in Hid. discriminate Hid.
  - injection Hd as <-. reflexivity.
Defined.

(** ** Resolving the bearer token *)

(** [get_current_user] on a token that the server signed, with an integer
    expiry and nothing else that the library examines (no [iat], [nbf],
    [aud] or [jti], and a subject, if any, that is text): once the clock has
    reached the expiry it answers 401 [Token has expired]; a second or more
    before the expiry, a token without subject gives 401 [Invalid
    authentication credentials] and a subject that no user has gives 401
    [User not found]. *)
Theorem get_current_user_rejects claims exp w :
  plain_claims claims →
  claims !! "exp" = Some (VInt exp) →
  let tok := Signed ALGORITHM claims (SECRET_KEY w) in
  (exp * microseconds_per_second ≤ clock w (ticks w) →
   get_current_user tok w
   = (HTTPException 401 "Token has expired", tick w)) ∧
  (clock w (ticks w) ≤ (exp - 1) * microseconds_per_second →
   (claims !! "sub" = None →
    get_current_user tok w
    = (HTTPException 401 "Invalid authentication credentials", tick w)) ∧
   (∀ email,
      claims !! "sub" = Some (VStr email) →
      list_find (has_field "email" (VStr email)) (users w) = None →
      get_current_user tok w
      = (HTTPException 401 "User not found", tick w))).
Proof.
  intros Hp Hexp tok. split.
  - intros Hle. unfold get_current_user.
    exact (bind_http _ _ _ _ _ _ (decode_token_stale _ _ _ Hp Hexp Hle)).
  - intros Hlt. split.
    + intros Hsub. unfold get_current_user.
      rewrite (bind_ok _ _ _ _ _ (decode_token_fresh _ _ _ Hp Hexp Hlt)).
      cbv beta. rewrite Hsub. reflexivity.
    + intros email Hsub Hf. unfold get_current_user.
      rewrite (bind_ok _ _ _ _ _ (decode_token_fresh _ _ _ Hp Hexp Hlt)).
      cbv beta. rewrite Hsub. cbn [is_none default].
      assert (list_find (has_field "email" (VStr email))
                (read db_users (tick w)) = None) as Hf1 by exact Hf.
      rewrite (bind_ok _ _ _ _ _ (find_one_miss db_users _ _ _ Hf1)).
      reflexivity.
Qed.

Lemma get_current_user_rejects_witness :
  get_current_user
    (Signed ALGORITHM {[ "sub" := VStr "root@campus.id";
                         "exp" := VInt 1600000000 ]} "secret") sample_world
  = (HTTPException 401 "Token has expired", tick sample_world) ∧
  get_current_user (sample_token "ghost@campus.id") sample_world
  = (HTTPException 401 "User not found", tick sample_world).
Proof.
  split.
  - refine (proj1 (get_current_user_rejects
                     {[ "sub" := VStr "root@campus.id";
                        "exp" := VInt 1600000000 ]} 1600000000
                     sample_world (issued_claims_plain _ _) eq_refl) _).
    vm_compute. discriminate.
  - refine (proj2 (proj2 (get_current_user_rejects
                     {[ "sub" := VStr "ghost@campus.id";
                        "exp" := VInt 1700003600 ]} 1700003600
                     sample_world (issued_claims_plain _ _) eq_refl) _)
              "ghost@campus.id" eq_refl eq_refl).
    vm_compute. discriminate.
Defined.



(** The token that [create_access_token] issues at [T] for the payload of a
    login, the subject alone, is accepted one second later and rejected as
    expired at every reading of the clock after [T] plus 24 hours. *)
Theorem issued_token_expires_after_a_day email w tok w1 w2 :
  create_access_token {[ "sub" := VStr email ]} w = (Ok tok, w1) →
  SECRET_KEY w2 = SECRET_KEY w →
  (clock w2 (ticks w2) = clock w (ticks w) + 1 * microseconds_per_second →
   ∃ claims, decode_token tok w2 = (Ok claims, tick w2) ∧
             claims !! "sub" = Some (VStr email)) ∧
  (clock w (ticks w) + 24 * 60 * 60 * microseconds_per_second
   < clock w2 (ticks w2) →
   decode_token tok w2 = (HTTPException 401 "Token has expired", tick w2)).
Proof.
  intros Hc Hk. exact (issued_token_lifetime email w tok w1 w2 Hc Hk).
Qed.

Lemma sample_next_day :
  1600000000000000 ≤ 1700086400000001 ≤ 1800000000000000.
Proof. lia. Qed.

(** The sample world a day and a microsecond later. *)
Definition a_day_later (w : World) : World :=
  mkWorld (users w) (students w)
          (sample_clock 1700086400000001)
          (sample_clock_range 1700086400000001 sample_next_day)
          (ticks w) (uuids w) (uuid_count w) (salts w) (salt_count w)
          (SECRET_KEY w) (EmailStr w).

Lemma issued_token_expires_after_a_day_witness :
  decode_token (issued_token "secret" "root@campus.id" 1700000000000000)
    (a_day_later sample_world)
  = (HTTPException 401 "Token has expired", tick (a_day_later sample_world)).
Proof.
  refine (proj2 (issued_token_expires_after_a_day
                   "root@campus.id" sample_world
                   (issued_token "secret" "root@campus.id" 1700000000000000)
                   (tick sample_world) (a_day_later sample_world)
                   eq_refl eq_refl) _).
  vm_compute. reflexivity.
Defined.

(** ** Registration, login and the caller's own identity *)

Lemma get_me_ok tok w d u w1 :
  get_current_user tok w = (Ok d, w1) →
  user_of d = Some u →
  get_me tok w = (Ok u, w1).
Proof.
  intros Hg Hu. unfold get_me. rewrite (bind_ok _ _ _ _ _ Hg). cbv beta.
  exact (public_identity d u w1 Hu).
Qed.

(** After a successful registration, logging in with the same e-mail
    address and password succeeds, returns the registered identity, and the
    token it issues resolves, within 23 hours of its issue, to that same
    identity through [get_me]: same id, e-mail address, name, role and
    creation instant. *)
Theorem register_login_get_me user_data w u w1 :
  register user_data w = (Ok u, w1) →
  ∃ tk,
    login (UserLogin.mk (UserRegister.email user_data)
             (UserRegister.password user_data)) w1
    = (Ok tk, tick w1) ∧
    Token.user tk = u ∧
    User.email u = UserRegister.email user_data ∧
    User.role u = UserRegister.role user_data ∧
    (clock w1 (S (ticks w1)) - clock w1 (ticks w1)
     ≤ 23 * 3600 * microseconds_per_second →
     get_me (Token.access_token tk) (tick w1) = (Ok u, tick (tick w1))).
Proof.
  intros Hr.
  destruct (register_Ok_inv _ _ _ _ Hr) as (Hf & Hh & Hfit & ->).
  rewrite (register_fresh _ _ Hf Hh Hfit) in Hr. injection Hr as <-.
  set (w1 := after_register user_data w).
  set (d := registered_doc user_data (uuids w (uuid_count w))
              (salts w (salt_count w)) (clock w (ticks w))).
  set (u := registered_user user_data (uuids w (uuid_count w))
              (clock w (ticks w))).
  assert (list_find (has_field "email" (VStr (UserRegister.email user_data)))
            (users w1) = Some (length (users w), d)) as Hf1.
  { apply list_find_appended; [exact Hf|reflexivity]. }
  eexists. split.
  { exact (login_success
             (UserLogin.mk (UserRegister.email user_data)
                (UserRegister.password user_data))
             w1 (length (users w)) d (salts w (salt_count w))
             (UserRegister.password user_data) u
             Hf1 eq_refl Hh eq_refl eq_refl). }
  cbn [Token.user Token.access_token].
  split; [reflexivity|]. split; [reflexivity|]. split; [reflexivity|].
  intros Hsoon.
  apply (get_me_ok _ _ d); [|reflexivity].
  exact (issued_token_resolves (UserRegister.email user_data)
           (clock w1 (ticks w1)) (tick w1) (length (users w)) d Hsoon Hf1).
Qed.

Lemma register_login_get_me_witness :
  ∃ tk,
    login (UserLogin.mk "new@campus.id" "s3cret")
          (after_register sample_newcomer sample_world)
    = (Ok tk, tick (after_register sample_newcomer sample_world)) ∧
    get_me (Token.access_token tk)
      (tick (after_register sample_newcomer sample_world))
    = (Ok (registered_user sample_newcomer "id-a" 1700000000000000),
       tick (tick (after_register sample_newcomer sample_world))).
Proof.
  destruct (register_login_get_me sample_newcomer sample_world
              (registered_user sample_newcomer "id-a" 1700000000000000)
              (after_register sample_newcomer sample_world) eq_refl)
    as (tk & Hl & _ & _ & _ & Hme).
  exists tk. split; [exact Hl|]. apply Hme. vm_compute. discriminate.
Defined.

(** ** What the routes never write *)

(** A computation keeps a collection when, whatever its outcome, the
    collection is afterwards what it was before. *)
Definition keeps {A} (c : collection) (m : M A) : Prop :=
  ∀ w r w', m w = (r, w') → read c w' = read c w.

Lemma keeps_ret {A} c (a : A) : keeps c (ret a).
Proof. by intros w r w' [= _ <-]. Qed.

Lemma keeps_raise_http {A} c code detail : keeps c (@raise_http A code detail).
Proof. by intros w r w' [= _ <-]. Qed.

Lemma keeps_raise {A} c exc : keeps c (@raise A exc).
Proof. by intros w r w' [= _ <-]. Qed.

Lemma keeps_out_of_model {A} c : keeps c (@out_of_model A).
Proof. by intros w r w' [= _ <-]. Qed.

Lemma keeps_bind {A B} c (m : M A) (k : A → M B) :
  keeps c m → (∀ a, keeps c (k a)) → keeps c (bind m k).
Proof.
  intros Hm Hk w r w' H. unfold bind in H.
  destruct (m w) as [[a| | |] w1] eqn:E; specialize (Hm _ _ _ E).
  - rewrite <- Hm. exact (Hk a _ _ _ H).
  - by injection H as _ <-.
  - by injection H as _ <-.
  - by injection H as _ <-.
Qed.

Lemma keeps_now c : keeps c now.
Proof. intros w r w' [= _ <-]. by destruct c. Qed.

Lemma keeps_uuid4 c : keeps c uuid4.
Proof. intros w r w' [= _ <-]. by destruct c. Qed.

Lemma keeps_gensalt c : keeps c gensalt.
Proof. intros w r w' [= _ <-]. by destruct c. Qed.

Lemma keeps_get_secret c : keeps c get_secret.
Proof. by intros w r w' [= _ <-]. Qed.

Lemma keeps_validate_email c s : keeps c (validate_email s).
Proof. by intros w r w' [= _ <-]. Qed.

Lemma keeps_encode c b : keeps c (encode b).
Proof. destruct b; [apply keeps_ret|apply keeps_raise]. Qed.

Lemma keeps_find_one c c' q : keeps c (find_one c' q).
Proof.
  unfold find_one. apply keeps_bind; [apply keeps_encode|intros _].
  intros w r w' H. repeat case_match; by injection H as _ <-.
Qed.

Lemma keeps_find_to_list c c' q n : keeps c (find_to_list c' q n).
Proof.
  unfold find_to_list. apply keeps_bind; [apply keeps_encode|intros _].
  intros w r w' H. repeat case_match; by injection H as _ <-.
Qed.

Lemma read_write_other c c' l w : c ≠ c' → read c (write c' l w) = read c w.
Proof. by destruct c, c'. Qed.

Lemma keeps_insert_one c c' d : c ≠ c' → keeps c (insert_one c' d).
Proof.
  intros Hc. unfold insert_one.
  apply keeps_bind; [apply keeps_encode|intros _].
  apply keeps_bind;
    [case_match; [apply keeps_ret|apply keeps_out_of_model]|intros _].
  intros w r w' [= _ <-]. by apply read_write_other.
Qed.

Lemma keeps_update_one c c' q upd : c ≠ c' → keeps c (update_one c' q upd).
Proof.
  intros Hc. unfold update_one.
  apply keeps_bind; [apply keeps_encode|intros _].
  intros w r w' H.
  repeat case_match; injection H as _ <-; try reflexivity.
  by apply read_write_other.
Qed.

Lemma keeps_delete_one c c' q : c ≠ c' → keeps c (delete_one c' q).
Proof.
  intros Hc. unfold delete_one.
  apply keeps_bind; [apply keeps_encode|intros _].
  intros w r w' H.
  repeat case_match; injection H as _ <-; try reflexivity.
  by apply read_write_other.
Qed.

Lemma keeps_getitem c d k : keeps c (getitem d k).
Proof. unfold getitem. destruct (d !! k); [apply keeps_ret|apply keeps_raise]. Qed.

Lemma keeps_isoformat c v : keeps c (isoformat v).
Proof. destruct v; first [apply keeps_ret|apply keeps_raise]. Qed.

Lemma keeps_fromisoformat c v : keeps c (fromisoformat v).
Proof.
  destruct v; first [apply keeps_ret|apply keeps_raise
                    |apply keeps_out_of_model].
Qed.

Lemma keeps_validate_secret c p : keeps c (validate_secret p).
Proof.
  unfold validate_secret. case_match; [apply keeps_raise|apply keeps_ret].
Qed.

Lemma keeps_forbid_nul c p : keeps c (forbid_nul p).
Proof.
  unfold forbid_nul. case_match; [apply keeps_raise|apply keeps_ret].
Qed.

Lemma keeps_verify_password c p h : keeps c (verify_password p h).
Proof.
  destruct h; try first [apply keeps_ret|apply keeps_raise].
  cbn [verify_password].
  apply keeps_bind; [apply keeps_validate_secret|intros _].
  apply keeps_bind; [apply keeps_forbid_nul|intros _].
  apply keeps_ret.
Qed.

Lemma keeps_read_body {A} c (b : body A) : keeps c (read_body b).
Proof. destruct b; first [apply keeps_ret|apply keeps_raise_http]. Qed.

Lemma keeps_validated {A} c (b : body A) : keeps c (validated b).
Proof. destruct b; first [apply keeps_ret|apply keeps_raise_http]. Qed.

Lemma keeps_construct {A} c (f : field A) : keeps c (construct f).
Proof.
  destruct f; first [apply keeps_ret|apply keeps_raise
                    |apply keeps_out_of_model].
Qed.

Lemma keeps_with_default {A} c (f : field A) (m : M A) :
  keeps c m → keeps c (with_default f m).
Proof.
  intros Hm. destruct f; try apply keeps_ret.
  apply keeps_bind; [exact Hm|intros; apply keeps_ret].
Qed.

Lemma keeps_except_clause {A} c name e (h o : M A) :
  keeps c h → keeps c o → keeps c (except_clause name e h o).
Proof.
  intros Hh Ho. unfold except_clause.
  destruct (jwt_getattr name); [|apply keeps_raise].
  by destruct (issubclass e e0).
Qed.

Create HintDb keeps.
#[export] Hint Resolve keeps_ret keeps_raise_http keeps_raise
  keeps_out_of_model keeps_now keeps_uuid4 keeps_gensalt keeps_get_secret
  keeps_validate_email keeps_find_one keeps_find_to_list keeps_getitem
  keeps_isoformat keeps_fromisoformat keeps_verify_password keeps_validated
  keeps_read_body keeps_validate_secret keeps_forbid_nul keeps_encode
  keeps_construct keeps_with_default keeps_except_clause : keeps.

(** Walk through a handler: split every bind, and decide every branch. *)
Ltac keeps_step :=
  match goal with
  | |- keeps _ (bind _ _) => apply keeps_bind; [|intros ?]
  | |- keeps _ (if ?b then _ else _) => destruct b
  | |- keeps _ (match ?x with _ => _ end) => destruct x
  | |- keeps _ _ => solve [auto with keeps]
  end.

Ltac keeps_all := repeat keeps_step.

Lemma keeps_jwt_decode c tok key algs : keeps c (jwt_decode tok key algs).
Proof. unfold jwt_decode. keeps_all. Qed.

Lemma keeps_decode_token c tok : keeps c (decode_token tok).
Proof.
  unfold decode_token. keeps_all. apply keeps_jwt_decode.
Qed.

Lemma keeps_get_current_user c tok : keeps c (get_current_user tok).
Proof.
  unfold get_current_user. keeps_all. apply keeps_decode_token.
Qed.

Lemma keeps_require_admin c tok : keeps c (require_admin tok).
Proof.
  unfold require_admin. keeps_all. apply keeps_get_current_user.
Qed.

Lemma keeps_email_field c o : keeps c (email_field o).
Proof. unfold email_field. keeps_all. Qed.

Lemma keeps_user_validate c d : keeps c (User.validate d).
Proof. unfold User.validate. keeps_all. Qed.

Lemma keeps_student_validate c d : keeps c (Student.validate d).
Proof. unfold Student.validate. keeps_all. apply keeps_email_field. Qed.

Lemma keeps_parse_datetime_at c k d : keeps c (parse_datetime_at k d).
Proof. unfold parse_datetime_at. keeps_all. Qed.

Lemma keeps_parse_timestamps c d : keeps c (parse_timestamps d).
Proof.
  unfold parse_timestamps.
  apply keeps_bind; [|intros ?]; apply keeps_parse_datetime_at.
Qed.

Lemma keeps_mapM {A B} c (f : A → M B) l :
  (∀ a, keeps c (f a)) → keeps c (mapM f l).
Proof.
  intros Hf. induction l as [|a l IH]; cbn [mapM]; [apply keeps_ret|].
  apply keeps_bind; [apply Hf|intros b].
  apply keeps_bind; [exact IH|intros; apply keeps_ret].
Qed.

Lemma keeps_get_password_hash c p : keeps c (get_password_hash p).
Proof. unfold get_password_hash. keeps_all. Qed.

Lemma keeps_create_access_token c data : keeps c (create_access_token data).
Proof. unfold create_access_token. keeps_all. Qed.

#[export] Hint Resolve keeps_get_current_user keeps_require_admin
  keeps_user_validate keeps_student_validate keeps_parse_datetime_at
  keeps_parse_timestamps keeps_get_password_hash keeps_create_access_token
  keeps_insert_one keeps_update_one keeps_delete_one : keeps.

(** The routes that read -- [login], [get_me], [get_student] and the student
    list -- leave both collections as they found them, whatever the request
    and whatever the outcome. *)
Theorem read_routes_never_write c :
  (∀ user_data, keeps c (login user_data)) ∧
  (∀ credentials, keeps c (get_me credentials)) ∧
  (∀ student_id credentials, keeps c (get_student student_id credentials)) ∧
  (∀ search program_studi angkatan credentials,
     keeps c (get_students_response search program_studi angkatan
                credentials)).
Proof.
  split_and!.
  - intros ?. unfold login. keeps_all.
  - intros ?. unfold get_me. keeps_all.
  - intros ??. unfold get_student. keeps_all.
  - intros ????. unfold get_students_response, get_students. keeps_all;
      apply keeps_mapM; auto with keeps.
Qed.

(** Reading Alice's record as the administrator leaves both collections of
    the sample world as they were. *)
Lemma read_routes_never_write_witness :
  read db_students
       (snd (get_student "s-1" (sample_token "root@campus.id") sample_world))
  = read db_students sample_world ∧
  read db_users
       (snd (get_student "s-1" (sample_token "root@campus.id") sample_world))
  = read db_users sample_world.
Proof.
  split.
  - exact (proj1 (proj2 (proj2 (read_routes_never_write db_students)))
             "s-1" (sample_token "root@campus.id") sample_world _ _
             (surjective_pairing _)).
  - exact (proj1 (proj2 (proj2 (read_routes_never_write db_users)))
             "s-1" (sample_token "root@campus.id") sample_world _ _
             (surjective_pairing _)).
Defined.

(** [register] never touches the students, and the student routes never
    touch the users, whatever the request and whatever the outcome. *)
Theorem routes_stay_in_their_collection :
  (∀ user_data, keeps db_students (register user_data)) ∧
  (∀ student_data credentials,
     keeps db_users (create_student student_data credentials)) ∧
  (∀ student_id student_data credentials,
     keeps db_users (update_student student_id student_data credentials)) ∧
  (∀ student_id credentials,
     keeps db_users (delete_student student_id credentials)).
Proof.
  split_and!.
  - intros ?. unfold register. keeps_all.
  - intros ??. unfold create_student. keeps_all.
  - intros ???. unfold update_student. keeps_all.
  - intros ??. unfold delete_student. keeps_all.
Qed.

(** Deleting Alice's record as the administrator leaves the users of the
    sample world as they were. *)
Lemma routes_stay_in_their_collection_witness :
  read db_users
       (snd (delete_student "s-1" (sample_token "root@campus.id")
               sample_world))
  = read db_users sample_world.
Proof.
  exact (proj2 (proj2 (proj2 routes_stay_in_their_collection))
           "s-1" (sample_token "root@campus.id") sample_world _ _
           (surjective_pairing _)).
Defined.

(** ** Edge cases of the student list *)

(** An empty text filter and a year filter of zero are falsy in Python: the
    handler treats them exactly like filters that were not given, so a call
    with [angkatan=0] is not restricted to the year 0. *)
Theorem get_students_year_zero search program_studi angkatan credentials :
  get_students_response (nonempty search) (nonempty program_studi)
    (nonzero angkatan) credentials
  = get_students_response search program_studi angkatan credentials ∧
  get_students_response search program_studi (Some 0) credentials
  = get_students_response search program_studi None credentials ∧
  get_students_response (Some "") program_studi angkatan credentials
  = get_students_response None program_studi angkatan credentials.
Proof.
  assert (∀ o, nonempty (nonempty o) = nonempty o) as He.
  { intros [s|]; [|reflexivity]. unfold nonempty.
    case_bool_decide as Hs; [reflexivity|].
    by rewrite (bool_decide_eq_false_2 _ Hs). }
  assert (∀ o, nonzero (nonzero o) = nonzero o) as Hz.
  { intros [z|]; [|reflexivity]. unfold nonzero.
    case_bool_decide as Hs; [reflexivity|].
    by rewrite (bool_decide_eq_false_2 _ Hs). }
  split_and!; [|reflexivity|reflexivity].
  unfold get_students_response, get_students, students_query.
  by rewrite !He, Hz.
Qed.

Lemma mapM_length {A B} (f : A → M B) l w l' w' :
  mapM f l w = (Ok l', w') → length l' = length l.
Proof.
  revert w l' w'. induction l as [|a l IH]; intros w l' w' H.
  - by injection H as <- _.
  - cbn [mapM] in H.
    apply bind_Ok_inv in H as (b & w1 & _ & H).
    apply bind_Ok_inv in H as (bs & w2 & Hbs & H).
    injection H as <- _. cbn [length]. by rewrite (IH _ _ _ Hbs).
Qed.

(** The student list never has more than 1000 records, whatever the
    filters and however many documents match. *)
Theorem get_students_at_most_1000 search program_studi angkatan
    credentials w r w' :
  get_students_response search program_studi angkatan credentials w
  = (Ok r, w') →
  (length r ≤ 1000)%nat ∧ (length r ≤ length (students w))%nat.
Proof.
  intros H. unfold get_students_response in H.
  apply bind_Ok_inv in H as (l1 & w1 & Hg & Hv).
  apply mapM_length in Hv. unfold get_students in Hg.
  apply bind_Ok_inv in Hg as (u & w2 & Hu & Hg).
  apply bind_Ok_inv in Hg as (l0 & w3 & Hf & Hp).
  apply mapM_length in Hp.
  apply get_current_user_same_store in Hu as (_ & Hst & _).
  unfold find_to_list in Hf.
  apply bind_Ok_inv in Hf as ([] & w4 & He & Hf).
  unfold encode in He. destruct (bson_query _); [|discriminate He].
  injection He as <-.
  destruct (supported _); [|discriminate Hf].
  destruct (select _ _) as [l|] eqn:Hsel; [|discriminate Hf].
  injection Hf as <- _.
  assert (length l ≤ length (students w))%nat as Hl.
  { cbn [read] in Hsel. rewrite Hst in Hsel. clear -Hsel.
    revert l Hsel. induction (students w) as [|d ds IH]; intros l Hsel.
    - by injection Hsel as <-.
    - cbn [select] in Hsel.
      destruct (matches _ d) as [b|]; [|discriminate Hsel].
      destruct (select _ ds) as [l0|]; [|discriminate Hsel].
      injection Hsel as <-. specialize (IH l0 eq_refl).
      destruct b; cbn [length]; lia. }
  rewrite Hv, Hp, length_take. lia.
Qed.

Lemma get_students_at_most_1000_witness :
  (2 ≤ 1000)%nat ∧ (2 ≤ length (students sample_world))%nat.
Proof.
  exact (get_students_at_most_1000 None None None
           (sample_token "staff@campus.id") sample_world
           [sample_alice_record;
            Student.mk "s-2" "B2" "Bob" "bob@campus.id" "Fisika" 2020
                       1696000000000000 1696000000000000]
           (tick sample_world) eq_refl).
Defined.

(** ** Creating a student twice; updating what is not there *)

(** [create_student], for an admin: when a document already has the [nim]
    of the request the answer is 400 and the collection is untouched (the
    existing record included); and after a successful creation, a second
    one with the same [nim] is refused. *)
Theorem create_student_refuses_taken_nim tok w u w1 c :
  require_admin tok w = (Ok u, w1) →
  (∀ (j : nat) d,
     students w !! j = Some d →
     d !! "nim" = Some (VStr (StudentCreate.nim c)) →
     create_student (Valid c) tok w
     = (HTTPException 400 "NIM already exists", w1) ∧
     students w1 = students w) ∧
  (∀ s w2,
     create_student (Valid c) tok w = (Ok s, w2) →
     Student.nim s = StudentCreate.nim c ∧
     ∀ c' tok' u' w3,
       StudentCreate.nim c' = StudentCreate.nim c →
       require_admin tok' w2 = (Ok u', w3) →
       create_student (Valid c') tok' w2
       = (HTTPException 400 "NIM already exists", w3)).
Proof.
  intros Hg.
  destruct (require_admin_same_store _ _ _ _ Hg) as (_ & Hst & _).
  split.
  - intros j d Hj Hn. split; [|exact Hst].
    exact (create_student_taken _ _ _ _ _ _ _ Hg Hj Hn).
  - intros s w2 Hc.
    destruct (list_find (has_field "nim" (VStr (StudentCreate.nim c)))
                (students w)) as [[j d2]|] eqn:Hf.
    { apply list_find_Some in Hf as (Hj & Hn & _).
      rewrite (create_student_taken _ _ _ _ _ _ _ Hg Hj Hn) in Hc.
      discriminate Hc. }
    rewrite (create_student_free _ _ _ _ _ Hg Hf) in Hc.
    destruct (EmailStr w (StudentCreate.email c)) as [email|];
      [|discriminate Hc].
    destruct (int64 (StudentCreate.angkatan c)); [|discriminate Hc].
    destruct (fits _); [|discriminate Hc].
    injection Hc as <- <-. split; [reflexivity|].
    intros c' tok' u' w3 Hsame Hg'.
    apply (create_student_taken _ _ _ _ _ (length (students w1))
             (created_doc c (uuids w1 (uuid_count w1)) email
                (clock w1 (ticks w1)) (clock w1 (S (ticks w1)))) Hg').
    + cbn [after_create students].
      rewrite lookup_app_r by reflexivity. rewrite Nat.sub_diag. reflexivity.
    + rewrite Hsame. reflexivity.
Qed.

Lemma create_student_refuses_taken_nim_witness :
  create_student
    (Valid (StudentCreate.mk "A1" "Alicia" "alicia@campus.id" "Kimia" 2023))
    (sample_token "root@campus.id") sample_world
  = (HTTPException 400 "NIM already exists", tick sample_world).
Proof.
  exact (proj1 (proj1 (create_student_refuses_taken_nim
                         (sample_token "root@campus.id") sample_world
                         sample_admin (tick sample_world)
                         (StudentCreate.mk "A1" "Alicia" "alicia@campus.id"
                            "Kimia" 2023) eq_refl)
                  0%nat sample_alice eq_refl eq_refl)).
Defined.

(** [update_student], for an admin: an id that no document has gives 404
    before anything is written, whatever the payload; and a body that
    failed validation gives 422, also without a write. *)
Theorem update_student_without_target tok w u w1 student_id :
  require_admin tok w = (Ok u, w1) →
  (∀ p,
     list_find (has_field "id" (VStr student_id)) (students w) = None →
     update_student student_id (Valid p) tok w
     = (HTTPException 404 "Student not found", w1)) ∧
  update_student student_id Rejected tok w
  = (HTTPException 422 "Unprocessable Entity", w1) ∧
  students w1 = students w.
Proof.
  intros Hg.
  destruct (require_admin_same_store _ _ _ _ Hg) as (_ & Hst & _).
  split_and!; [| |exact Hst].
  - intros p Hf. unfold update_student.
    rewrite (bind_ok (read_body (Valid p)) _ w () w) by reflexivity.
    rewrite (bind_ok _ _ _ _ _ Hg). cbv beta.
    rewrite (bind_ok (validated (Valid p)) _ w1 p w1 eq_refl). cbv beta.
    assert (list_find (has_field "id" (VStr student_id))
              (read db_students w1) = None) as Hf1.
    { cbn [read]. rewrite Hst. exact Hf. }
    rewrite (bind_ok _ _ _ _ _ (find_one_miss db_students _ _ w1 Hf1)).
    reflexivity.
  - unfold update_student.
    rewrite (bind_ok (read_body Rejected) _ w () w) by reflexivity.
    rewrite (bind_ok _ _ _ _ _ Hg). reflexivity.
Qed.

Lemma update_student_without_target_witness :
  update_student "s-9" (Valid rename_to_New)
    (sample_token "root@campus.id") sample_world
  = (HTTPException 404 "Student not found", tick sample_world).
Proof.
  exact (proj1 (update_student_without_target
                  (sample_token "root@campus.id") sample_world sample_admin
                  (tick sample_world) "s-9" eq_refl)
           rename_to_New eq_refl).
Defined.

(** ** Stored student documents stay well formed *)

(** A validator that accepts what it returned, and returns it unchanged. *)
Definition idempotent (ev : string → option string) : Prop :=
  ∀ e e', ev e = Some e' → ev e' = Some e'.

Lemma created_doc_valid ev c id email t0 t1 :
  ev email = Some email →
  valid_student ev (created_doc c id email t0 t1).
Proof.
  intros He. exists (created_record c id email t0 t1).
  apply student_of_Some. exists email. by split_and!.
Qed.

Lemma update_student_missing tok w u w1 student_id p :
  require_admin tok w = (Ok u, w1) →
  list_find (has_field "id" (VStr student_id)) (students w) = None →
  update_student student_id (Valid p) tok w
  = (HTTPException 404 "Student not found", w1).
Proof.
  intros Hg Hf.
  destruct (require_admin_same_store _ _ _ _ Hg) as (_ & Hst & _).
  unfold update_student.
  rewrite (bind_ok (read_body (Valid p)) _ w () w) by reflexivity.
  rewrite (bind_ok _ _ _ _ _ Hg). cbv beta.
  rewrite (bind_ok (validated (Valid p)) _ w1 p w1 eq_refl). cbv beta.
  assert (list_find (has_field "id" (VStr student_id))
            (read db_students w1) = None) as Hf1.
  { cbn [read]. rewrite Hst. exact Hf. }
  rewrite (bind_ok _ _ _ _ _ (find_one_miss db_students _ _ w1 Hf1)).
  reflexivity.
Qed.

Lemma delete_student_found tok w u w1 student_id (i : nat) d :
  require_admin tok w = (Ok u, w1) →
  list_find (has_field "id" (VStr student_id)) (students w) = Some (i, d) →
  delete_student student_id tok w
  = (Ok "Student deleted successfully",
     write db_students (delete i (students w)) w1).
Proof.
  intros Hg Hf.
  destruct (require_admin_same_store _ _ _ _ Hg) as (_ & Hst & _).
  unfold delete_student. rewrite (bind_ok _ _ _ _ _ Hg). cbv beta.
  assert (delete_one db_students [Field "id" (CEq (VStr student_id))] w1
          = (Ok 1, write db_students (delete i (students w)) w1)) as Ed.
  { rewrite delete_one_eq by done.
    cbn [read]. rewrite Hst, Hf. reflexivity. }
  rewrite (bind_ok _ _ _ _ _ Ed). reflexivity.
Qed.

(** The student routes keep the collection well formed: if every stored
    document reads as a student, it still does after [create_student],
    [update_student] or [delete_student], whatever the outcome -- for a
    validator of e-mail addresses that accepts what it returned, and an
    update payload whose address, if any, the validator accepts. *)
Theorem student_routes_keep_documents_valid w :
  idempotent (EmailStr w) →
  Forall (valid_student (EmailStr w)) (students w) →
  (∀ c tok r w',
     create_student (Valid c) tok w = (r, w') →
     Forall (valid_student (EmailStr w)) (students w')) ∧
  (∀ student_id p tok r w',
     (∀ e, StudentUpdate.email p = Some e → is_Some (EmailStr w e)) →
     update_student student_id (Valid p) tok w = (r, w') →
     Forall (valid_student (EmailStr w)) (students w')) ∧
  (∀ student_id tok r w',
     delete_student student_id tok w = (r, w') →
     Forall (valid_student (EmailStr w)) (students w')).
Proof.
  intros Hid Hv. split_and!.
  - intros c tok r w' H.
    destruct (require_admin tok w) as [[u| | |] w1] eqn:Hg.
    2-4: unfold create_student in H;
         rewrite (bind_ok (read_body (Valid c)) _ w () w eq_refl) in H;
         unfold bind in H; rewrite Hg in H;
         injection H as _ <-;
         apply require_admin_same_store in Hg as (_ & -> & _); exact Hv.
    destruct (list_find (has_field "nim" (VStr (StudentCreate.nim c)))
                (students w)) as [[j d2]|] eqn:Hf.
    { apply list_find_Some in Hf as (Hj & Hn & _).
      rewrite (create_student_taken _ _ _ _ _ _ _ Hg Hj Hn) in H.
      injection H as _ <-.
      apply require_admin_same_store in Hg as (_ & -> & _). exact Hv. }
    rewrite (create_student_free _ _ _ _ _ Hg Hf) in H.
    apply require_admin_same_store in Hg as (_ & Hst & _).
    destruct (EmailStr w (StudentCreate.email c)) as [email|] eqn:He;
      [destruct (int64 (StudentCreate.angkatan c)); [destruct (fits _)|]|];
      injection H as _ <-.
    2-4: change (students (two_ticks w1)) with (students w1);
         rewrite Hst; exact Hv.
    change (students (after_create c email w1))
      with (students w1 ++
              [created_doc c (uuids w1 (uuid_count w1)) email
                 (clock w1 (ticks w1)) (clock w1 (S (ticks w1)))])%list.
    rewrite Hst.
    apply Forall_app. split; [exact Hv|].
    constructor; [|constructor].
    apply created_doc_valid. exact (Hid _ _ He).
  - intros sid p tok r w' Hp H.
    destruct (require_admin tok w) as [[u| | |] w1] eqn:Hg.
    2-4: unfold update_student in H;
         rewrite (bind_ok (read_body (Valid p)) _ w () w eq_refl) in H;
         unfold bind in H; rewrite Hg in H;
         injection H as _ <-;
         apply require_admin_same_store in Hg as (_ & -> & _); exact Hv.
    pose proof (require_admin_same_store _ _ _ _ Hg) as (_ & Hst & _).
    destruct (list_find (has_field "id" (VStr sid)) (students w))
      as [[i d]|] eqn:Hf.
    2:{ rewrite (update_student_missing _ _ _ _ _ p Hg Hf) in H.
        injection H as _ <-. rewrite Hst. exact Hv. }
    rewrite (update_student_found _ _ _ _ _ _ _ p Hg Hf) in H.
    assert (keeps db_students
              (let* d1 := parse_timestamps
                            (apply_set
                               (<["updated_at" :=
                                    VIsoStr (clock w1 (ticks w1))]>
                                  (provided p)) d)
               in Student.validate d1)) as Hk1 by keeps_all.
    assert (keeps db_students
              (let* d1 := parse_timestamps d in Student.validate d1))
      as Hk0 by keeps_all.
    case_decide; [|destruct (storable p); [cbv zeta in H; destruct (fits _)|]].
    + apply Hk0 in H. cbn [read] in H. rewrite H, Hst. exact Hv.
    + apply Hk1 in H. cbn [read write students] in H. rewrite H.
      apply Forall_insert; [exact Hv|].
      apply list_find_Some in Hf as (Hi & _).
      destruct (proj1 (Forall_lookup _ _) Hv i d Hi) as [s Hs].
      unfold valid_student.
      rewrite (student_of_patched _ _ _ _ s Hs).
      by apply patched_is_Some.
    + injection H as _ <-. change (students (tick w1)) with (students w1).
      rewrite Hst. exact Hv.
    + injection H as _ <-. change (students (tick w1)) with (students w1).
      rewrite Hst. exact Hv.
  - intros sid tok r w' H.
    destruct (require_admin tok w) as [[u| | |] w1] eqn:Hg.
    2-4: unfold delete_student, bind in H; rewrite Hg in H;
         injection H as _ <-;
         apply require_admin_same_store in Hg as (_ & -> & _); exact Hv.
    pose proof (require_admin_same_store _ _ _ _ Hg) as (_ & Hst & _).
    destruct (list_find (has_field "id" (VStr sid)) (students w))
      as [[i d]|] eqn:Hf.
    + rewrite (delete_student_found _ _ _ _ _ _ _ Hg Hf) in H.
      injection H as _ <-. cbn [write students].
      by apply Forall_delete.
    + rewrite (delete_student_missing _ _ _ _ _ Hg Hf) in H.
      injection H as _ <-. rewrite Hst. exact Hv.
Qed.

Lemma student_routes_keep_documents_valid_witness :
  Forall (valid_student Some)
    (students (after_create sample_carol "carol@campus.id"
                 (tick sample_world))).
Proof.
  refine (proj1 (student_routes_keep_documents_valid sample_world _ _)
            sample_carol (sample_token "root@campus.id")
            (Ok (created_record sample_carol "id-a" "carol@campus.id"
                   1700000000000001 1700000000000002))
            _ eq_refl).
  - intros e e' H. injection H as <-. reflexivity.
  - repeat constructor; by eexists.
Defined.

(** ** The token a login issues *)

(** Every successful [login] answers with a bearer token signed with the
    server's key under HS256; its claims are the subject, which is the e-mail
    address of the request, and the expiry, which in whole seconds lies
    within the last second before 24 hours after the login's first reading
    of the clock. *)
Theorem login_issues_day_token user_data w tk w' :
  login user_data w = (Ok tk, w') →
  ∃ claims exp,
    Token.access_token tk = Signed ALGORITHM claims (SECRET_KEY w) ∧
    Token.token_type tk = "bearer" ∧
    dom claims = ({[ "sub"; "exp" ]} : gset string) ∧
    claims !! "sub" = Some (VStr (UserLogin.email user_data)) ∧
    claims !! "exp" = Some (VInt exp) ∧
    clock w (ticks w) + 24 * 3600 * microseconds_per_second - 999999
    ≤ exp * microseconds_per_second
    ≤ clock w (ticks w) + 24 * 3600 * microseconds_per_second.
Proof.
  intros H.
  destruct (login_Ok_inv _ _ _ _ H)
    as (i & d & salt & pw & _ & _ & _ & _ & Ht & Hb).
  exists {[ "sub" := VStr (UserLogin.email user_data);
            "exp" := VInt (issued_exp (clock w (ticks w))) ]},
         (issued_exp (clock w (ticks w))).
  split; [exact Ht|]. split; [exact Hb|].
  split; [rewrite dom_insert_L, dom_singleton_L; reflexivity|].
  split; [reflexivity|]. split; [reflexivity|].
  pose proof (timegm_bounds (clock w (ticks w)
     + ACCESS_TOKEN_EXPIRE_MINUTES * 60 * microseconds_per_second)) as B.
  unfold issued_exp. unfold ACCESS_TOKEN_EXPIRE_MINUTES in *. lia.
Qed.

(** The staff member of the sample world logs in at 1700000000 s: the token
    expires at 1700086400 s. *)
Lemma login_issues_day_token_witness :
  ∃ claims : doc,
    claims !! "sub" = Some (VStr "staff@campus.id") ∧
    claims !! "exp" = Some (VInt 1700086400) ∧
    dom claims = ({[ "sub"; "exp" ]} : gset string).
Proof.
  destruct (login_issues_day_token
              (UserLogin.mk "staff@campus.id" "letmein") sample_world _ _
              (login_success (UserLogin.mk "staff@campus.id" "letmein")
                 sample_world 1%nat sample_staff "salt-2" "letmein"
                 (User.mk "u-2" "staff@campus.id" "Staff" "user"
                    1690000000000001)
                 eq_refl eq_refl eq_refl eq_refl eq_refl))
    as (claims & exp & _ & _ & Hd & Hs & He & Hlo & Hhi).
  exists claims. split; [exact Hs|]. split; [|exact Hd].
  rewrite He. do 2 f_equal.
  change (clock sample_world (ticks sample_world)) with 1700000000000000
    in Hlo, Hhi.
  unfold microseconds_per_second in Hlo, Hhi. lia.
Defined.

(** ** What the libraries refuse *)

(** A registration whose e-mail address is free but whose password the
    hashing library refuses -- more than 4096 characters, or a NUL byte --
    ends as a 500, and no user is stored. *)
Theorem register_unusable_password user_data w :
  list_find (has_field "email" (VStr (UserRegister.email user_data)))
            (users w) = None →
  hashable (UserRegister.password user_data) = false →
  ∃ w',
    register user_data w
    = (Raised (refusal (UserRegister.password user_data)), w') ∧
    status_of (register user_data w).1 = Some 500 ∧
    users w' = users w ∧ students w' = students w.
Proof.
  intros Hf Hh. unfold register.
  rewrite (bind_ok _ _ _ _ _ (find_one_miss db_users _ _ w Hf)). cbv beta.
  cbn [truthy].
  rewrite (bind_ok _ _ _ _ _ (user_validate_new user_data w)).
  cbv beta.
  pose proof (get_password_hash_refused _ (tick (uuid4 w).2) Hh) as E.
  unfold refusal.
  destruct (MAX_PASSWORD_SIZE <? _)%nat;
    rewrite (bind_raised _ _ _ _ _ E); eexists;
    (split; [reflexivity|split; [reflexivity|split; reflexivity]]).
Qed.

Lemma register_unusable_password_witness :
  ∃ w',
    register (UserRegister.mk "new@campus.id" password_with_nul "N" "user")
             sample_world
    = (Raised "PasswordValueError", w') ∧
    users w' = users sample_world.
Proof.
  destruct (register_unusable_password
              (UserRegister.mk "new@campus.id" password_with_nul "N" "user")
              sample_world eq_refl eq_refl) as (w' & E & _ & Hu & _).
  exists w'. split; [exact E|exact Hu].
Defined.

(** [create_student], for an admin, a free [nim] and an e-mail address
    that validates: a year outside the 8 bytes of an integer of the store
    makes the driver raise; the request ends as a 500 and no student is
    stored. *)
Theorem create_student_year_overflow tok w u w1 c :
  require_admin tok w = (Ok u, w1) →
  list_find (has_field "nim" (VStr (StudentCreate.nim c))) (students w)
  = None →
  is_Some (EmailStr w (StudentCreate.email c)) →
  ¬ (- 2 ^ 63 ≤ StudentCreate.angkatan c < 2 ^ 63) →
  ∃ w2,
    create_student (Valid c) tok w = (Raised "OverflowError", w2) ∧
    students w2 = students w ∧ users w2 = users w.
Proof.
  intros Hg Hf [email He] Hy.
  destruct (require_admin_same_store _ _ _ _ Hg) as (Hu & Hst & _).
  rewrite (create_student_free _ _ _ _ _ Hg Hf), He.
  assert (int64 (StudentCreate.angkatan c) = false) as ->.
  { unfold int64. apply andb_false_iff.
    destruct (Z.leb_spec (- 2 ^ 63) (StudentCreate.angkatan c));
      [right|by left].
    apply Z.ltb_ge. lia. }
  exists (two_ticks w1). split; [reflexivity|]. split; assumption.
Qed.

Lemma create_student_year_overflow_witness :
  ∃ w2,
    create_student
      (Valid (StudentCreate.mk "C3" "Carol" "carol@campus.id" "Kimia"
                (2 ^ 63)))
      (sample_token "root@campus.id") sample_world
    = (Raised "OverflowError", w2) ∧
    students w2 = students sample_world.
Proof.
  destruct (create_student_year_overflow
              (sample_token "root@campus.id") sample_world sample_admin
              (tick sample_world)
              (StudentCreate.mk "C3" "Carol" "carol@campus.id" "Kimia"
                 (2 ^ 63))
              eq_refl eq_refl (mk_is_Some _ _ eq_refl)
              ltac:(cbn; lia)) as (w2 & E & Hs & _).
  exists w2. split; [exact E|exact Hs].
Defined.

(** [login] decides on the first 72 bytes of the password: against the
    digest of a password, a password that the library accepts logs in
    exactly when it agrees with that password on those bytes, whatever
    follows them. *)
Theorem login_reads_72_bytes user_data w i d salt pw u :
  list_find (has_field "email" (VStr (UserLogin.email user_data)))
            (users w) = Some (i, d) →
  d !! "password_hash" = Some (VBcrypt salt pw) →
  user_of d = Some u →
  hashable (UserLogin.password user_data) = true →
  (String.substring 0 72 (UserLogin.password user_data)
   = String.substring 0 72 pw →
   ∃ tk, login user_data w = (Ok tk, tick w) ∧ Token.user tk = u) ∧
  (String.substring 0 72 (UserLogin.password user_data)
   ≠ String.substring 0 72 pw →
   login user_data w = (HTTPException 401 "Invalid email or password", w)).
Proof.
  intros Hf Hh Hu Hok. split.
  - intros Hpw. eexists. split.
    + exact (login_success _ _ _ _ _ _ _ Hf Hh Hok Hpw Hu).
    + reflexivity.
  - intros Hpw. exact (login_wrong_password _ _ _ _ _ _ Hf Hh Hok Hpw).
Qed.

Definition seventy_two_bytes : string :=
  "012345678901234567890123456789012345678901234567890123456789012345678901".

Definition sample_verbose : UserRegister.t :=
  UserRegister.mk "long@campus.id" (seventy_two_bytes ++ "a") "Long" "user".

(** Registered with a password of 73 bytes, the user logs in with another
    one that differs in the last byte. *)
Lemma login_reads_72_bytes_witness :
  String.length seventy_two_bytes = 72%nat ∧
  register sample_verbose sample_world
  = (Ok (registered_user sample_verbose "id-a" 1700000000000000),
     after_register sample_verbose sample_world) ∧
  ∃ tk,
    login (UserLogin.mk "long@campus.id" (seventy_two_bytes ++ "b"))
          (after_register sample_verbose sample_world)
    = (Ok tk, tick (after_register sample_verbose sample_world)).
Proof.
  split; [reflexivity|]. split; [reflexivity|].
  destruct (proj1 (login_reads_72_bytes
              (UserLogin.mk "long@campus.id" (seventy_two_bytes ++ "b"))
              (after_register sample_verbose sample_world)
              2%nat
              (registered_doc sample_verbose "id-a" "salt-a"
                 1700000000000000)
              "salt-a" (seventy_two_bytes ++ "a")
              (registered_user sample_verbose "id-a" 1700000000000000)
              eq_refl eq_refl eq_refl eq_refl) eq_refl) as (tk & E & _).
  exists tk. exact E.
Defined.

(** A token that the server signed and that is not expired, but that names
    an audience, is refused by the library with an error that the handler
    does not map: the request ends as a 500, not as a 401. *)
Theorem audience_token_escapes claims exp aud w :
  claims !! "iat" = None →
  claims !! "nbf" = None →
  claims !! "exp" = Some (VInt exp) →
  clock w (ticks w) ≤ (exp - 1) * microseconds_per_second →
  claims !! "aud" = Some aud → value_truthy aud = true →
  get_current_user (Signed ALGORITHM claims (SECRET_KEY w)) w
  = (Raised "AttributeError", tick w) ∧
  status_of (get_current_user (Signed ALGORITHM claims (SECRET_KEY w)) w).1
  = Some 500.
Proof.
  intros Hi Hn He Hlt Ha Hv.
  assert (decode_token (Signed ALGORITHM claims (SECRET_KEY w)) w
          = (Raised "AttributeError", tick w)) as E.
  { unfold decode_token.
    rewrite (bind_ok get_secret _ w (SECRET_KEY w) w eq_refl). cbv beta.
    unfold bind at 1. rewrite jwt_decode_signed.
    assert (validate_claims claims (timestamp (clock w (ticks w)))
            = Fail InvalidAudienceError) as ->; [|reflexivity].
    unfold validate_claims, validate_iat, validate_nbf, validate_exp,
      validate_aud.
    rewrite Hi, Hn, He, Ha. cbn [and_then with_int].
    rewrite (int_le_timestamp_ahead _ _ (clock_in_range w _) Hlt).
    cbn [and_then]. by rewrite Hv. }
  unfold get_current_user. cbv zeta.
  rewrite (bind_raised _ _ _ _ _ E). split; reflexivity.
Qed.

Lemma audience_token_escapes_witness :
  get_current_user
    (Signed ALGORITHM {[ "sub" := VStr "root@campus.id";
                         "exp" := VInt 1700003600;
                         "aud" := VStr "campus" ]} "secret") sample_world
  = (Raised "AttributeError", tick sample_world).
Proof.
  refine (proj1 (audience_token_escapes
                   {[ "sub" := VStr "root@campus.id";
                      "exp" := VInt 1700003600;
                      "aud" := VStr "campus" ]} 1700003600 (VStr "campus")
                   sample_world eq_refl eq_refl eq_refl _ eq_refl eq_refl)).
  vm_compute. discriminate.
Defined.
